(* ===== verification/_CoqProject ===== *)
-Q . S2P
Prelude.v
JsString.v
JsNumber.v
JsRandom.v
Upload.v
Chat.v
ChatView.v
Page.v
Hero.v
UploadLive.v
UploadSpec.v
UploadView.v
System.v
