(* ===== verification/Prelude.v ===== *)
(** * StudyMate: a verification development of the StudyMate front end

    The repository (src/study-oracle/src) is a React front end with three
    view components and one page-level coordinator:

    - [components/StudyMate/PDFUploader.tsx]: a list of [UploadedFile]
      records kept in component state.  [onDrop] runs [processFile] on
      every dropped file in turn.  [processFile] appends the file and then
      moves it through a simulated upload loop (progress 0..100 by 10, one
      100 ms timer per step) and a processing loop (0..100 by 20, one
      300 ms timer per step) to [completed].  [onDrop] finally calls the
      parent's [onFilesProcessed] with the completed files of the state it
      closed over.  [removeFile] filters a file out.  [formatFileSize]
      renders a byte count.
    - [components/StudyMate/ChatInterface.tsx]: a message list, an input
      string and an [isLoading] flag.  [handleSendMessage] is guarded by
      [!inputValue.trim() || isLoading].  It appends the user message and
      starts [simulateAIResponse], which appends a typing placeholder,
      sleeps 2000 ms, removes every placeholder and appends one of five
      canned replies, chosen by [Math.floor(Math.random() * 5)].
    - [pages/StudyMate.tsx]: [showMainApp], the processed files and the
      active tab.  [handleFilesProcessed] stores the files and selects the
      chat tab when there are any.  The page renders the hero, the upload
      tab or the chat tab, and the chat interface only when files exist.
    - [components/StudyMate/HeroSection.tsx]: static markup whose one
      behaviour is the [onGetStarted] callback.

    ** Layout of the development

    - [Prelude] (this file): the [js_scope] notations, the [sm] hint
      and [sm_rw] rewrite databases, the [invc] and [js_eq_case] tactics, and [map_where], the
      JS idiom [xs.map(x => p(x) ? g(x) : x)] with its lemmas.
    - [JsString]: the ASCII part of [String.prototype.trim], whitespace,
      and [endsWith]/[toLowerCase] as used by the PDF filter.
    - [JsNumber]: the number-to-string steps of [formatFileSize]
      ([toFixed(2)], [parseFloat], [Number#toString]) on exact rationals,
      and [formatFileSize] itself.
    - [JsRandom]: [Math.random()] as a double [k / 2^53] and the rounding of
      [Math.random() * n] to the nearest double, so that the canned-reply
      index [Math.floor(Math.random() * n)] is computed at machine width.
    - [Upload]: [UploadedFile], the status enum, the instructions the
      async [processFile]/[onDrop] perform (each [setUploadedFiles]
      updater, each [await setTimeout], the final [onFilesProcessed]), the
      loops written with fuel, and the uploader's event-loop semantics as
      a step relation over the component state and its suspended tasks.
    - [UploadSpec]: the spec's per-file machine over (status, progress)
      ([spec_step]: uploading 0..100 by 10, processing 0..100 by 20,
      completed 100) and the refinement proof: every uploader step moves
      each listed id by at most two steps of it, a file appears only at
      (uploading, 0), and a listed file disappears only by its removal.
      An executable monitor ([monitor]) replays a task for one id,
      counting the machine steps since the task resumed; the invariant
      [spec_inv] says that at most one running task still appends or
      writes an id and that the monitor accepts every task from the
      file's current phase.
    - [UploadLive]: what the uploader promises over time: a drop of n
      PDFs adds exactly 17 n timers and every firing uses one up
      (termination), and running the tasks to their end completes every
      listed file (liveness).  The per-id liveness invariant is proved in
      a [Section] for any [onDrop] whose tasks end their writes with the
      completing one ([Upload.task_done]); [Upload.onDrop_done] discharges
      it for the code.  The generic [task_inv] of [Upload] (a [Section]
      over a file predicate and the instructions that keep it) carries
      the well-formedness invariant.
    - [UploadView]: the uploader's markup decisions: drop heading, list
      heading, and one row per file with [getStatusIcon], the status
      text and the progress bar.
    - [Chat]: [Message], the chat state, [handleSendMessage],
      [simulateAIResponse] split at its [await], the other input
      handlers, and the chat step relation with its placeholder invariant.
    - [ChatView]: the chat's markup decisions: bubbles with alignment,
      avatar and body, suggested questions, disabled controls, send icon.
    - [Page]: the coordinator's state, handlers and rendering decision.
    - [Hero]: the landing view's keyed pills and statistics and its two
      buttons, of which only "Start Learning Now" has a handler.
    - [System]: the page together with the children its active tab
      mounts.  Radix's [TabsContent] mounts only the active content, so
      leaving the upload tab unmounts the uploader (its list is lost, its
      tasks keep running and still call [onFilesProcessed]) and the chat
      is mounted afresh each time it appears.  Every notification an
      uploader sends is delivered to [handleFilesProcessed] in order and
      followed by the re-mount.  [AnimatePresence] around the two
      [TabsContent] elements does not change which content is mounted.

    ** What the theorems show

    - Uploader: one dropped PDF is processed to [completed] at 100 after
      17 timers and the parent is told only the files completed before
      the drop ([drop_one_file]); every reachable state has well-formed
      files with unique ids; removed files stay removed; timers only
      append; a drop of n PDFs adds exactly 17 n timers, every firing
      uses one up, and from any reachable state running them out leaves
      every file [completed] at 100; the rendered rows never show the
      error state; every step of the uploader refines the spec's
      per-file state machine, at most two machine steps at a time
      ([uploader_refines_spec]).
    - Chat: the send guard; at most one typing placeholder, exactly while
      a reply is pending, and always last; replies replace the
      placeholder with one of the canned strings; real messages are never
      removed; the reply index is in range at double precision; a
      one-millisecond send gives two messages the same id; Enter is the
      send button; the rendered "Thinking" bubble, spinner and disabled
      controls match the pending reply; the suggestions disappear at the
      first send.
    - Page: the tab is always a real tab; [handleFilesProcessed] switches
      to the chat exactly on a non-empty report and replaces the list
      even with an empty one; the chat interface needs files.
    - System: the mounted children are exactly those the page renders,
      and a child that stays mounted is never reset; every step refines
      uploader and chat steps, so their invariants hold in the composed
      page; the first drop of a session never enables the chat; opening
      the chat tab unmounts the uploader and loses its list; on the
      upload tab, a drop on an uploader with no completed file (as after
      every remount) erases the page's documents.
    - Library: the blank test of [trim], the value and unit of
      [formatFileSize] ("undefined" from 2^40 bytes on).  The
      [toFixed]/[parseFloat] round trip and the characterisation of
      [trim] are lemmas these rest on.
    The hero view ([Hero]) is constant markup with one handler; its lemma
    records the keys and the one effective button but claims nothing of
    the program's logic.

    ** How the async code is modelled

    JavaScript runs one event handler or timer callback at a time.  An
    async function runs synchronously up to its first [await]; each
    [await new Promise(r => setTimeout(r, d))] suspends it until its
    timer fires.  A task is therefore a list of instructions, and the
    instructions between two sleeps run atomically.  A state step is a user
    event (drop, remove, type, send, ...) or the firing of some suspended
    task's timer; any pending timer may fire next, which over-approximates
    the real timer order, so invariants proved for every interleaving hold
    for the real one.  React's functional updaters [setX(prev => ...)]
    read the latest state, so they are modelled as functions applied to
    the current state.  A value a handler closed over ([uploadedFiles] in
    [onDrop]) is the state at the time of the event.

    ** Bounds and fuel

    The [for (let progress = 0; progress <= 100; progress += step)] loops
    are [Fixpoint]s with fuel; 101 iterations is enough for any step >= 1,
    and [Upload] proves that enough fuel yields exactly the values
    0, step, ..., 100.  Progress is a [Z].  A byte count is an [N].
    [Math.random()] is a 53-bit fraction.  [Math.floor(Math.log(b) /
    Math.log(1024))] is [N.log2 b / 10], equal to the float computation
    below 2^50 - 3 bytes (far above the 2^40 where the unit runs out).
    The first-drop theorem fires the uploader's timer exactly 17 times,
    its 11 upload and 6 processing sleeps.  Fresh ids ([Date.now() +
    Math.random()]) are an assumption of the drop step: distinct, and
    neither listed, nor still to be appended or written by a running task.

    ** Plan for the rest of the development

    - the rendered page of [System] as the composition of [Page.render],
      [UploadView] and [ChatView], with its theorems restated on it;
    - liveness for every fair timer order, not only the oldest-first one
      proved in [UploadLive] (the termination bound already covers every
      order);
    - at most one [onFilesProcessed] call per timer segment, which would
      extend the no-remount theorem of [System] to the timers of
      unmounted uploaders.

    ** What is not modelled

    Styling, layout and animation (framer-motion) are not modelled: the
    view files keep only the decisions the markup takes on the state,
    with icons named by their lucide component.  The scroll effect of
    [ChatInterface] (lines 42-46) only moves the viewport.  The
    [isDragActive] flag of react-dropzone is an input of
    [UploadView.uploader_view].  The
    [components/ui] widgets and react-dropzone are not under src/.  Only
    the PDF accept filter of react-dropzone (the [accept] option of
    PDFUploader.tsx) and the mount rule of [TabsContent] are modelled,
    from their documented behaviour.  The [Settings] and [HelpCircle]
    buttons have no handler.
    [Date.now()] and [Math.random()] are inputs of the events that call
    them.  Strings are ASCII strings, so the non-ASCII whitespace of
    [trim] is out of reach. *)

From stdpp Require Export base list strings relations sorting.
From Stdlib Require Export ZArith Lia.

Declare Scope js_scope.
Delimit Scope js_scope with js.

(** JavaScript strict equality on strings, as in [f.id === fileId]. *)
Notation "a === b" := (String.eqb a b) (at level 70, no associativity) : js_scope.

Create HintDb sm discriminated.
Create Rewrite HintDb sm_rw.

(** [invc H]: invert a hypothesis and clean up. *)
Ltac invc H := inversion H; subst; clear H.

(** Case on a JS string comparison in the goal or in a hypothesis. *)
Ltac js_eq_case :=
  match goal with
  | |- context [String.eqb ?a ?b] => destruct (String.eqb_spec a b); subst
  | H : context [String.eqb ?a ?b] |- _ => destruct (String.eqb_spec a b); subst
  end.

(** [map_where p g xs] is the JavaScript [xs.map(x => p(x) ? g(x) : x)]:
    the update-in-place idiom of every [setUploadedFiles] in the uploader. *)
Definition map_where {A} (p : A -> bool) (g : A -> A) (xs : list A) : list A :=
  List.map (fun x => if p x then g x else x) xs.

Section MapWhere.
Context {A : Type} (p : A -> bool) (g : A -> A).

Lemma map_where_length (xs : list A) : length (map_where p g xs) = length xs.
Proof. unfold map_where. apply length_map. Qed.

Lemma map_where_app (xs ys : list A) :
  map_where p g (xs ++ ys) = map_where p g xs ++ map_where p g ys.
Proof. unfold map_where. apply List.map_app. Qed.

(** When no element is selected, the update is the identity. *)
Lemma map_where_none (xs : list A) :
  Forall (fun x => p x = false) xs -> map_where p g xs = xs.
Proof. induction 1; simpl; [done|]. by rewrite H, IHForall. Qed.

(** A property kept by [g] on the selected elements is kept by the list. *)
Lemma map_where_Forall (P : A -> Prop) (xs : list A) :
  (forall x, p x = true -> P x -> P (g x)) -> Forall P xs -> Forall P (map_where p g xs).
Proof.
  intros Hg. induction 1; simpl; constructor; auto.
  destruct (p x) eqn:E; auto.
Qed.

(** [g] that keeps a key keeps the list of keys. *)
Lemma map_where_keys {K} (key : A -> K) (xs : list A) :
  (forall x, p x = true -> key (g x) = key x) -> List.map key (map_where p g xs) = List.map key xs.
Proof.
  intros Hk. induction xs as [|x xs IH]; simpl; [done|].
  rewrite IH. destruct (p x) eqn:E; [by rewrite Hk|done].
Qed.

Lemma elem_of_map_where (xs : list A) y :
  In y (map_where p g xs) <-> exists x, In x xs /\ y = (if p x then g x else x).
Proof. unfold map_where. rewrite in_map_iff. firstorder. Qed.
End MapWhere.

#[export] Hint Resolve map_where_Forall : sm.
#[export] Hint Rewrite @map_where_length @map_where_app : sm_rw.

(** Filtering keeps a [Forall] property. *)
Lemma Forall_list_filter {A} (P : A -> Prop) (f : A -> bool) (xs : list A) :
  Forall P xs -> Forall P (List.filter f xs).
Proof.
  rewrite !List.Forall_forall. intros H x Hx. apply List.filter_In in Hx. naive_solver.
Qed.

#[export] Hint Resolve Forall_list_filter : sm.

(** An invariant of a step relation holds in every reachable state. *)
Lemma rtc_invariant {A} (R : relation A) (I : A -> Prop) (x y : A) :
  (forall a b, R a b -> I a -> I b) -> I x -> rtc R x y -> I y.
Proof. intros Hstep Hx Hr. induction Hr; eauto. Qed.

(** The image of a filtered list is a sublist of the image. *)
Lemma map_filter_sublist {A B} (g : A -> B) (p : A -> bool) (l : list A) :
  List.map g (List.filter p l) `sublist_of` List.map g l.
Proof.
  induction l as [|x l IH]; simpl; [done|].
  destruct (p x); simpl; [by apply sublist_skip|by apply sublist_cons].
Qed.
