(* ===== verification/JsString.v ===== *)
(** * JsString: the JavaScript string operations the components call

    [String.prototype.trim] (ChatInterface.tsx, [handleSendMessage] and
    the send button's [disabled] test), and [toLowerCase]/[endsWith] as
    used by the PDF accept filter.  Strings are Stdlib ASCII strings, so
    only the ASCII members of ECMAScript's WhiteSpace and LineTerminator
    sets are present: TAB, LF, VT, FF, CR and SPACE. *)

From S2P Require Import Prelude.
From Stdlib Require Import Ascii String.

Local Open Scope list_scope.

(** ECMAScript WhiteSpace or LineTerminator, restricted to ASCII. *)
Definition is_js_space (c : ascii) : bool :=
  let n := nat_of_ascii c in
  (Nat.eqb n 9 || Nat.eqb n 10 || Nat.eqb n 11 || Nat.eqb n 12 ||
   Nat.eqb n 13 || Nat.eqb n 32)%bool.

(** Drop the leading characters that satisfy [p]. *)
Fixpoint drop_while (p : ascii -> bool) (l : list ascii) : list ascii :=
  match l with
  | [] => []
  | c :: r => if p c then drop_while p r else l
  end.

(** [s.trim()]: strip leading and trailing white space. *)
Definition trim (s : string) : string :=
  let l := list_ascii_of_string s in
  string_of_list_ascii (rev (drop_while is_js_space (rev (drop_while is_js_space l)))).

(** [!s.trim()]: the trimmed string is empty, hence falsy. *)
Definition is_blank (s : string) : bool := String.eqb (trim s) EmptyString.

(** [s.toLowerCase()] on ASCII letters. *)
Definition lower_ascii (c : ascii) : ascii :=
  let n := nat_of_ascii c in
  if (Nat.leb 65 n && Nat.leb n 90)%bool then ascii_of_nat (n + 32) else c.

Definition to_lower (s : string) : string :=
  string_of_list_ascii (List.map lower_ascii (list_ascii_of_string s)).

(** [s.endsWith(suffix)]. *)
Definition ends_with (s suffix : string) : bool :=
  let n := String.length s in
  let m := String.length suffix in
  (Nat.leb m n && String.eqb (substring (n - m) m s) suffix)%bool.

(** ** Lemmas *)

Lemma drop_while_all (p : ascii -> bool) (l : list ascii) :
  drop_while p l = [] <-> forallb p l = true.
Proof.
  induction l as [|c r IH]; simpl; [done|].
  destruct (p c); simpl; [done|]. split; discriminate.
Qed.

Lemma drop_while_suffix (p : ascii -> bool) (l : list ascii) :
  exists pre, l = pre ++ drop_while p l /\ forallb p pre = true.
Proof.
  induction l as [|c r [pre [Hpre Hall]]]; simpl.
  - by exists [].
  - destruct (p c) eqn:E.
    + exists (c :: pre). simpl. rewrite E, <- Hpre. done.
    + by exists [].
Qed.

Lemma drop_while_head (p : ascii -> bool) (l : list ascii) c r :
  drop_while p l = c :: r -> p c = false.
Proof.
  induction l as [|d l IH]; simpl; [discriminate|].
  destruct (p d) eqn:E; [done|]. by intros [= -> ->].
Qed.

Lemma forallb_rev_ascii (p : ascii -> bool) (l : list ascii) :
  forallb p (rev l) = forallb p l.
Proof.
  induction l as [|c r IH]; simpl; [done|].
  rewrite List.forallb_app, IH; simpl. by rewrite andb_true_r, andb_comm.
Qed.

#[export] Hint Rewrite forallb_rev_ascii : sm_rw.

(** [String.append] is [simpl never]; its two equations as lemmas. *)
Lemma string_append_nil (s : string) : "" +:+ s = s.
Proof. reflexivity. Qed.

Lemma string_append_cons c (s1 s2 : string) : String c s1 +:+ s2 = String c (s1 +:+ s2).
Proof. reflexivity. Qed.

#[export] Hint Rewrite string_append_nil string_append_cons : sm_rw.

Lemma string_append_assoc (s1 s2 s3 : string) :
  (s1 +:+ s2) +:+ s3 = s1 +:+ (s2 +:+ s3).
Proof. induction s1 as [|c s1 IH]; [done|]. by rewrite !string_append_cons, IH. Qed.

Lemma list_ascii_of_string_append s1 s2 :
  list_ascii_of_string (s1 +:+ s2) = list_ascii_of_string s1 ++ list_ascii_of_string s2.
Proof. induction s1 as [|c s1 IH]; [done|]. rewrite string_append_cons. simpl. by rewrite IH. Qed.

Lemma list_ascii_of_string_eq_nil s :
  list_ascii_of_string s = [] <-> s = EmptyString.
Proof. destruct s; simpl; split; congruence. Qed.

Lemma rev_eq_nil_iff {A} (l : list A) : rev l = [] <-> l = [].
Proof.
  split; [|by intros ->]. destruct l as [|x l]; [done|].
  simpl. intros H. by destruct (app_cons_not_nil (rev l) [] x).
Qed.

Lemma string_of_list_ascii_eq_nil l :
  string_of_list_ascii l = EmptyString <-> l = [].
Proof. destruct l; simpl; split; congruence. Qed.

Lemma list_of_trim s :
  list_ascii_of_string (trim s) =
  rev (drop_while is_js_space (rev (drop_while is_js_space (list_ascii_of_string s)))).
Proof. unfold trim. apply list_ascii_of_string_of_list_ascii. Qed.

(** [forallb] over the list of [drop_while] when the whole list passes. *)
Lemma forallb_drop_while (p : ascii -> bool) l :
  forallb p (drop_while p l) = forallb p l.
Proof.
  destruct (drop_while_suffix p l) as [pre [Hl Hpre]].
  rewrite Hl at 2. by rewrite List.forallb_app, Hpre.
Qed.

(** C27: the blank test of [handleSendMessage].  [!s.trim()] holds exactly
    when every character of [s] is white space (the empty string
    included). *)
Theorem is_blank_spec s :
  is_blank s = true <-> forallb is_js_space (list_ascii_of_string s) = true.
Proof.
  unfold is_blank. rewrite String.eqb_eq, <- list_ascii_of_string_eq_nil, list_of_trim.
  rewrite rev_eq_nil_iff, drop_while_all.
  by rewrite forallb_rev_ascii, forallb_drop_while.
Qed.

(** [trim] removes exactly a white-space prefix and a white-space
    suffix, and what it keeps neither starts nor ends with white space. *)
Lemma trim_spec s :
  exists pre suf,
    list_ascii_of_string s = pre ++ list_ascii_of_string (trim s) ++ suf /\
    forallb is_js_space pre = true /\ forallb is_js_space suf = true /\
    (forall c r, list_ascii_of_string (trim s) = c :: r -> is_js_space c = false) /\
    (forall c r, list_ascii_of_string (trim s) = r ++ [c] -> is_js_space c = false).
Proof.
  rewrite list_of_trim. set (l := list_ascii_of_string s).
  destruct (drop_while_suffix is_js_space l) as [pre1 [Hl Hpre1]].
  set (m := drop_while is_js_space l) in *.
  destruct (drop_while_suffix is_js_space (rev m)) as [pre2 [Hm Hpre2]].
  set (t := drop_while is_js_space (rev m)) in *.
  assert (Hm' : m = rev t ++ rev pre2).
  { by rewrite <- rev_app_distr, <- Hm, rev_involutive. }
  exists pre1, (rev pre2). split; [|split; [done|split; [by rewrite forallb_rev_ascii|split]]].
  - by rewrite Hl at 1; rewrite Hm', app_assoc.
  - intros c r Ht. apply (drop_while_head is_js_space l c (r ++ rev pre2)).
    fold m. by rewrite Hm', Ht.
  - intros c r Ht. apply (drop_while_head is_js_space (rev m) c (rev r)).
    fold t. by rewrite <- (rev_involutive t), Ht, rev_app_distr.
Qed.
