(* ===== verification/JsNumber.v ===== *)
(** * JsNumber: the number formatting in [formatFileSize]

    PDFUploader.tsx, lines 25-31:
    [parseFloat((bytes / Math.pow(k, i)).toFixed(2)) + ' ' + sizes[i]].
    The quotient [bytes / 1024^i] is an exact double for every file size
    below 2^53, because dividing by a power of two is exact, so it is
    modelled as the exact rational [num / den].
    - [toFixed f num den] follows ECMAScript [Number.prototype.toFixed]
      step by step: n is the integer nearest to [10^f * x], ties going up,
      and its digits are padded and cut at the decimal point.
    - [parseFloat] reads the unsigned decimal forms ([ddd], [ddd.ddd],
      [.ddd]) into a [Decimal] mantissa and scale.  These are the only
      forms [toFixed] produces for numbers below 10^21.
    - [number_to_string] is [Number#toString] of a decimal: trailing zeros
      are dropped and the integer and fraction digits are printed.  For
      values in [1, 1024] with at most two fraction digits this is the
      shortest round-tripping form ECMAScript prints.  A decimal with
      fewer significant digits would differ by at least 0.01, far more than
      one ulp at that magnitude.
    - The unit index [Math.floor(Math.log(bytes) / Math.log(1024))] is
      the exact [N.log2 bytes / 10].  Checking the floating quotient next
      to each power of 1024 shows the two agree for every size below
      2^50 - 3; away from those powers the quotient is far from an
      integer. *)

From S2P Require Import Prelude JsString.
From stdpp Require Import pretty.
From Stdlib Require Import Ascii String.

Local Open Scope N_scope.

(** A JavaScript number given exactly as [mant / 10^scale]. *)
Record Decimal := mkDecimal { mant : N; scale : nat }.

(** ** [Number.prototype.toFixed] *)

(** The integer [n] of the ECMAScript algorithm: [n / 10^f - x] as close to
    zero as possible, the larger [n] on a tie. *)
Definition fixed_round (f : nat) (num den : N) : N :=
  (2 * 10 ^ N.of_nat f * num + den) / (2 * den).

(** [x.toFixed(f)] for [0 <= x = num / den < 10^21]. *)
Definition toFixed (f : nat) (num den : N) : string :=
  let n := fixed_round f num den in
  let m := list_ascii_of_string (pretty n) in
  match f with
  | O => string_of_list_ascii m
  | S _ =>
      let k := List.length m in
      let m := if Nat.leb k f then (List.repeat "0"%char (f + 1 - k) ++ m)%list else m in
      let k := Nat.max k (f + 1) in
      string_of_list_ascii (take (k - f) m ++ ["."%char] ++ drop (k - f) m)%list
  end.

(** ** [parseFloat] on unsigned decimal literals *)

Definition digit_val (c : ascii) : option N :=
  let n := N_of_ascii c in
  if (48 <=? n) && (n <=? 57) then Some (n - 48) else None.

(** Read the longest run of digits: the accumulated value, the digit count
    and what is left. *)
Fixpoint parse_digits (l : list ascii) (acc : N) (k : nat) : N * nat * list ascii :=
  match l with
  | c :: r =>
      match digit_val c with
      | Some d => parse_digits r (acc * 10 + d) (S k)
      | None => (acc, k, l)
      end
  | [] => (acc, k, [])
  end.

Definition parseFloat (s : string) : option Decimal :=
  let '(m1, k1, rest) := parse_digits (list_ascii_of_string s) 0 0 in
  match rest with
  | "."%char :: r =>
      let '(m2, k2, _) := parse_digits r m1 0 in
      if Nat.eqb k1 0 && Nat.eqb k2 0 then None else Some (mkDecimal m2 k2)
  | _ => if Nat.eqb k1 0 then None else Some (mkDecimal m1 0)
  end.

(** ** [Number#toString] *)

(** Drop trailing zeros of the fraction (the number is the same). *)
Fixpoint normalize_go (fuel : nat) (m : N) (k : nat) : Decimal :=
  match fuel, k with
  | S fuel', S k' => if m mod 10 =? 0 then normalize_go fuel' (m / 10) k' else mkDecimal m k
  | _, _ => mkDecimal m k
  end.

Definition normalize (d : Decimal) : Decimal := normalize_go (scale d) (mant d) (scale d).

(** [pad_left k s]: [s] preceded by zeros up to length [k]. *)
Definition pad_left (k : nat) (s : string) : string :=
  string_of_list_ascii (List.repeat "0"%char (k - String.length s) ++ list_ascii_of_string s)%list.

Definition number_to_string (d : Decimal) : string :=
  let d := normalize d in
  match scale d with
  | O => pretty (mant d)
  | S _ =>
      let p := 10 ^ N.of_nat (scale d) in
      pretty (mant d / p) +:+ "." +:+ pad_left (scale d) (pretty (mant d mod p))
  end.

(** [String(parseFloat(s))]: [NaN] when nothing parses. *)
Definition parseFloat_string (s : string) : string :=
  match parseFloat s with
  | Some d => number_to_string d
  | None => "NaN"
  end.

(** ** [formatFileSize] *)

Definition sizes : list string := ["Bytes"; "KB"; "MB"; "GB"].

(** [sizes[i]] concatenated to a string: [undefined] past the end. *)
Definition js_index_string (xs : list string) (i : nat) : string :=
  match nth_error xs i with
  | Some s => s
  | None => "undefined"
  end.

(** [Math.floor(Math.log(bytes) / Math.log(1024))] for [bytes >= 1]. *)
Definition unit_index (bytes : N) : N := N.log2 bytes / 10.

Definition formatFileSize (bytes : N) : string :=
  if bytes =? 0 then "0 Bytes"
  else
    let i := unit_index bytes in
    parseFloat_string (toFixed 2 bytes (1024 ^ i)) +:+ " " +:+ js_index_string sizes (N.to_nat i).

(** ** Digits *)

Definition is_digit (c : ascii) : Prop := is_Some (digit_val c).

(** The value a run of digits denotes, read after [acc]. *)
Definition digits_value (acc : N) (l : list ascii) : N :=
  List.fold_left (fun a c => a * 10 + default 0 (digit_val c)) l acc.

Lemma digits_value_app acc l1 l2 :
  digits_value acc (l1 ++ l2) = digits_value (digits_value acc l1) l2.
Proof. apply List.fold_left_app. Qed.

Lemma digits_value_acc acc l :
  digits_value acc l = acc * 10 ^ N.of_nat (List.length l) + digits_value 0 l.
Proof.
  revert acc. induction l as [|c l IH]; intros acc; simpl; [lia|].
  rewrite (IH (acc * 10 + _)), (IH (0 * 10 + _)), Nat2N.inj_succ, N.pow_succ_r'. lia.
Qed.

Lemma digits_value_zeros j : digits_value 0 (List.repeat "0"%char j) = 0.
Proof. induction j as [|j IH]; [done|]. simpl. exact IH. Qed.

(** [parse_digits] reads a run of digits up to the first non-digit. *)
Lemma parse_digits_app l rest acc k :
  Forall is_digit l ->
  match rest with c :: _ => digit_val c = None | [] => True end ->
  parse_digits (l ++ rest) acc k = (digits_value acc l, (k + List.length l)%nat, rest).
Proof.
  intros Hl Hrest. revert acc k. induction Hl as [|c l [d Hd] Hl IH]; intros acc k; simpl.
  - rewrite Nat.add_0_r. destruct rest as [|c r]; [done|]. simpl. by rewrite Hrest.
  - rewrite Hd, IH. simpl. do 2 f_equal. lia.
Qed.

Lemma pretty_N_char_digit d : d < 10 -> digit_val (pretty_N_char d) = Some d.
Proof.
  intros Hd. assert (d = 0 \/ d = 1 \/ d = 2 \/ d = 3 \/ d = 4 \/ d = 5 \/ d = 6 \/
                     d = 7 \/ d = 8 \/ d = 9) as H by lia.
  by repeat destruct H as [->|H]; [..|subst].
Qed.

Lemma pretty_N_go_app x s : pretty_N_go x s = pretty_N_go x "" +:+ s.
Proof.
  revert s. induction (N.lt_wf_0 x) as [x _ IH]; intros s.
  destruct (decide (x = 0)) as [->|Hx]; [done|].
  assert (Hlt : x / 10 < x) by (apply N.div_lt; lia).
  rewrite !(pretty_N_go_step x) by lia.
  rewrite (IH (x / 10) Hlt), (IH (x / 10) Hlt (String _ "")).
  by rewrite string_append_assoc.
Qed.

(** The digits of [pretty_N_go x ""] denote [x]. *)
Lemma pretty_N_go_digits x :
  Forall is_digit (list_ascii_of_string (pretty_N_go x "")) /\
  digits_value 0 (list_ascii_of_string (pretty_N_go x "")) = x.
Proof.
  induction (N.lt_wf_0 x) as [x _ IH].
  destruct (decide (x = 0)) as [->|Hx]; [done|].
  rewrite pretty_N_go_step, pretty_N_go_app, list_ascii_of_string_append by lia.
  destruct (IH (x / 10)) as [Hd Hv]; [apply N.div_lt; lia|].
  pose proof (pretty_N_char_digit (x mod 10) ltac:(apply N.mod_lt; lia)) as Hc.
  split.
  - apply Forall_app. split; [done|]. repeat constructor. unfold is_digit. by rewrite Hc.
  - rewrite digits_value_app, Hv. simpl. rewrite Hc. simpl.
    pose proof (N.div_mod x 10). lia.
Qed.

Lemma pretty_N_digits n :
  Forall is_digit (list_ascii_of_string (pretty n)) /\
  digits_value 0 (list_ascii_of_string (pretty n)) = n /\
  (1 <= List.length (list_ascii_of_string (pretty n)))%nat.
Proof.
  unfold pretty, pretty_N. case_decide as Hn.
  - subst. repeat constructor. by exists 0.
  - destruct (pretty_N_go_digits n) as [Hd Hv]. split; [done|split; [done|]].
    destruct (list_ascii_of_string (pretty_N_go n "")) eqn:E; simpl; [|lia].
    simpl in Hv. congruence.
Qed.

Lemma digit_val_dot : digit_val "."%char = None.
Proof. reflexivity. Qed.

(** The zero-padded digit string [toFixed] cuts at the decimal point. *)
Lemma toFixed_digits (f : nat) (n : N) :
  let m0 := list_ascii_of_string (pretty n) in
  let m := if Nat.leb (List.length m0) f then (List.repeat "0"%char (f + 1 - List.length m0) ++ m0)%list else m0 in
  Forall is_digit m /\ digits_value 0 m = n /\ List.length m = Nat.max (List.length m0) (f + 1).
Proof.
  intros m0 m. destruct (pretty_N_digits n) as [Hd [Hv Hl]]. subst m.
  destruct (Nat.leb_spec (List.length m0) f).
  - split; [|split].
    + apply Forall_app. split; [|done]. apply List.Forall_forall.
      intros c Hc. apply repeat_spec in Hc. subst. by exists 0.
    + by rewrite digits_value_app, digits_value_zeros.
    + rewrite length_app, repeat_length. lia.
  - split; [done|split; [done|lia]].
Qed.

Lemma parseFloat_toFixed_eq (f : nat) (num den : N) :
  parseFloat (toFixed (S f) num den) = Some (mkDecimal (fixed_round (S f) num den) (S f)).
Proof.
  unfold toFixed. set (n := fixed_round (S f) num den).
  destruct (toFixed_digits (S f) n) as [Hd [Hv Hlen]]. revert Hd Hv Hlen.
  set (m := if Nat.leb _ _ then _ else _). intros Hd Hv Hlen.
  set (K := Nat.max _ _) in *.
  unfold parseFloat. rewrite list_ascii_of_string_of_list_ascii.
  rewrite (parse_digits_app (take (K - S f) m)) by (by apply Forall_take || done).
  simpl. rewrite <- (app_nil_r (drop (K - S f) m)).
  rewrite (parse_digits_app (drop (K - S f) m) []) by (by apply Forall_drop || done).
  rewrite <- digits_value_app, take_drop, Hv, length_take, length_drop. simpl.
  replace (Nat.min (K - S f) (List.length m)) with (K - S f)%nat by lia.
  replace (List.length m - (K - S f))%nat with (S f) by lia.
  destruct (K - S f)%nat eqn:E; [lia|done].
Qed.

(** [formatFileSize] through the round trip: the number printed is the
    [toFixed(2)] rounding of [bytes / 1024^i]. *)
Lemma formatFileSize_eq (bytes : N) :
  bytes <> 0 ->
  formatFileSize bytes =
  number_to_string (mkDecimal (fixed_round 2 bytes (1024 ^ unit_index bytes)) 2)
  +:+ " " +:+ js_index_string sizes (N.to_nat (unit_index bytes)).
Proof.
  intros Hb. unfold formatFileSize. apply N.eqb_neq in Hb. rewrite Hb.
  unfold parseFloat_string. by rewrite parseFloat_toFixed_eq.
Qed.

Lemma pow1024 (i : N) : 1024 ^ i = 2 ^ (10 * i).
Proof. by rewrite N.pow_mul_r. Qed.

(** The unit index brackets the size between two powers of 1024. *)
Lemma unit_index_spec (bytes : N) :
  0 < bytes -> 1024 ^ unit_index bytes <= bytes < 1024 ^ (unit_index bytes + 1).
Proof.
  intros Hb. destruct (N.log2_spec bytes Hb) as [Hlo Hhi].
  unfold unit_index. rewrite !pow1024. set (l := N.log2 bytes) in *. clearbody l.
  pose proof (N.div_mod l 10 ltac:(lia)). pose proof (N.mod_lt l 10 ltac:(lia)).
  generalize dependent (l / 10); generalize dependent (l mod 10). intros r Hr q Hq.
  split.
  - eapply N.le_trans; [|exact Hlo]. apply N.pow_le_mono_r; lia.
  - eapply N.lt_le_trans; [exact Hhi|]. apply N.pow_le_mono_r; lia.
Qed.

Lemma unit_index_lt_4 (bytes : N) :
  0 < bytes -> (unit_index bytes < 4 <-> bytes < 2 ^ 40).
Proof.
  intros Hb. unfold unit_index.
  rewrite N.log2_lt_pow2 by done.
  pose proof (N.div_mod (N.log2 bytes) 10 ltac:(lia)).
  pose proof (N.mod_lt (N.log2 bytes) 10 ltac:(lia)).
  generalize dependent (N.log2 bytes / 10); generalize dependent (N.log2 bytes mod 10).
  intros r Hr q Hq. lia.
Qed.

(** C25: the size shown is [bytes / 1024^i] rounded to hundredths, to
    within half a hundredth, and it lies between 1 and 1024 inclusive. *)
Theorem formatFileSize_value (bytes : N) :
  0 < bytes ->
  exists n, formatFileSize bytes =
              number_to_string (mkDecimal n 2) +:+ " " +:+ js_index_string sizes (N.to_nat (unit_index bytes)) /\
            200 * bytes < (2 * n + 1) * 1024 ^ unit_index bytes /\
            (2 * n - 1) * 1024 ^ unit_index bytes <= 200 * bytes /\
            100 <= n <= 102400.
Proof.
  intros Hb. exists (fixed_round 2 bytes (1024 ^ unit_index bytes)).
  split; [apply formatFileSize_eq; lia|].
  destruct (unit_index_spec bytes Hb) as [Hlo Hhi].
  rewrite N.pow_add_r, N.pow_1_r in Hhi.
  unfold fixed_round. set (D := 1024 ^ unit_index bytes) in *.
  change (10 ^ N.of_nat 2) with 100.
  replace (2 * 100 * bytes + D) with (200 * bytes + D) by lia.
  assert (HD : 0 < D) by lia.
  pose proof (N.div_mod (200 * bytes + D) (2 * D) ltac:(lia)).
  pose proof (N.mod_lt (200 * bytes + D) (2 * D) ltac:(lia)).
  set (q := (200 * bytes + D) / (2 * D)) in *.
  assert (100 <= q) by (apply N.div_le_lower_bound; lia).
  assert (q <= 102400).
  { apply N.lt_succ_r, N.Div0.div_lt_upper_bound. lia. }
  clearbody q. generalize dependent ((200 * bytes + D) mod (2 * D)). intros r Hr Hq.
  split; [nia|split; [|lia]].
  replace ((2 * q - 1) * D) with (2 * D * q - D) by nia. lia.
Qed.

(** C26: the unit label is one of [sizes] exactly when the file is below
    1 TiB (2^40 bytes); from there on [sizes[i]] is [undefined] and the
    label reads ["undefined"]. *)
Theorem formatFileSize_unit (bytes : N) :
  0 < bytes ->
  (bytes < 2 ^ 40 -> In (js_index_string sizes (N.to_nat (unit_index bytes))) sizes) /\
  (2 ^ 40 <= bytes -> js_index_string sizes (N.to_nat (unit_index bytes)) = "undefined").
Proof.
  intros Hb. pose proof (unit_index_lt_4 bytes Hb) as Hi. split; intros Hlt.
  - assert (N.to_nat (unit_index bytes) < 4)%nat as H4 by lia.
    unfold js_index_string.
    destruct (nth_error sizes (N.to_nat (unit_index bytes))) eqn:E.
    + by apply nth_error_In in E.
    + apply nth_error_None in E. simpl in E. lia.
  - unfold js_index_string. rewrite (proj2 (nth_error_None _ _)); [done|].
    simpl. lia.
Qed.

(** ** Witnesses *)

Lemma formatFileSize_value_witness :
  0 < 1536 /\
  exists n, formatFileSize 1536 =
              number_to_string (mkDecimal n 2) +:+ " " +:+ js_index_string sizes (N.to_nat (unit_index 1536)) /\
            200 * 1536 < (2 * n + 1) * 1024 ^ unit_index 1536 /\
            (2 * n - 1) * 1024 ^ unit_index 1536 <= 200 * 1536 /\
            100 <= n <= 102400.
Proof. split; [lia|]. apply formatFileSize_value. lia. Defined.

Lemma formatFileSize_unit_witness :
  0 < 2 ^ 40 /\
  (2 ^ 40 < 2 ^ 40 -> In (js_index_string sizes (N.to_nat (unit_index (2 ^ 40)))) sizes) /\
  (2 ^ 40 <= 2 ^ 40 -> js_index_string sizes (N.to_nat (unit_index (2 ^ 40))) = "undefined").
Proof. split; [lia|]. apply formatFileSize_unit. lia. Defined.

(** A size just under 1 MiB rounds up to "1024 KB"; 1 TiB has no unit. *)
Example formatFileSize_1048575 : formatFileSize 1048575 = "1024 KB".
Proof. reflexivity. Qed.

Example formatFileSize_1TiB : formatFileSize (2 ^ 40) = "1 undefined".
Proof. reflexivity. Qed.

Example formatFileSize_samples :
  List.map formatFileSize [0; 500; 1024; 1536; 123456789] = ["0 Bytes"; "500 Bytes"; "1 KB"; "1.5 KB"; "117.74 MB"].
Proof. reflexivity. Qed.
