(* ===== verification/JsRandom.v ===== *)
(** * JsRandom: [Math.floor(Math.random() * n)] at double precision

    ChatInterface.tsx, line 78:
    [responses[Math.floor(Math.random() * responses.length)]].
    [Math.random()] returns a double in [0, 1).  Every such double that
    the engines produce is [k / 2^53] with [0 <= k < 2^53] (V8 draws 52 bits,
    SpiderMonkey 53).  The product [Math.random() * n] by an integer [n] is
    the exact product [k * n / 2^53] rounded to the nearest double.  Dividing
    by [2^53] is exact, so the rounding is that of the integer [k * n] to 53
    significant bits, ties to even.  [Math.floor] of the quotient is a right
    shift by 53.  The rounding is written out with [Z.shiftr], [Z.land],
    [Z.ones] and [Z.log2]. *)

From S2P Require Import Prelude.

Local Open Scope Z_scope.

(** Number of significand bits of a double. *)
Definition prec : Z := 53.

(** The dropped low bits when [m >= 0] is rounded to [prec] bits. *)
Definition round_shift (m : Z) : Z := Z.max 0 (Z.log2 m + 1 - prec).

(** Round a non-negative integer to the nearest value with [prec]
    significant bits, ties to even (IEEE 754 roundTiesToEven). *)
Definition round_double (m : Z) : Z :=
  let e := round_shift m in
  if e =? 0 then m
  else
    let q := Z.shiftr m e in
    let r := Z.land m (Z.ones e) in
    let half := Z.shiftl 1 (e - 1) in
    let q' := if r <? half then q
              else if half <? r then q + 1
              else if Z.even q then q else q + 1 in
    Z.shiftl q' e.

(** [Math.floor(Math.random() * n)] for [Math.random() = k / 2^53]. *)
Definition random_index (k n : Z) : Z := Z.shiftr (round_double (k * n)) prec.

(** ** Rounding never moves by more than half a unit in the last place *)

Lemma round_double_small m : round_shift m = 0 -> round_double m = m.
Proof. intros H. unfold round_double. by rewrite H. Qed.

Lemma round_double_bounds m :
  0 <= m -> 0 < round_shift m ->
  0 <= round_double m <= m + 2 ^ (round_shift m - 1).
Proof.
  intros Hm He. unfold round_double.
  set (e := round_shift m) in *. replace (e =? 0) with false by lia.
  rewrite Z.shiftl_1_l, Z.land_ones, Z.shiftr_div_pow2, Z.shiftl_mul_pow2 by lia.
  assert (Hp : 2 ^ e = 2 * 2 ^ (e - 1)) by (rewrite <- Z.pow_succ_r by lia; f_equal; lia).
  pose proof (Z.pow_pos_nonneg 2 (e - 1) ltac:(lia) ltac:(lia)).
  pose proof (Z.div_mod m (2 ^ e) ltac:(lia)). pose proof (Z.mod_pos_bound m (2 ^ e) ltac:(lia)).
  assert (0 <= m / 2 ^ e) by (apply Z.div_pos; lia).
  set (h := 2 ^ (e - 1)) in *. rewrite Hp in *. clearbody h.
  set (q := m / (2 * h)) in *. set (r := m mod (2 * h)) in *. clearbody q r.
  destruct (Z.ltb_spec r h); [nia|].
  destruct (Z.ltb_spec h r); [nia|].
  destruct (Z.even q); nia.
Qed.

(** [2^(e + 52) <= m] when [e] low bits are dropped. *)
Lemma round_shift_spec m :
  0 < m -> 0 < round_shift m -> 2 ^ (round_shift m + prec - 1) <= m.
Proof.
  intros Hm He. unfold round_shift in *.
  replace (Z.max 0 (Z.log2 m + 1 - prec) + prec - 1) with (Z.log2 m) by lia.
  apply Z.log2_spec. lia.
Qed.

Lemma random_index_range k n :
  0 <= k < 2 ^ prec -> 1 <= n -> 0 <= random_index k n < n.
Proof.
  intros Hk Hn. unfold random_index. rewrite Z.shiftr_div_pow2 by (unfold prec; lia).
  assert (Hr : 0 <= round_double (k * n) < 2 ^ prec * n).
  { destruct (Z.eq_dec (round_shift (k * n)) 0) as [He|He].
    - rewrite round_double_small by done. nia.
    - assert (0 < round_shift (k * n)) by (unfold round_shift in *; lia).
      assert (0 < k * n).
      { destruct (Z.eq_dec k 0); [subst; unfold round_shift, prec in *; simpl in *; lia|nia]. }
      pose proof (round_double_bounds (k * n) ltac:(lia) ltac:(lia)) as Hb.
      pose proof (round_shift_spec (k * n) ltac:(lia) ltac:(lia)) as Hs.
      set (e := round_shift (k * n)) in *.
      replace (2 ^ (e + prec - 1)) with (2 ^ (e - 1) * 2 ^ prec) in Hs
        by (rewrite <- Z.pow_add_r by (unfold prec; lia); f_equal; lia).
      assert (2 ^ (e - 1) < n) by nia.
      split; [lia|]. nia. }
  split; [apply Z.div_pos; unfold prec; lia|].
  apply Z.div_lt_upper_bound; [unfold prec; lia|]. lia.
Qed.

(** C23: the canned-reply index is in range.  For every double
    [Math.random() = k / 2^53] in [0, 1) and every array length [n >= 1],
    [Math.floor(Math.random() * n)] is an index [0 <= i < n], rounding
    of the product included. *)
Theorem random_index_bounds k n :
  0 <= k < 2 ^ prec -> 1 <= n -> 0 <= random_index k n < n.
Proof. exact (random_index_range k n). Qed.

(** The rounding agrees with IEEE 754 doubles on sample products; the
    expected values are the host's [float(m)] (ties included). *)
Example round_double_samples :
  List.map round_double
    [45035996273704955; 27021597764222973; 63050394783186937; 45035996273704950; 27021597764222970;
     63050394783186930; 22517998136852485; 13510798882111491; 31525197391593479; 33776997205278725;
     20266198323167235; 47287796087390215; 61728394506172835; 37037036703703701; 86419752308641969;
     35562525723869715; 21337515434321829; 49787536013417601] =
    [45035996273704952; 27021597764222972; 63050394783186936; 45035996273704952; 27021597764222968;
     63050394783186928; 22517998136852484; 13510798882111492; 31525197391593480; 33776997205278724;
     20266198323167236; 47287796087390216; 61728394506172832; 37037036703703704; 86419752308641968;
     35562525723869716; 21337515434321828; 49787536013417600].
Proof. vm_compute. reflexivity. Qed.

(** Every index of a five-element array is drawn by some [Math.random()];
    the largest double below 1 draws the last one. *)
Example random_index_all :
  List.map (fun i => random_index (i * 2 ^ 53 / 5 + 1) 5) [0; 1; 2; 3; 4] = [0; 1; 2; 3; 4] /\
  random_index (2 ^ 53 - 1) 5 = 4.
Proof. vm_compute. split; reflexivity. Qed.

Lemma random_index_bounds_witness :
  (0 <= 2 ^ 53 - 1 < 2 ^ prec /\ 1 <= 5) /\ 0 <= random_index (2 ^ 53 - 1) 5 < 5.
Proof. split; [unfold prec; lia|]. apply random_index_bounds; unfold prec; lia. Defined.
