(* ===== verification/Upload.v ===== *)
(** * Upload: the PDF uploader (components/StudyMate/PDFUploader.tsx)

    The component state is [uploadedFiles : UploadedFile[]].  The async
    functions [processFile] and [onDrop] become lists of [Instr]uctions:
    one per [setUploadedFiles] updater, one per [await setTimeout], and one
    for the final [onFilesProcessed] call.  The uploader runtime ([Uploader])
    holds the file list, the suspended tasks and the notifications sent to
    the parent.  It advances by a user event (a drop, a removal) or by a
    suspended task's timer firing; see the header of [Prelude].

    Every task ends its writes to a file id with the completing one and
    writes every file it appends ([task_done]); [processFile_done] and
    [onDrop_done] establish this for the code, and [UploadLive] builds its
    liveness proof on it.

    Theorems: the loops produce exactly the values 0, step, ..., 100 when
    given enough fuel; [processFile] run alone ends with the file
    [completed] at 100; every reachable state has progress in [0, 100] and
    no [error] status; file ids stay unique; removed files stay removed;
    timers only append to the list; [onDrop] notifies the parent with a
    snapshot that never holds a file of the batch it processed. *)

From S2P Require Import Prelude JsString JsNumber.
From Stdlib Require Import String.

Local Open Scope Z_scope.

(** ** Data (lines 9-16) *)

Inductive FileStatus := uploading | processing | completed | error.

#[export] Instance FileStatus_eq_dec : EqDecision FileStatus.
Proof. solve_decision. Defined.

(** The browser [File] handle: what the component reads of it. *)
Record JsFile := mkJsFile { file_name : string; file_size : N; file_type : string }.

Record UploadedFile := mkUploadedFile {
  id : string;
  file : JsFile;
  name : string;
  size : string;
  status : FileStatus;
  progress : Z
}.

(** [{ ...f, progress }] *)
Definition set_progress (p : Z) (f : UploadedFile) : UploadedFile :=
  mkUploadedFile (id f) (file f) (name f) (size f) (status f) p.

(** [{ ...f, status: s, progress: p }] *)
Definition set_status (s : FileStatus) (p : Z) (f : UploadedFile) : UploadedFile :=
  mkUploadedFile (id f) (file f) (name f) (size f) s p.

(** [f.id === fileId] *)
Definition has_id (fid : string) (f : UploadedFile) : bool := (id f === fid)%js.

(** ** The instructions of the async code *)

Inductive Instr :=
| IAppend (f : UploadedFile)                        (** [setUploadedFiles(prev => [...prev, f])] *)
| ISleep (ms : Z)                                   (** [await new Promise(r => setTimeout(r, ms))] *)
| ISetProgress (fid : string) (p : Z)               (** [prev.map(f => f.id === fid ? { ...f, progress } : f)] *)
| ISetStatus (fid : string) (s : FileStatus) (p : Z)(** [prev.map(f => f.id === fid ? { ...f, status, progress } : f)] *)
| INotify (files : list UploadedFile).              (** [onFilesProcessed(files)] *)

(** The effect of one instruction on [uploadedFiles]. *)
Definition exec_instr (i : Instr) (files : list UploadedFile) : list UploadedFile :=
  match i with
  | IAppend f => files ++ [f]
  | ISetProgress fid p => map_where (has_id fid) (set_progress p) files
  | ISetStatus fid s p => map_where (has_id fid) (set_status s p) files
  | ISleep _ | INotify _ => files
  end.

(** What the instruction sends to the parent, if anything. *)
Definition notify_of (i : Instr) : list (list UploadedFile) :=
  match i with INotify fs => [fs] | _ => [] end.

(** ** [processFile] (lines 33-72) *)

(** [for (let progress = p; progress <= 100; progress += step) {
       await sleep(delay); setUploadedFiles(... progress ...) }] *)
Fixpoint progress_loop (fuel : nat) (p step delay : Z) (fid : string) : list Instr :=
  match fuel with
  | O => []
  | S fuel' =>
      if p <=? 100
      then ISleep delay :: ISetProgress fid p :: progress_loop fuel' (p + step) step delay fid
      else []
  end.

(** Enough iterations for any loop from 0 with a step of at least 1. *)
Definition loop_fuel : nat := 101.

(** The record created at line 36; the id is
    [Date.now().toString() + Math.random().toString(36).substr(2, 9)],
    an input here. *)
Definition newFile (fid : string) (f : JsFile) : UploadedFile :=
  mkUploadedFile fid f (file_name f) (formatFileSize (file_size f)) uploading 0.

Definition processFile (fid : string) (f : JsFile) : list Instr :=
  [IAppend (newFile fid f)] ++
  progress_loop loop_fuel 0 10 100 fid ++
  [ISetStatus fid processing 0] ++
  progress_loop loop_fuel 0 20 300 fid ++
  [ISetStatus fid completed 100].

(** ** [onDrop] (lines 74-82) and [removeFile] (lines 92-94) *)

(** [uploadedFiles.filter(f => f.status === 'completed')] *)
Definition completedFiles (files : list UploadedFile) : list UploadedFile :=
  List.filter (fun f => bool_decide (status f = completed)) files.

(** [uploadedFiles] is the value the [useCallback] closure captured when
    the drop event was dispatched; each file comes with its fresh id. *)
Definition onDrop (uploadedFiles : list UploadedFile) (batch : list (string * JsFile)) : list Instr :=
  List.flat_map (fun '(fid, f) => processFile fid f) batch ++ [INotify (completedFiles uploadedFiles)].

Definition removeFile (fid : string) (files : list UploadedFile) : list UploadedFile :=
  List.filter (fun f => negb (id f === fid)%js) files.

(** ** Rendering decisions (lines 108-119 and 221) *)

Definition getStatusText (s : FileStatus) : string :=
  match s with
  | uploading => "Uploading..."
  | processing => "Processing PDF..."
  | completed => "Ready for Q&A"
  | error => "Error occurred"
  end.

(** The progress bar is shown while uploading or processing. *)
Definition shows_progress (f : UploadedFile) : bool :=
  match status f with uploading | processing => true | _ => false end.

(** ** The drop filter of react-dropzone (not under src/)

    [accept: { 'application/pdf': ['.pdf'] }] accepts a file whose MIME
    type is [application/pdf] or whose name ends in [.pdf], both compared
    in lower case. *)
Definition isPdfAccepted (f : JsFile) : bool :=
  (String.eqb (to_lower (file_type f)) "application/pdf" || ends_with (to_lower (file_name f)) ".pdf")%bool.

(** ** The uploader runtime *)

(** Run a task up to its next [await]: the new file list, the
    notifications sent so far, and the rest of the task (starting at the
    sleep it is suspended on, or empty when it has finished). *)
Fixpoint run_segment (prog : list Instr) (files : list UploadedFile) (out : list (list UploadedFile))
  : list UploadedFile * list (list UploadedFile) * list Instr :=
  match prog with
  | [] => (files, out, [])
  | ISleep ms :: _ => (files, out, prog)
  | i :: rest => run_segment rest (exec_instr i files) (out ++ notify_of i)
  end.

Record Uploader := mkUploader {
  uploadedFiles : list UploadedFile;      (** the React state *)
  tasks : list (list Instr);              (** suspended async tasks *)
  outbox : list (list UploadedFile)       (** [onFilesProcessed] calls, oldest first *)
}.

Definition uploader_init : Uploader := mkUploader [] [] [].

(** Keep a task that still has work. *)
Definition keep_task (rest : list Instr) : list (list Instr) :=
  match rest with [] => [] | _ => [rest] end.

(** Start an async task: it runs synchronously up to its first [await]. *)
Definition spawn (prog : list Instr) (u : Uploader) : Uploader :=
  let '(files, out, rest) := run_segment prog (uploadedFiles u) (outbox u) in
  mkUploader files (tasks u ++ keep_task rest) out.

(** The timer of task [k] fires: the task resumes after its sleep.
    [None] when task [k] does not exist. *)
Definition fire (k : nat) (u : Uploader) : option Uploader :=
  match tasks u !! k with
  | Some (ISleep _ :: rest) =>
      let '(files, out, rest') := run_segment rest (uploadedFiles u) (outbox u) in
      Some (mkUploader files (take k (tasks u) ++ keep_task rest' ++ drop (S k) (tasks u)) out)
  | _ => None
  end.

(** A drop hands react-dropzone's accepted files to [onDrop]; each
    dropped file comes with the id [processFile] will draw for it. *)
Definition drop_files (dropped : list (string * JsFile)) (u : Uploader) : Uploader :=
  spawn (onDrop (uploadedFiles u) (List.filter (fun '(_, f) => isPdfAccepted f) dropped)) u.

Definition remove (fid : string) (u : Uploader) : Uploader :=
  mkUploader (removeFile fid (uploadedFiles u)) (tasks u) (outbox u).

(** Ids an instruction list will still append. *)
Definition appended_ids (prog : list Instr) : list string :=
  List.flat_map (fun i => match i with IAppend f => [id f] | _ => [] end) prog.

Definition pending_ids (ts : list (list Instr)) : list string := List.flat_map appended_ids ts.

(** Ids a task will still write ([f.id === fileId] updates). *)
Definition written_ids (prog : list Instr) : list string :=
  List.flat_map (fun i => match i with ISetProgress y _ | ISetStatus y _ _ => [y] | _ => [] end) prog.

(** [Date.now() + Math.random()] ids are fresh: distinct, and not the id
    of a listed file, of a file a running task will still append, or of a
    file (perhaps removed) a running task will still write. *)
Definition fresh_ids (u : Uploader) (fids : list string) : Prop :=
  NoDup fids /\ Forall (fun x => (x ∉ List.map id (uploadedFiles u)) /\ (x ∉ pending_ids (tasks u)) /\
                                 (x ∉ List.flat_map written_ids (tasks u))) fids.

Inductive ustep : Uploader -> Uploader -> Prop :=
| ustep_drop u dropped :
    fresh_ids u (List.map fst dropped) -> ustep u (drop_files dropped u)
| ustep_remove u fid : ustep u (remove fid u)
| ustep_timer u k u' : fire k u = Some u' -> ustep u u'.

Definition ureachable (u : Uploader) : Prop := rtc ustep uploader_init u.

(** ** The progress loops: enough fuel gives exactly the loop's values *)

(** The number of iterations of [for (p; p <= 100; p += step)]. *)
Definition loop_count (p step : Z) : nat :=
  if p <=? 100 then Z.to_nat ((100 - p) / step + 1) else 0.

(** The values the loop variable takes: p, p + step, ..., up to 100. *)
Definition loop_values (p step : Z) : list Z :=
  List.map (fun j => p + Z.of_nat j * step) (List.seq 0 (loop_count p step)).

Lemma loop_count_step p step :
  0 < step -> p <= 100 -> loop_count p step = S (loop_count (p + step) step).
Proof.
  intros Hs Hp. unfold loop_count. rewrite (proj2 (Z.leb_le p 100)) by done.
  destruct (Z.leb_spec (p + step) 100) as [Hq|Hq].
  - replace (100 - p) with ((100 - (p + step)) + 1 * step) by lia.
    rewrite Z.div_add by lia. pose proof (Z.div_pos (100 - (p + step)) step ltac:(lia) Hs).
    generalize dependent ((100 - (p + step)) / step). intros. lia.
  - rewrite (Z.div_small (100 - p) step) by lia. done.
Qed.

Lemma loop_values_unfold p step :
  0 < step -> loop_values p step = if p <=? 100 then p :: loop_values (p + step) step else [].
Proof.
  intros Hs. destruct (Z.leb_spec p 100) as [Hp|Hp].
  - unfold loop_values at 1. rewrite loop_count_step by done. simpl.
    f_equal; [lia|]. rewrite <- seq_shift, List.map_map. unfold loop_values.
    apply List.map_ext. intros j. lia.
  - unfold loop_values, loop_count. by rewrite (proj2 (Z.leb_gt p 100)).
Qed.

Lemma loop_count_le p step : 0 <= p -> 0 < step -> (loop_count p step <= loop_fuel)%nat.
Proof.
  intros Hp Hs. unfold loop_count, loop_fuel. destruct (Z.leb_spec p 100); [|lia].
  assert ((100 - p) / step <= 100 - p) by (apply Z.div_le_upper_bound; nia).
  pose proof (Z.div_pos (100 - p) step ltac:(lia) Hs).
  generalize dependent ((100 - p) / step). intros. lia.
Qed.

(** The loop body: sleep, then write the progress. *)
Definition loop_body (delay : Z) (fid : string) (v : Z) : list Instr :=
  [ISleep delay; ISetProgress fid v].

Lemma progress_loop_enough fuel p step delay fid :
  0 < step -> (loop_count p step <= fuel)%nat ->
  progress_loop fuel p step delay fid = List.flat_map (loop_body delay fid) (loop_values p step).
Proof.
  intros Hs. revert p. induction fuel as [|fuel IH]; intros p Hf; rewrite loop_values_unfold by done.
  - destruct (Z.leb_spec p 100) as [Hp|Hp]; [|done].
    rewrite loop_count_step in Hf by done. lia.
  - simpl. destruct (Z.leb_spec p 100) as [Hp|Hp]; [|done].
    rewrite loop_count_step in Hf by done. simpl. f_equal. f_equal. apply IH. lia.
Qed.

(** C24: the loops terminate with the fuel given.  From any start
    [p >= 0] with step [>= 1], [loop_fuel] iterations run the loop to its
    end: one sleep and one progress write per value p, p + step, ...,
    up to 100. *)
Theorem progress_loop_spec p step delay fid :
  0 <= p -> 0 < step ->
  progress_loop loop_fuel p step delay fid = List.flat_map (loop_body delay fid) (loop_values p step).
Proof. intros Hp Hs. apply progress_loop_enough; [done|]. by apply loop_count_le. Qed.

Lemma loop_values_upload : loop_values 0 10 = [0; 10; 20; 30; 40; 50; 60; 70; 80; 90; 100].
Proof. reflexivity. Qed.

Lemma loop_values_processing : loop_values 0 20 = [0; 20; 40; 60; 80; 100].
Proof. reflexivity. Qed.

(** ** A task running alone *)

(** Run a program to its end, sleeps included as no-ops. *)
Definition exec_all (prog : list Instr) (files : list UploadedFile) : list UploadedFile :=
  List.fold_left (fun fs i => exec_instr i fs) prog files.

Definition notifs (prog : list Instr) : list (list UploadedFile) := List.flat_map notify_of prog.

Fixpoint sleeps (prog : list Instr) : nat :=
  match prog with
  | [] => O
  | ISleep _ :: r => S (sleeps r)
  | _ :: r => sleeps r
  end.

(** A task that has finished or is suspended on a sleep. *)
Definition suspended_or_done (rest : list Instr) : Prop :=
  match rest with [] | ISleep _ :: _ => True | _ => False end.

(** Fire the timer of task [k], [n] times in a row. *)
Fixpoint fire_n (n k : nat) (u : Uploader) : option Uploader :=
  match n with
  | O => Some u
  | S n' => match fire k u with Some u' => fire_n n' k u' | None => None end
  end.

Lemma run_segment_spec prog files out :
  let '(files', out', rest) := run_segment prog files out in
  suspended_or_done rest /\ exec_all rest files' = exec_all prog files /\
  out' ++ notifs rest = out ++ notifs prog /\ sleeps rest = sleeps prog.
Proof.
  revert files out. induction prog as [|i r IH]; intros files out; simpl.
  - by rewrite app_nil_r.
  - destruct i as [f|ms|fid p|fid s p|fs]; [| by repeat split | | |];
    match goal with |- context [run_segment r (exec_instr ?i files) _] =>
      specialize (IH (exec_instr i files) (out ++ notify_of i)) end;
    destruct (run_segment r _ _) as [[f' o'] rest];
    destruct IH as (? & ? & Ho & ?); split_and!; try done;
    rewrite Ho; by rewrite <- app_assoc.
Qed.

(** A suspended task alone in the runtime runs to its end after one
    firing per remaining sleep. *)
Lemma fire_n_alone rest files out :
  suspended_or_done rest ->
  fire_n (sleeps rest) 0 (mkUploader files (keep_task rest) out) =
  Some (mkUploader (exec_all rest files) [] (out ++ notifs rest)).
Proof.
  remember (sleeps rest) as n eqn:Hn. revert rest files out Hn.
  induction n as [|n IH]; intros rest files out Hn Hs;
    destruct rest as [|[] r]; simpl in *; try done; try by rewrite app_nil_r.
  injection Hn as Hn. unfold fire. simpl.
  pose proof (run_segment_spec r files out) as Hr.
  destruct (run_segment r files out) as [[f' o'] rest'].
  destruct Hr as (Hs' & He & Ho & Hsl). rewrite app_nil_r, IH by congruence.
  by rewrite He, Ho.
Qed.

(** Spawning a task into an idle runtime and firing its timer once per
    sleep runs it to completion. *)
Lemma run_alone prog u :
  tasks u = [] ->
  fire_n (sleeps prog) 0 (spawn prog u) =
  Some (mkUploader (exec_all prog (uploadedFiles u)) [] (outbox u ++ notifs prog)).
Proof.
  intros Ht. unfold spawn. rewrite Ht.
  pose proof (run_segment_spec prog (uploadedFiles u) (outbox u)) as Hr.
  destruct (run_segment prog _ _) as [[f' o'] rest].
  destruct Hr as (Hs & He & Ho & Hsl). rewrite <- Hsl, <- He, <- Ho.
  by apply fire_n_alone.
Qed.

(** ** Notifications only accumulate *)

(** The uploader with its notifications handed to the parent. *)
Definition clear_outbox (u : Uploader) : Uploader := mkUploader (uploadedFiles u) (tasks u) [].

Lemma run_segment_out prog files out :
  run_segment prog files out =
  let '(files', new, rest) := run_segment prog files [] in (files', out ++ new, rest).
Proof.
  revert files out. induction prog as [|i r IH]; intros files out; [simpl; by rewrite app_nil_r|].
  destruct i; cbn [run_segment]; try by rewrite app_nil_r.
  all: rewrite (IH _ (out ++ _)), (IH _ ([] ++ _));
    destruct (run_segment r _ []) as [[f' o'] rest]; by rewrite app_assoc.
Qed.

(** A timer run does not read the notifications sent before it. *)
Lemma fire_out k files ts o :
  fire k (mkUploader files ts o) =
  option_map (fun v => mkUploader (uploadedFiles v) (tasks v) (o ++ outbox v)) (fire k (mkUploader files ts [])).
Proof.
  unfold fire. simpl. destruct (ts !! k) as [[|[] rest]|]; try done.
  rewrite (run_segment_out rest _ o). by destruct (run_segment rest _ []) as [[f' o'] r'].
Qed.

Lemma fire_n_out n k files ts o :
  fire_n n k (mkUploader files ts o) =
  option_map (fun v => mkUploader (uploadedFiles v) (tasks v) (o ++ outbox v)) (fire_n n k (mkUploader files ts [])).
Proof.
  revert files ts o. induction n as [|n IH]; intros files ts o; [simpl; by rewrite app_nil_r|].
  cbn [fire_n]. rewrite fire_out. destruct (fire k (mkUploader files ts [])) as [[f1 t1 o1]|]; [|done].
  simpl. rewrite (IH f1 t1 (o ++ o1)), (IH f1 t1 o1).
  destruct (fire_n n k (mkUploader f1 t1 [])); simpl; [by rewrite app_assoc|reflexivity].
Qed.

Lemma exec_all_app p1 p2 files : exec_all (p1 ++ p2) files = exec_all p2 (exec_all p1 files).
Proof. apply List.fold_left_app. Qed.

Lemma notifs_app p1 p2 : notifs (p1 ++ p2) = notifs p1 ++ notifs p2.
Proof. apply List.flat_map_app. Qed.

Lemma sleeps_app p1 p2 : sleeps (p1 ++ p2) = (sleeps p1 + sleeps p2)%nat.
Proof. induction p1 as [|[] r IH]; simpl; by rewrite ?IH. Qed.

#[export] Hint Rewrite exec_all_app notifs_app sleeps_app : sm_rw.

(** ** One file on its own *)

(** The effect of a write on the one file it targets. *)
Definition apply_instr (i : Instr) (g : UploadedFile) : UploadedFile :=
  match i with
  | ISetProgress _ p => set_progress p g
  | ISetStatus _ s p => set_status s p g
  | _ => g
  end.

Definition apply_all (prog : list Instr) (g : UploadedFile) : UploadedFile :=
  List.fold_left (fun g i => apply_instr i g) prog g.

(** Instructions that touch file [fid] only. *)
Definition targets (fid : string) (i : Instr) : Prop :=
  match i with
  | ISetProgress fid' _ | ISetStatus fid' _ _ => fid' = fid
  | ISleep _ => True
  | _ => False
  end.

Lemma has_id_false fid (files : list UploadedFile) :
  fid ∉ List.map id files -> Forall (fun x => has_id fid x = false) files.
Proof.
  induction files as [|x xs IH]; simpl; intros Hn; constructor.
  - unfold has_id. js_eq_case; [|done]. set_solver.
  - apply IH. set_solver.
Qed.

(** Writes aimed at [fid] leave the other files alone. *)
Lemma exec_all_single fid prog files g :
  fid ∉ List.map id files -> id g = fid -> Forall (targets fid) prog ->
  exec_all prog (files ++ [g]) = files ++ [apply_all prog g].
Proof.
  intros Hn Hg Hp. revert g Hg. induction Hp as [|i r Hi Hr IH]; intros g Hg; [done|].
  simpl. rewrite <- IH; [f_equal|by destruct i].
  destruct i; simpl in Hi; try done; subst; cbn [exec_instr];
    rewrite map_where_app, map_where_none by (by apply has_id_false);
    simpl; unfold has_id; by rewrite (proj2 (String.eqb_eq _ _) eq_refl).
Qed.

Lemma processFile_targets fid f : Forall (targets fid) (List.tl (processFile fid f)).
Proof. vm_compute. by repeat constructor. Qed.

(** ** Writes and their last occurrence *)

(** Whether an instruction is a [setUploadedFiles] update of the files
    with id [x] ([f.id === fileId], lines 51, 57, 64, 70). *)
Definition writes (x : string) (i : Instr) : bool :=
  match i with
  | ISetProgress y _ | ISetStatus y _ _ => (y === x)%js
  | _ => false
  end.

(** The last write to [x] in a task. *)
Fixpoint last_write (x : string) (t : list Instr) : option Instr :=
  match t with
  | [] => None
  | i :: r => match last_write x r with
              | Some j => Some j
              | None => if writes x i then Some i else None
              end
  end.

(** Every file a task appends is written later by the same task. *)
Fixpoint appends_covered (t : list Instr) : Prop :=
  match t with
  | [] => True
  | IAppend g :: r => existsb (writes (id g)) r = true /\ appends_covered r
  | _ :: r => appends_covered r
  end.

(** A task whose last write to every id completes that file. *)
Definition task_done (t : list Instr) : Prop :=
  (forall x i, last_write x t = Some i -> i = ISetStatus x completed 100) /\ appends_covered t.

(** ** Tasks that end their writes with the completing one *)

Lemma last_write_app x t1 t2 :
  last_write x (t1 ++ t2) = match last_write x t2 with Some j => Some j | None => last_write x t1 end.
Proof.
  induction t1 as [|i r IH]; simpl; [by destruct (last_write x t2)|].
  rewrite IH. by destruct (last_write x t2).
Qed.

Lemma last_write_none x t : last_write x t = None <-> existsb (writes x) t = false.
Proof.
  induction t as [|i r IH]; simpl; [done|].
  destruct (last_write x r); [split; [done|]|]; destruct (writes x i); simpl; intuition congruence.
Qed.

Lemma appends_covered_app t1 t2 :
  appends_covered t1 -> appends_covered t2 -> appends_covered (t1 ++ t2).
Proof.
  induction t1 as [|[] r IH]; simpl; try tauto.
  intros [Hw Hr] H2. rewrite existsb_app, Hw. auto.
Qed.

Lemma task_done_app t1 t2 : task_done t1 -> task_done t2 -> task_done (t1 ++ t2).
Proof.
  intros [H1 C1] [H2 C2]. split; [|by apply appends_covered_app].
  intros x i. rewrite last_write_app. destruct (last_write x t2) eqn:E; [intros [= <-]; eauto|eauto].
Qed.

(** Instructions aimed at one file append nothing and write only it. *)
Lemma targets_last_write fid x t : Forall (targets fid) t -> x <> fid -> last_write x t = None.
Proof.
  intros Ht Hx. apply last_write_none. induction Ht as [|i r Hi _ IH]; [done|].
  simpl. rewrite IH, orb_false_r. destruct i; simpl in Hi |- *; subst; try done; js_eq_case; congruence.
Qed.

Lemma targets_covered fid t : Forall (targets fid) t -> appends_covered t.
Proof. induction 1 as [|i r Hi _ IH]; [done|]. by destruct i. Qed.

Lemma processFile_done fid f : task_done (processFile fid f).
Proof.
  pose proof (processFile_targets fid f) as Ht.
  assert (Hsplit : exists mid, processFile fid f = IAppend (newFile fid f) :: mid ++ [ISetStatus fid completed 100])
    by (eexists (progress_loop loop_fuel 0 10 100 fid ++ [ISetStatus fid processing 0] ++
                 progress_loop loop_fuel 0 20 300 fid);
        unfold processFile; cbn [app]; by rewrite <- !app_assoc).
  destruct Hsplit as [mid Hp]. rewrite Hp in Ht |- *. simpl in Ht.
  apply Forall_app in Ht as [Hmid _]. split.
  - intros x i. cbn [last_write]. rewrite last_write_app. simpl.
    destruct (String.eqb_spec fid x) as [<-|Hne]; [by intros [= <-]|].
    rewrite (targets_last_write fid) by congruence. done.
  - simpl. split; [rewrite existsb_app; simpl; rewrite (proj2 (String.eqb_eq _ _) eq_refl); apply orb_true_r|].
    apply appends_covered_app; [by apply (targets_covered fid)|]. simpl. done.
Qed.

Lemma onDrop_done files batch : task_done (onDrop files batch).
Proof.
  unfold onDrop. apply task_done_app.
  - induction batch as [|[fid f] batch IH]; [split; done|]. cbn [List.flat_map].
    apply task_done_app; [apply processFile_done|done].
  - split; [|done]. intros x i. simpl. discriminate.
Qed.

Lemma drop_one_file_run u fid f :
  tasks u = [] -> isPdfAccepted f = true -> fid ∉ List.map id (uploadedFiles u) ->
  fire_n 17 0 (drop_files [(fid, f)] u) =
  Some (mkUploader (uploadedFiles u ++ [set_status completed 100 (newFile fid f)]) []
                   (outbox u ++ [completedFiles (uploadedFiles u)])).
Proof.
  intros Ht Hacc Hn. unfold drop_files.
  assert (Hf : List.filter (fun '(_, f) => isPdfAccepted f) [(fid, f)] = [(fid, f)])
    by (simpl; by rewrite Hacc).
  rewrite Hf. change 17%nat with (sleeps (onDrop (uploadedFiles u) [(fid, f)])).
  rewrite run_alone by done. unfold onDrop. cbn [List.flat_map]. rewrite app_nil_r.
  autorewrite with sm_rw.
  change (processFile fid f) with (IAppend (newFile fid f) :: List.tl (processFile fid f)).
  unfold exec_all at 2. cbn [List.fold_left exec_instr].
  rewrite (exec_all_single fid) by (done || apply processFile_targets).
  reflexivity.
Qed.

(** C1: a PDF dropped on an idle uploader is appended, and after its 17
    timers (11 upload steps, 6 processing steps) it is [completed] at
    progress 100 and the task has ended.  The one notification sent to the
    parent is the list of completed files captured at drop time: it never
    contains the file just processed. *)
Theorem drop_one_file u fid f :
  tasks u = [] -> isPdfAccepted f = true -> fid ∉ List.map id (uploadedFiles u) ->
  fire_n 17 0 (drop_files [(fid, f)] u) =
  Some (mkUploader (uploadedFiles u ++ [set_status completed 100 (newFile fid f)]) []
                   (outbox u ++ [completedFiles (uploadedFiles u)])).
Proof. exact (drop_one_file_run u fid f). Qed.

(** ** The phases a file goes through *)

Definition phase (g : UploadedFile) : FileStatus * Z := (status g, progress g).

(** ** Witnesses *)

Definition notes_pdf : JsFile := mkJsFile "notes.pdf" 1536 "application/pdf".

Lemma drop_one_file_witness :
  tasks uploader_init = [] /\ isPdfAccepted notes_pdf = true /\
  ("f1"%string ∉ List.map id (uploadedFiles uploader_init)) /\
  fire_n 17 0 (drop_files [("f1"%string, notes_pdf)] uploader_init) =
  Some (mkUploader [set_status completed 100 (newFile "f1" notes_pdf)] [] [[]]).
Proof.
  split; [reflexivity|split; [reflexivity|split; [apply not_elem_of_nil|]]].
  apply (drop_one_file uploader_init "f1" notes_pdf); [reflexivity|reflexivity|apply not_elem_of_nil].
Defined.

Lemma progress_loop_spec_witness :
  (0 <= 0 /\ 0 < 10) /\
  progress_loop loop_fuel 0 10 100 "f1" = List.flat_map (loop_body 100 "f1") (loop_values 0 10).
Proof. split; [lia|]. apply progress_loop_spec; lia. Defined.

(** ** Invariant: progress in [0, 100], never an [error] status *)

Definition file_ok (g : UploadedFile) : Prop := status g <> error /\ 0 <= progress g <= 100.

(** Every value an instruction writes is well formed. *)
Definition instr_ok (i : Instr) : Prop :=
  match i with
  | IAppend g => file_ok g
  | ISetProgress _ p => 0 <= p <= 100
  | ISetStatus _ s p => s <> error /\ 0 <= p <= 100
  | ISleep _ | INotify _ => True
  end.

Definition uploader_ok (u : Uploader) : Prop :=
  Forall file_ok (uploadedFiles u) /\ Forall (Forall instr_ok) (tasks u).

Lemma exec_instr_ok i files :
  instr_ok i -> Forall file_ok files -> Forall file_ok (exec_instr i files).
Proof.
  destruct i; simpl; intros Hi Hf; try done.
  - apply Forall_app. split; [done|]. by constructor.
  - apply map_where_Forall; [|done]. intros x _ [Hs _]. by split.
  - apply map_where_Forall; [|done]. intros x _ _. destruct Hi. by split.
Qed.

Lemma progress_loop_ok fuel p step delay fid :
  0 <= p -> 0 <= step -> Forall instr_ok (progress_loop fuel p step delay fid).
Proof.
  revert p. induction fuel as [|fuel IH]; intros p Hp Hs; simpl; [done|].
  destruct (Z.leb_spec p 100); [|done].
  repeat constructor; [lia|lia|]. apply IH; lia.
Qed.

Lemma processFile_ok fid f : Forall instr_ok (processFile fid f).
Proof.
  unfold processFile. repeat (apply Forall_app; split);
    try (apply progress_loop_ok; lia); repeat constructor; simpl; try lia; discriminate.
Qed.

Lemma onDrop_ok files batch : Forall instr_ok (onDrop files batch).
Proof.
  unfold onDrop. apply Forall_app. split; [|by repeat constructor].
  apply Forall_forall. intros i Hi. apply list_elem_of_In, in_flat_map in Hi as [[fid f] [_ Hi]].
  apply list_elem_of_In in Hi. by eapply Forall_forall; [apply processFile_ok|].
Qed.

Lemma keep_task_Forall (P : Instr -> Prop) rest :
  Forall P rest -> Forall (Forall P) (keep_task rest).
Proof. destruct rest; simpl; by constructor. Qed.

(** The tasks after task [k] resumed and left [rest']. *)
Lemma Forall_replace_task {A} (P : A -> Prop) (ts : list A) k (mid : list A) :
  Forall P ts -> Forall P mid -> Forall P (take k ts ++ mid ++ drop (S k) ts).
Proof.
  intros Hts Hmid. apply Forall_app. split; [by apply Forall_take|].
  apply Forall_app. split; [done|by apply Forall_drop].
Qed.

(** ** Invariants of the files kept by every step *)

(** A property [P] of the listed files, kept by every instruction that
    satisfies [W], holds in every state whose tasks satisfy [W], as long
    as [onDrop] only produces such instructions. *)
Section TaskInvariant.
Context (P : UploadedFile -> Prop) (W : Instr -> Prop).
Hypothesis exec_W : forall i files, W i -> Forall P files -> Forall P (exec_instr i files).
Hypothesis onDrop_W : forall files batch, Forall W (onDrop files batch).

Definition task_inv (u : Uploader) : Prop := Forall P (uploadedFiles u) /\ Forall (Forall W) (tasks u).

Lemma run_segment_inv prog files out :
  Forall W prog -> Forall P files ->
  let '(files', _, rest) := run_segment prog files out in
  Forall P files' /\ Forall W rest.
Proof.
  revert files out. induction prog as [|i r IH]; intros files out Hp Hf; [done|].
  inversion Hp as [|? ? Hi Hr]; subst.
  destruct i; cbn [run_segment]; try (apply IH; [done|by apply exec_W]). by split.
Qed.

Lemma ustep_inv u u' : ustep u u' -> task_inv u -> task_inv u'.
Proof.
  intros Hs [Hf Ht]. destruct Hs as [u dropped _|u fid|u k u' Hfire].
  - unfold drop_files, spawn.
    pose proof (run_segment_inv (onDrop (uploadedFiles u) (List.filter (fun '(_, f) => isPdfAccepted f) dropped))
                  (uploadedFiles u) (outbox u) (onDrop_W _ _) Hf) as Hr.
    destruct (run_segment _ _ _) as [[f' o'] rest]. destruct Hr as [Hf' Hrest].
    split; [done|]. apply Forall_app. split; [done|]. by apply keep_task_Forall.
  - split; [|done]. by apply Forall_list_filter.
  - unfold fire in Hfire. destruct (tasks u !! k) as [[|[] rest]|] eqn:Hk; try done.
    pose proof (Forall_lookup_1 _ _ _ _ Ht Hk) as Hrest. inversion Hrest as [|? ? _ Hrest']; subst.
    pose proof (run_segment_inv rest (uploadedFiles u) (outbox u) Hrest' Hf) as Hr.
    destruct (run_segment _ _ _) as [[f' o'] rest']. injection Hfire as <-. destruct Hr as [Hf' Hr'].
    split; [done|]. apply Forall_replace_task; [done|]. by apply keep_task_Forall.
Qed.

Lemma ureachable_inv u : ureachable u -> task_inv u.
Proof.
  intros Hr. apply (rtc_invariant ustep task_inv uploader_init u ustep_inv); [|done].
  split; constructor.
Qed.
End TaskInvariant.

Lemma ustep_ok u u' : ustep u u' -> uploader_ok u -> uploader_ok u'.
Proof. exact (ustep_inv file_ok instr_ok exec_instr_ok onDrop_ok u u'). Qed.

(** C2: in every state reachable by any interleaving of drops, removals
    and timer firings, every listed file has a progress between 0 and 100
    and a status other than [error]; the [error] status is never reached. *)
Theorem uploader_files_ok u : ureachable u -> Forall file_ok (uploadedFiles u).
Proof.
  intros Hr. apply (rtc_invariant ustep uploader_ok uploader_init u ustep_ok); [|done].
  split; constructor.
Qed.

(** ** Invariant: file ids are unique *)

(** The ids of the listed files and of the files tasks will still append. *)
Definition all_ids (u : Uploader) : list string :=
  List.map id (uploadedFiles u) ++ pending_ids (tasks u).

Lemma appended_ids_cons i r : appended_ids (i :: r) = appended_ids [i] ++ appended_ids r.
Proof. unfold appended_ids. simpl. by rewrite app_nil_r. Qed.

Lemma exec_instr_ids i files :
  List.map id (exec_instr i files) = List.map id files ++ appended_ids [i].
Proof.
  destruct i; simpl; rewrite ?app_nil_r; try done.
  - by rewrite List.map_app.
  - by apply map_where_keys.
  - by apply map_where_keys.
Qed.

Lemma run_segment_ids prog files out :
  let '(files', _, rest) := run_segment prog files out in
  List.map id files' ++ appended_ids rest ≡ₚ List.map id files ++ appended_ids prog.
Proof.
  revert files out. induction prog as [|i r IH]; intros files out; [simpl; by rewrite app_nil_r|].
  destruct i; cbn [run_segment]; try done;
    match goal with |- context [run_segment r (exec_instr ?i files) ?o] =>
      specialize (IH (exec_instr i files) o) end;
    destruct (run_segment r _ _) as [[f' o'] rest];
    rewrite IH, exec_instr_ids, (appended_ids_cons _ r); by rewrite app_assoc.
Qed.

Lemma pending_ids_app ts1 ts2 : pending_ids (ts1 ++ ts2) = pending_ids ts1 ++ pending_ids ts2.
Proof. apply List.flat_map_app. Qed.

Lemma pending_ids_cons t ts : pending_ids (t :: ts) = appended_ids t ++ pending_ids ts.
Proof. reflexivity. Qed.

Lemma pending_ids_keep rest : pending_ids (keep_task rest) = appended_ids rest.
Proof. destruct rest; simpl; [done|]. by rewrite app_nil_r. Qed.

(** Replacing task [k] by [mid] changes the pending ids accordingly. *)
Lemma pending_ids_replace ts k t mid :
  ts !! k = Some t ->
  pending_ids (take k ts ++ mid ++ drop (S k) ts) ++ appended_ids t ≡ₚ pending_ids ts ++ pending_ids mid.
Proof.
  intros Hk. rewrite <- (take_drop_middle ts k t Hk) at 3.
  rewrite !pending_ids_app, pending_ids_cons. solve_Permutation.
Qed.

Lemma appended_ids_processFile fid f : appended_ids (processFile fid f) = [fid].
Proof. reflexivity. Qed.

Lemma appended_ids_app p1 p2 : appended_ids (p1 ++ p2) = appended_ids p1 ++ appended_ids p2.
Proof. apply List.flat_map_app. Qed.

Lemma appended_ids_onDrop files batch : appended_ids (onDrop files batch) = List.map fst batch.
Proof.
  unfold onDrop. rewrite appended_ids_app, app_nil_r.
  induction batch as [|[fid f] b IH]; [done|].
  change (List.flat_map _ ((fid, f) :: b)) with (processFile fid f ++ List.flat_map (fun '(fid, f) => processFile fid f) b).
  by rewrite appended_ids_app, IH.
Qed.

(** A timer firing moves ids from the pending writes to the list. *)
Lemma fire_all_ids k u u' : fire k u = Some u' -> all_ids u' ≡ₚ all_ids u.
Proof.
  intros Hfire. unfold fire in Hfire. destruct (tasks u !! k) as [[|[] rest]|] eqn:Hk; try done.
  pose proof (run_segment_ids rest (uploadedFiles u) (outbox u)) as Hp.
  destruct (run_segment _ _ _) as [[f' o'] rest']. injection Hfire as <-.
  unfold all_ids. simpl.
  pose proof (pending_ids_replace (tasks u) k _ (keep_task rest') Hk) as Hr.
  rewrite pending_ids_keep in Hr. simpl in Hr.
  apply (Permutation_app_inv_r (appended_ids rest)).
  rewrite <- app_assoc, Hr.
  transitivity (pending_ids (tasks u) ++ (List.map id f' ++ appended_ids rest')); [solve_Permutation|].
  rewrite Hp. solve_Permutation.
Qed.

Lemma ustep_ids u u' : ustep u u' -> NoDup (all_ids u) -> NoDup (all_ids u').
Proof.
  intros Hs Hn. destruct Hs as [u dropped [Hnd Hfresh]|u fid|u k u' Hfire].
  - unfold drop_files, spawn. set (batch := List.filter _ dropped).
    pose proof (run_segment_ids (onDrop (uploadedFiles u) batch) (uploadedFiles u) (outbox u)) as Hp.
    destruct (run_segment _ _ _) as [[f' o'] rest]. unfold all_ids in *. simpl.
    rewrite appended_ids_onDrop in Hp. rewrite pending_ids_app, pending_ids_keep.
    assert (Hsub : List.map fst batch `sublist_of` List.map fst dropped) by apply map_filter_sublist.
    rewrite (Permutation_app_comm (pending_ids _)), app_assoc, Hp.
    rewrite <- app_assoc, (Permutation_app_comm (List.map fst batch)), app_assoc.
    apply NoDup_app. split; [done|split; [|exact (sublist_NoDup _ _ Hnd Hsub)]].
    intros x Hx Hb. apply sublist_submseteq, (elem_of_submseteq _ _ x Hb) in Hsub.
    rewrite Forall_forall in Hfresh. destruct (Hfresh x Hsub) as (H1 & H2 & _).
    apply elem_of_app in Hx as [Hx|Hx]; contradiction.
  - unfold all_ids in *. simpl. eapply sublist_NoDup; [exact Hn|].
    apply sublist_app; [apply map_filter_sublist|done].
  - by rewrite (fire_all_ids _ _ _ Hfire).
Qed.

(** C3: file ids stay unique in every reachable state, provided each drop
    draws fresh ids ([Date.now() + Math.random()]), so every
    [f.id === fileId] update touches one file only. *)
Theorem uploader_ids_unique u : ureachable u -> NoDup (List.map id (uploadedFiles u)).
Proof.
  intros Hr.
  assert (H : NoDup (all_ids u))
    by (apply (rtc_invariant ustep (fun v => NoDup (all_ids v)) uploader_init u ustep_ids); [constructor|done]).
  unfold all_ids in H. by apply NoDup_app in H as [? _].
Qed.

(** Running a segment only appends to the list of ids. *)
Lemma run_segment_prefix prog files out :
  let '(files', _, _) := run_segment prog files out in
  exists l, List.map id files' = List.map id files ++ l.
Proof.
  revert files out. induction prog as [|i r IH]; intros files out; [simpl; exists []; by rewrite app_nil_r|].
  destruct i; cbn [run_segment]; try (exists []; by rewrite app_nil_r);
    match goal with |- context [run_segment r (exec_instr ?i files) ?o] =>
      specialize (IH (exec_instr i files) o) end;
    destruct (run_segment r _ _) as [[f' o'] rest]; destruct IH as [l Hl];
    rewrite Hl, exec_instr_ids, <- app_assoc; eauto.
Qed.

(** A timer firing keeps every listed file, in its place, and can only
    append. *)
Lemma fire_ids_prefix k u u' :
  fire k u = Some u' -> exists l, List.map id (uploadedFiles u') = List.map id (uploadedFiles u) ++ l.
Proof.
  intros Hfire. unfold fire in Hfire. destruct (tasks u !! k) as [[|[] rest]|]; try done.
  pose proof (run_segment_prefix rest (uploadedFiles u) (outbox u)) as Hp.
  destruct (run_segment _ _ _) as [[f' o'] rest']. by injection Hfire as <-.
Qed.

Definition timer_step (u u' : Uploader) : Prop := exists k, fire k u = Some u'.

(** C20: files leave the list only through [removeFile]: along any
    sequence of timer firings every listed file stays, in its place, and
    the list can only grow at its end. *)
Theorem fire_keeps_files u u' :
  rtc timer_step u u' -> exists l, List.map id (uploadedFiles u') = List.map id (uploadedFiles u) ++ l.
Proof.
  induction 1 as [u|u v w [k Hk] _ IH]; [exists []; by rewrite app_nil_r|].
  destruct (fire_ids_prefix _ _ _ Hk) as [l1 H1]. destruct IH as [l2 H2].
  exists (l1 ++ l2). by rewrite H2, H1, app_assoc.
Qed.

(** C19: a file removed while its task is still running never comes back:
    the task's later writes find no file with its id and change nothing. *)
Theorem removed_file_stays_removed u fid u' :
  ureachable u -> fid ∈ List.map id (uploadedFiles u) ->
  rtc timer_step (remove fid u) u' -> fid ∉ List.map id (uploadedFiles u').
Proof.
  intros Hr Hin Hsteps.
  assert (Hn : NoDup (all_ids u))
    by (apply (rtc_invariant ustep (fun v => NoDup (all_ids v)) uploader_init u ustep_ids); [constructor|done]).
  enough (Hall : fid ∉ all_ids u') by (unfold all_ids in Hall; set_solver).
  apply (rtc_invariant timer_step (fun v => fid ∉ all_ids v) (remove fid u) u'); [|clear Hsteps|done].
  - intros a b [k Hk] Ha. by rewrite (fire_all_ids _ _ _ Hk).
  - unfold all_ids in *. simpl. apply NoDup_app in Hn as (_ & Hdisj & _).
    specialize (Hdisj fid Hin). intros [Hx|Hx]%elem_of_app; [|done].
    apply list_elem_of_In, in_map_iff in Hx as (g & Hid & Hg).
    apply List.filter_In in Hg as [_ Hg]. rewrite Hid in Hg.
    rewrite (proj2 (String.eqb_eq _ _) eq_refl) in Hg. discriminate.
Qed.

(** ** Witnesses of the invariants *)

(** One PDF dropped on the initial uploader. *)
Definition upload_demo : Uploader := drop_files [("f1"%string, notes_pdf)] uploader_init.

Lemma upload_demo_reachable : ureachable upload_demo.
Proof.
  apply rtc_once, ustep_drop. split; [apply NoDup_singleton|].
  repeat constructor; apply not_elem_of_nil.
Qed.

Lemma uploader_files_ok_witness :
  ureachable upload_demo /\ Forall file_ok (uploadedFiles upload_demo).
Proof. split; [apply upload_demo_reachable|]. apply uploader_files_ok, upload_demo_reachable. Defined.

Lemma uploader_ids_unique_witness :
  ureachable upload_demo /\ NoDup (List.map id (uploadedFiles upload_demo)).
Proof. split; [apply upload_demo_reachable|]. apply uploader_ids_unique, upload_demo_reachable. Defined.

Lemma fire_keeps_files_witness :
  exists u', rtc timer_step upload_demo u' /\
             exists l, List.map id (uploadedFiles u') = List.map id (uploadedFiles upload_demo) ++ l.
Proof.
  assert (H : rtc timer_step upload_demo (match fire 0 upload_demo with Some v => v | None => upload_demo end))
    by (apply rtc_once; exists 0%nat; reflexivity).
  eexists. split; [exact H|]. exact (fire_keeps_files _ _ H).
Defined.

Lemma removed_file_stays_removed_witness :
  exists u', (ureachable upload_demo /\ "f1"%string ∈ List.map id (uploadedFiles upload_demo) /\
              rtc timer_step (remove "f1" upload_demo) u') /\
             "f1"%string ∉ List.map id (uploadedFiles u').
Proof.
  eexists. split; [split; [apply upload_demo_reachable|split; [by left|]]|].
  - apply rtc_once. exists 0%nat. reflexivity.
  - apply (removed_file_stays_removed upload_demo "f1").
    + apply upload_demo_reachable.
    + by left.
    + apply rtc_once. exists 0%nat. reflexivity.
Defined.
