(* ===== verification/Chat.v ===== *)
(** * Chat: the chat interface (components/StudyMate/ChatInterface.tsx)

    The component state is [messages], [inputValue] and [isLoading]
    (lines 22-31).  The one async function, [simulateAIResponse], runs
    synchronously up to its [await] (lines 49-60) and resumes when its
    2000 ms timer fires (lines 66-84).  [ChatState] adds [pending], the
    number of such suspended continuations.  A send is the synchronous
    part of [handleSendMessage] (lines 87-101) followed by the synchronous
    part of [simulateAIResponse].  A reply is the continuation, with
    [Date.now()] and [Math.random()] as inputs.  [Date.now()] is a
    millisecond count [N]; [Date.now().toString()] is its decimal string.

    The events a user can cause are those the markup enables: the input
    and its key presses only while [!isLoading] (line 224), the send
    button only while [inputValue.trim() && !isLoading] (line 228), and
    the suggested questions only while [messages.length <= 1] (line 193).

    Theorems: the send guard, the exact effect of a send and of a reply,
    the reply being one of the five canned strings, and the placeholder
    invariant over every reachable state: at most one placeholder, present
    exactly while a reply is pending, always last.  The log of real
    messages only grows. *)

From S2P Require Import Prelude JsString JsRandom.
From stdpp Require Import pretty.
From Stdlib Require Import String.

(** ** Data (lines 9-15) *)

Inductive Sender := user | ai.

#[export] Instance Sender_eq_dec : EqDecision Sender.
Proof. solve_decision. Defined.

Record Message := mkMessage {
  msg_id : string;
  content : string;
  sender : Sender;
  timestamp : N;          (** [new Date()], in milliseconds *)
  isTyping : bool         (** [isTyping?: boolean]; absent is [false] *)
}.

Record ChatState := mkChat {
  messages : list Message;
  inputValue : string;
  isLoading : bool;
  pending : nat           (** suspended [simulateAIResponse] continuations *)
}.

Definition greeting : string :=
  "Hello! I'm StudyMate AI. I've analyzed your uploaded documents and I'm ready to help you learn. Ask me anything about your study materials!".

(** The state at mount (lines 22-31), [now] being [new Date()]. *)
Definition chat_init (now : N) : ChatState :=
  mkChat [mkMessage "1" greeting ai now false] "" false 0.

(** Lines 34-40. *)
Definition suggestedQuestions : list string :=
  ["Summarize the main concepts from this document";
   "What are the key formulas I should remember?";
   "Explain this topic in simple terms";
   "Create a study plan from this material";
   "What are the most important points to review?"].

(** Lines 68-74. *)
Definition responses : list string :=
  ["Based on your uploaded documents, I can see that this topic involves several key concepts. Let me break them down for you in a clear, structured way...";
   "Great question! From the materials you've provided, I found relevant information that directly addresses this. Here's what I discovered...";
   "I've analyzed the content in your PDFs and found some interesting insights about this topic. The main points include...";
   "Excellent question! This is a fundamental concept covered in your study materials. Let me explain it step by step...";
   "I can help you understand this better by connecting it to the examples and explanations in your uploaded documents..."].

(** ** [simulateAIResponse] (lines 48-85) *)

(** Up to the [await]: [setIsLoading(true)], then the typing message. *)
Definition simulateAIResponse_start (now : N) (st : ChatState) : ChatState :=
  let typingMessage := mkMessage (pretty now) "" ai now true in
  mkChat (messages st ++ [typingMessage]) (inputValue st) true (S (pending st)).

(** [responses[Math.floor(Math.random() * responses.length)]] for
    [Math.random() = k / 2^53]. *)
Definition pick_response (k : Z) : string :=
  List.nth (Z.to_nat (random_index k (Z.of_nat (List.length responses)))) responses "".

(** After the 2000 ms timer: every placeholder is filtered out, the reply
    appended, and [setIsLoading(false)]. *)
Definition simulateAIResponse_finish (now : N) (k : Z) (st : ChatState) : ChatState :=
  let aiResponse := mkMessage (pretty now) (pick_response k) ai now false in
  mkChat (List.filter (fun m => negb (isTyping m)) (messages st) ++ [aiResponse])
         (inputValue st) false (pred (pending st)).

(** ** Handlers (lines 87-112) *)

(** [handleSendMessage] with the synchronous part of the
    [simulateAIResponse] call it awaits.  [t_user] and [t_typing] are the
    [Date.now()] of the user message and of the placeholder. *)
Definition handleSendMessage (t_user t_typing : N) (st : ChatState) : ChatState :=
  if (is_blank (inputValue st) || isLoading st)%bool then st
  else
    let userMessage := mkMessage (pretty t_user) (inputValue st) user t_user false in
    simulateAIResponse_start t_typing
      (mkChat (messages st ++ [userMessage]) "" (isLoading st) (pending st)).

Definition handleKeyPress (key : string) (shiftKey : bool) (t_user t_typing : N) (st : ChatState) : ChatState :=
  if (String.eqb key "Enter" && negb shiftKey)%bool then handleSendMessage t_user t_typing st else st.

Definition handleSuggestedQuestion (question : string) (st : ChatState) : ChatState :=
  mkChat (messages st) question (isLoading st) (pending st).

(** [onChange={(e) => setInputValue(e.target.value)}] (line 220). *)
Definition setInputValue (v : string) (st : ChatState) : ChatState :=
  mkChat (messages st) v (isLoading st) (pending st).

(** ** What the markup enables (lines 125-128, 193-213, 218-236) *)

Definition input_disabled (st : ChatState) : bool := isLoading st.

Definition send_disabled (st : ChatState) : bool := (is_blank (inputValue st) || isLoading st)%bool.

Definition shows_suggestions (st : ChatState) : bool := Nat.leb (List.length (messages st)) 1.

(** The header subtitle for [uploadedFiles.length] documents. *)
Definition header_subtitle (n : nat) : string :=
  if Nat.ltb 0 n
  then "Analyzing " +:+ pretty (N.of_nat n) +:+ " document" +:+ (if Nat.ltb 1 n then "s" else "")
  else "Ready to help you learn".

(** ** The chat as a step relation *)

Inductive ChatEvent :=
| ChType (v : string)                                       (** typing in the input *)
| ChKey (key : string) (shiftKey : bool) (t_user t_typing : N)  (** a key press in the input *)
| ChSendClick (t_user t_typing : N)                         (** the send button *)
| ChSuggest (question : string)                             (** a suggested question *)
| ChReply (now : N) (k : Z).                                (** the 2000 ms timer fires *)

(** [None]: the event cannot happen in this state (a disabled control, a
    hidden button, no pending timer). *)
Definition chat_handle (e : ChatEvent) (st : ChatState) : option ChatState :=
  match e with
  | ChType v => if input_disabled st then None else Some (setInputValue v st)
  | ChKey key shift t1 t2 =>
      if input_disabled st then None else Some (handleKeyPress key shift t1 t2 st)
  | ChSendClick t1 t2 => if send_disabled st then None else Some (handleSendMessage t1 t2 st)
  | ChSuggest q =>
      if (shows_suggestions st && bool_decide (q ∈ take 3 suggestedQuestions))%bool
      then Some (handleSuggestedQuestion q st) else None
  | ChReply now k =>
      if (Nat.eqb (pending st) 0 || negb (bool_decide (0 <= k < 2 ^ prec)%Z))%bool then None
      else Some (simulateAIResponse_finish now k st)
  end.

Definition chat_step (st st' : ChatState) : Prop := exists e, chat_handle e st = Some st'.

Definition chat_reachable (now : N) (st : ChatState) : Prop := rtc chat_step (chat_init now) st.

(** ** Sending *)

Lemma handleSendMessage_blocked t_user t_typing st :
  is_blank (inputValue st) = true \/ isLoading st = true ->
  handleSendMessage t_user t_typing st = st.
Proof.
  unfold handleSendMessage. intros [H|H]; rewrite H; [done|]. by rewrite orb_true_r.
Qed.

(** C7: the send guard.  With a blank input, or while a reply is
    pending, [handleSendMessage] changes nothing: no message is appended
    and no second placeholder is created. *)
Theorem handleSendMessage_guard t_user t_typing st :
  is_blank (inputValue st) = true \/ isLoading st = true ->
  handleSendMessage t_user t_typing st = st.
Proof. apply handleSendMessage_blocked. Qed.

Lemma handleSendMessage_sends t_user t_typing st :
  is_blank (inputValue st) = false -> isLoading st = false ->
  handleSendMessage t_user t_typing st =
  mkChat (messages st ++ [mkMessage (pretty t_user) (inputValue st) user t_user false;
                          mkMessage (pretty t_typing) "" ai t_typing true])
         "" true (S (pending st)).
Proof.
  intros Hb Hl. unfold handleSendMessage, simulateAIResponse_start.
  rewrite Hb, Hl. simpl. by rewrite <- app_assoc.
Qed.

(** C22: a send from an idle chat with a non-blank input appends the user
    message, carrying the input as typed (untrimmed), then the typing
    placeholder; it clears the input and marks a reply as pending. *)
Theorem handleSendMessage_effect t_user t_typing st :
  is_blank (inputValue st) = false -> isLoading st = false ->
  handleSendMessage t_user t_typing st =
  mkChat (messages st ++ [mkMessage (pretty t_user) (inputValue st) user t_user false;
                          mkMessage (pretty t_typing) "" ai t_typing true])
         "" true (S (pending st)).
Proof. apply handleSendMessage_sends. Qed.

(** C17: pressing Enter in the input is the send button.  An Enter press
    without Shift is accepted exactly when the send button could be
    clicked, with the same resulting state, or when the input is enabled
    but blank, in which case nothing changes.  Any other key press in the
    enabled input changes nothing. *)
Theorem enter_equiv_send t1 t2 st st' :
  (chat_handle (ChKey "Enter" false t1 t2) st = Some st' <->
   chat_handle (ChSendClick t1 t2) st = Some st' \/
   (send_disabled st = true /\ isLoading st = false /\ st' = st)) /\
  (forall key shift, (String.eqb key "Enter" && negb shift)%bool = false ->
   chat_handle (ChKey key shift t1 t2) st = None \/ chat_handle (ChKey key shift t1 t2) st = Some st).
Proof.
  unfold chat_handle, input_disabled, send_disabled, handleKeyPress. simpl.
  split; [|intros key shift ->; destruct (isLoading st); auto].
  destruct (isLoading st) eqn:Hl; [rewrite orb_true_r; split; [done|intros [?|(_ & ? & _)]; done]|].
  rewrite orb_false_r. destruct (is_blank (inputValue st)) eqn:Hb.
  - unfold handleSendMessage. rewrite Hb. simpl. split; [intros [= <-]; by right|].
    intros [?|(_ & _ & ->)]; done.
  - split; [by left|]. intros [?|(? & _)]; done.
Qed.

(** ** Replying *)

Lemma pick_response_in k : (0 <= k < 2 ^ prec)%Z -> In (pick_response k) responses.
Proof.
  intros Hk. unfold pick_response. apply nth_In.
  pose proof (random_index_range k (Z.of_nat (List.length responses)) Hk ltac:(simpl; lia)).
  simpl in *. lia.
Qed.

(** The messages that are not placeholders. *)
Definition real_messages (ms : list Message) : list Message :=
  List.filter (fun m => negb (isTyping m)) ms.

(** C8: when the reply timer fires, every placeholder is removed before
    the reply is appended, and the reply is one of the five canned
    strings whatever [Math.random()] returned. *)
Theorem reply_effect now k st :
  (0 <= k < 2 ^ prec)%Z ->
  exists r, In r responses /\
    messages (simulateAIResponse_finish now k st) =
      real_messages (messages st) ++ [mkMessage (pretty now) r ai now false] /\
    isLoading (simulateAIResponse_finish now k st) = false.
Proof. intros Hk. exists (pick_response k). split; [by apply pick_response_in|done]. Qed.

(** ** The placeholder invariant *)

Definition not_typing (m : Message) : Prop := isTyping m = false.

(** Idle: no placeholder.  Awaiting a reply: one placeholder, last. *)
Definition chat_inv (st : ChatState) : Prop :=
  (isLoading st = false /\ pending st = 0%nat /\ Forall not_typing (messages st)) \/
  (isLoading st = true /\ pending st = 1%nat /\
   exists real m, messages st = real ++ [m] /\ isTyping m = true /\ Forall not_typing real).

Lemma real_messages_all ms : Forall not_typing ms -> real_messages ms = ms.
Proof.
  induction 1 as [|m ms Hm _ IH]; [done|]. unfold real_messages in *. simpl.
  unfold not_typing in Hm. by rewrite Hm, IH.
Qed.

Lemma handleSendMessage_inv t1 t2 st :
  chat_inv st -> isLoading st = false -> chat_inv (handleSendMessage t1 t2 st).
Proof.
  intros [(Hl & Hp & Hf)|(Hl & _)] Hl'; [|congruence].
  destruct (is_blank (inputValue st)) eqn:Hb.
  - rewrite handleSendMessage_blocked by auto. left. done.
  - rewrite handleSendMessage_sends by done. right. simpl. split; [done|split; [by rewrite Hp|]].
    eexists (messages st ++ [_]), _. split; [by rewrite <- app_assoc|split; [done|]].
    apply Forall_app. split; [done|]. by repeat constructor.
Qed.

Lemma chat_step_inv st st' : chat_step st st' -> chat_inv st -> chat_inv st'.
Proof.
  intros [e He] Hi. destruct e as [v|key shift t1 t2|t1 t2|q|now k]; simpl in He.
  - destruct (input_disabled st) eqn:Hd; [done|]. injection He as <-.
    destruct Hi as [(? & ? & ?)|(Hl & _)]; [by left|unfold input_disabled in Hd; congruence].
  - destruct (input_disabled st) eqn:Hd; [done|]. injection He as <-. unfold handleKeyPress.
    destruct (_ && _)%bool; [|done]. by apply handleSendMessage_inv.
  - destruct (send_disabled st) eqn:Hd; [done|]. injection He as <-.
    apply handleSendMessage_inv; [done|]. unfold send_disabled in Hd.
    by apply orb_false_iff in Hd as [_ ->].
  - destruct (_ && _)%bool; [|done]. injection He as <-.
    destruct Hi as [(? & ? & ?)|(? & ? & ?)]; [by left|by right].
  - destruct (_ || _)%bool eqn:Hg; [done|]. injection He as <-.
    apply orb_false_iff in Hg as [Hp _]. apply Nat.eqb_neq in Hp.
    destruct Hi as [(_ & Hp0 & _)|(Hl & Hp1 & real & m & Hms & Hm & Hreal)]; [congruence|].
    left. simpl. split; [done|split; [by rewrite Hp1|]].
    rewrite Hms. unfold real_messages. rewrite List.filter_app. simpl. rewrite Hm. simpl.
    fold (real_messages real). rewrite real_messages_all by done.
    rewrite app_nil_r. apply Forall_app. split; [done|]. constructor; [reflexivity|constructor].
Qed.

Lemma chat_init_inv now : chat_inv (chat_init now).
Proof. left. split; [done|split; [done|]]. by repeat constructor. Qed.

Lemma filter_isTyping_none ms : Forall not_typing ms -> List.filter isTyping ms = [].
Proof. induction 1 as [|x xs Hx _ IH]; [done|]. simpl. unfold not_typing in Hx. by rewrite Hx. Qed.

(** What the invariant says of the rendered messages. *)
Lemma chat_inv_placeholders st :
  chat_inv st ->
  List.length (List.filter isTyping (messages st)) = (if isLoading st then 1 else 0)%nat /\
  pending st = (if isLoading st then 1 else 0)%nat /\
  (forall m, In m (messages st) -> isTyping m = true -> last (messages st) = Some m).
Proof.
  intros [(-> & -> & Hf)|(-> & -> & real & m & -> & Hm & Hreal)].
  - split; [by rewrite filter_isTyping_none|split; [done|]].
    intros m Hin Hm. apply List.Forall_forall with (x := m) in Hf; [|done]. unfold not_typing in Hf. congruence.
  - rewrite List.filter_app, filter_isTyping_none by done. simpl. rewrite Hm.
    split; [done|split; [done|]]. intros m' Hin Hm'. rewrite last_snoc. f_equal.
    apply in_app_or in Hin as [Hin|[<-|[]]]; [|done].
    apply List.Forall_forall with (x := m') in Hreal; [|done]. unfold not_typing in Hreal. congruence.
Qed.

(** C6: in every reachable chat state there is at most one placeholder:
    exactly one while a reply is pending ([isLoading]), none otherwise.
    When present it is the last message, and at most one reply timer is
    pending. *)
Theorem chat_placeholders now st :
  chat_reachable now st ->
  List.length (List.filter isTyping (messages st)) = (if isLoading st then 1 else 0)%nat /\
  pending st = (if isLoading st then 1 else 0)%nat /\
  (forall m, In m (messages st) -> isTyping m = true -> last (messages st) = Some m).
Proof.
  intros Hr. apply chat_inv_placeholders.
  apply (rtc_invariant chat_step chat_inv (chat_init now) st chat_step_inv); [apply chat_init_inv|done].
Qed.

(** ** The conversation only grows *)

Lemma real_messages_app ms1 ms2 : real_messages (ms1 ++ ms2) = real_messages ms1 ++ real_messages ms2.
Proof. apply List.filter_app. Qed.

Lemma real_messages_idem ms : real_messages (real_messages ms) = real_messages ms.
Proof.
  induction ms as [|m ms IH]; [done|]. unfold real_messages in *. simpl.
  destruct (isTyping m) eqn:E; simpl; rewrite ?E; simpl; by rewrite IH.
Qed.

Lemma handleSendMessage_grows t1 t2 st :
  exists l, real_messages (messages (handleSendMessage t1 t2 st)) = real_messages (messages st) ++ l.
Proof.
  destruct (is_blank (inputValue st) || isLoading st)%bool eqn:Hg.
  - exists []. rewrite handleSendMessage_blocked, app_nil_r; [done|]. by apply orb_true_iff.
  - apply orb_false_iff in Hg as [Hb Hl]. rewrite handleSendMessage_sends by done.
    simpl. rewrite real_messages_app. eauto.
Qed.

(** C21: messages other than the placeholder are never removed, changed
    or reordered: every step of the chat only appends to them. *)
Theorem chat_step_grows st st' :
  chat_step st st' -> exists l, real_messages (messages st') = real_messages (messages st) ++ l.
Proof.
  intros [e He]. destruct e as [v|key shift t1 t2|t1 t2|q|now k]; simpl in He.
  - destruct (input_disabled st); [done|]. injection He as <-. exists []. by rewrite app_nil_r.
  - destruct (input_disabled st); [done|]. injection He as <-. unfold handleKeyPress.
    destruct (_ && _)%bool; [apply handleSendMessage_grows|exists []; by rewrite app_nil_r].
  - destruct (send_disabled st); [done|]. injection He as <-. apply handleSendMessage_grows.
  - destruct (_ && _)%bool; [|done]. injection He as <-. exists []. by rewrite app_nil_r.
  - destruct (_ || _)%bool; [done|]. injection He as <-. simpl.
    rewrite real_messages_app. fold (real_messages (messages st)). rewrite real_messages_idem. eauto.
Qed.

(** ** The scenario of the specification *)

Definition userMsg (t : N) (s : string) : Message := mkMessage (pretty t) s user t false.
Definition typingMsg (t : N) : Message := mkMessage (pretty t) "" ai t true.
Definition greetingMsg (t : N) : Message := mkMessage "1" greeting ai t false.

(** C9: typing "Summarize this" and sending it shows the greeting, the user
    message and one placeholder; when the timer fires the placeholder is
    replaced by one of the five canned replies, the user message kept
    before it.  Each step is an event the chat enables. *)
Theorem chat_scenario now t1 t2 t3 k :
  (0 <= k < 2 ^ prec)%Z ->
  let s1 := setInputValue "Summarize this" (chat_init now) in
  let s2 := handleSendMessage t1 t2 s1 in
  let s3 := simulateAIResponse_finish t3 k s2 in
  chat_handle (ChType "Summarize this") (chat_init now) = Some s1 /\
  chat_handle (ChSendClick t1 t2) s1 = Some s2 /\
  chat_handle (ChReply t3 k) s2 = Some s3 /\
  messages s2 = [greetingMsg now; userMsg t1 "Summarize this"; typingMsg t2] /\
  isLoading s2 = true /\
  exists r, In r responses /\
    messages s3 = [greetingMsg now; userMsg t1 "Summarize this"; mkMessage (pretty t3) r ai t3 false] /\
    isLoading s3 = false.
Proof.
  intros Hk. simpl. split_and!; try reflexivity.
  - unfold chat_handle. replace (bool_decide (0 <= k < 2 ^ prec)%Z) with true; [done|].
    symmetry. by apply bool_decide_eq_true.
  - exists (pick_response k). split; [by apply pick_response_in|done].
Qed.

(** C30: [Date.now().toString()] names both the user message and the
    placeholder, so a send handled within one millisecond appends two
    messages with the same id (a duplicate React key). *)
Theorem send_duplicate_ids t st :
  is_blank (inputValue st) = false -> isLoading st = false ->
  exists u p, messages (handleSendMessage t t st) = messages st ++ [u; p] /\
              msg_id u = msg_id p /\ sender u = user /\ isTyping p = true.
Proof.
  intros Hb Hl. rewrite handleSendMessage_sends by done. simpl. eauto 10.
Qed.

Example send_duplicate_ids_sample :
  List.map msg_id (messages (handleSendMessage 1700 1700 (setInputValue "hi" (chat_init 0)))) =
  ["1"; "1700"; "1700"]%string.
Proof. reflexivity. Qed.

(** ** Witnesses *)

Definition chat_typed : ChatState := setInputValue "Summarize this" (chat_init 0).
Definition chat_sent : ChatState := handleSendMessage 100 100 chat_typed.

Lemma chat_sent_reachable : chat_reachable 0 chat_sent.
Proof.
  eapply rtc_l; [exists (ChType "Summarize this"); reflexivity|].
  eapply rtc_l; [exists (ChSendClick 100 100); reflexivity|]. apply rtc_refl.
Qed.

Lemma handleSendMessage_guard_witness :
  (is_blank (inputValue chat_sent) = true \/ isLoading chat_sent = true) /\
  handleSendMessage 200 200 chat_sent = chat_sent.
Proof.
  split; [by right|]. apply handleSendMessage_guard. by right.
Defined.

Lemma handleSendMessage_effect_witness :
  (is_blank (inputValue chat_typed) = false /\ isLoading chat_typed = false) /\
  handleSendMessage 100 100 chat_typed =
  mkChat (messages chat_typed ++ [mkMessage (pretty 100%N) (inputValue chat_typed) user 100 false;
                                  mkMessage (pretty 100%N) "" ai 100 true])
         "" true (S (pending chat_typed)).
Proof. split; [split; reflexivity|]. apply handleSendMessage_effect; reflexivity. Defined.

Lemma reply_effect_witness :
  (0 <= 2 ^ 52 < 2 ^ prec)%Z /\
  exists r, In r responses /\
    messages (simulateAIResponse_finish 2100 (2 ^ 52) chat_sent) =
      real_messages (messages chat_sent) ++ [mkMessage (pretty 2100%N) r ai 2100 false] /\
    isLoading (simulateAIResponse_finish 2100 (2 ^ 52) chat_sent) = false.
Proof. split; [unfold prec; lia|]. apply reply_effect. unfold prec; lia. Defined.

Lemma chat_placeholders_witness :
  chat_reachable 0 chat_sent /\
  List.length (List.filter isTyping (messages chat_sent)) = (if isLoading chat_sent then 1 else 0)%nat /\
  pending chat_sent = (if isLoading chat_sent then 1 else 0)%nat /\
  (forall m, In m (messages chat_sent) -> isTyping m = true -> last (messages chat_sent) = Some m).
Proof. split; [apply chat_sent_reachable|]. apply (chat_placeholders 0), chat_sent_reachable. Defined.

Lemma chat_step_grows_witness :
  chat_step chat_typed chat_sent /\
  exists l, real_messages (messages chat_sent) = real_messages (messages chat_typed) ++ l.
Proof.
  assert (Hs : chat_step chat_typed chat_sent) by (exists (ChSendClick 100 100); reflexivity).
  split; [exact Hs|]. exact (chat_step_grows _ _ Hs).
Defined.

Lemma chat_scenario_witness :
  (0 <= 2 ^ 52 < 2 ^ prec)%Z /\
  let s1 := setInputValue "Summarize this" (chat_init 0) in
  let s2 := handleSendMessage 100 100 s1 in
  let s3 := simulateAIResponse_finish 2100 (2 ^ 52) s2 in
  chat_handle (ChType "Summarize this") (chat_init 0) = Some s1 /\
  chat_handle (ChSendClick 100 100) s1 = Some s2 /\
  chat_handle (ChReply 2100 (2 ^ 52)) s2 = Some s3 /\
  messages s2 = [greetingMsg 0; userMsg 100 "Summarize this"; typingMsg 100] /\
  isLoading s2 = true /\
  exists r, In r responses /\
    messages s3 = [greetingMsg 0; userMsg 100 "Summarize this"; mkMessage (pretty 2100%N) r ai 2100 false] /\
    isLoading s3 = false.
Proof. split; [unfold prec; lia|]. apply chat_scenario. unfold prec; lia. Defined.

Lemma send_duplicate_ids_witness :
  (is_blank (inputValue chat_typed) = false /\ isLoading chat_typed = false) /\
  exists u p, messages (handleSendMessage 1700 1700 chat_typed) = messages chat_typed ++ [u; p] /\
              msg_id u = msg_id p /\ sender u = user /\ isTyping p = true.
Proof. split; [split; reflexivity|]. apply send_duplicate_ids; reflexivity. Defined.

Lemma enter_equiv_send_witness :
  (chat_handle (ChKey "Enter" false 100 100) chat_typed = Some chat_sent <->
   chat_handle (ChSendClick 100 100) chat_typed = Some chat_sent \/
   (send_disabled chat_typed = true /\ isLoading chat_typed = false /\ chat_sent = chat_typed)) /\
  (forall key shift, (String.eqb key "Enter" && negb shift)%bool = false ->
   chat_handle (ChKey key shift 100 100) chat_typed = None \/
   chat_handle (ChKey key shift 100 100) chat_typed = Some chat_typed).
Proof. exact (enter_equiv_send 100 100 chat_typed chat_sent). Defined.
