(* ===== verification/ChatView.v ===== *)
(** * ChatView: what the chat interface renders (ChatInterface.tsx, lines 114-240)

    The markup of [ChatInterface] as a function of its state: the header
    subtitle (lines 124-128), one bubble per message (lines 144-187) with
    its alignment, avatar, colour and body, the suggested questions
    (lines 193-213), and the input area with its disabled flags and the
    send button's icon (lines 216-239).  Layout, styling and animation are
    left out; what is kept is every decision the markup takes on the
    state.

    Theorems: in every reachable state the "Thinking" bubble with its
    spinning avatar is shown exactly while a reply is pending, as the last
    bubble, together with the spinning send icon and the disabled input;
    the suggested questions are shown exactly until the first message is
    sent. *)

From S2P Require Import Prelude JsString JsRandom Chat.
From stdpp Require Import pretty.
From Stdlib Require Import String.

(** ** The rendered message list *)

Inductive Align := justify_start | justify_end.

(** The avatar beside a bubble: [Bot], the spinning [Loader2], or [User]. *)
Inductive Avatar := BotAvatar | LoaderAvatar | UserAvatar.

(** The bubble's body: the "Thinking" dots or the message text. *)
Inductive Bubble := Thinking | Text (s : string).

Record MessageView := mkMessageView {
  mv_key : string;               (** [key={message.id}] *)
  mv_align : Align;
  mv_left : option Avatar;       (** lines 152-160 *)
  mv_right : option Avatar;      (** lines 181-185 *)
  mv_primary : bool;             (** [bg-primary] for the user's bubbles *)
  mv_body : Bubble               (** lines 167-178 *)
}.

(** One message, lines 145-186. *)
Definition message_view (m : Message) : MessageView :=
  mkMessageView (msg_id m)
    (match sender m with user => justify_end | ai => justify_start end)
    (match sender m with ai => Some (if isTyping m then LoaderAvatar else BotAvatar) | user => None end)
    (match sender m with user => Some UserAvatar | ai => None end)
    (match sender m with user => true | ai => false end)
    (if isTyping m then Thinking else Text (content m)).

(** ** The whole interface *)

Inductive SendIcon := LoaderIcon | SendArrow.

Record ChatView := mkChatView {
  cv_subtitle : string;
  cv_messages : list MessageView;
  cv_suggestions : list string;      (** the buttons of lines 200-210 *)
  cv_input : string;
  cv_input_disabled : bool;
  cv_send_disabled : bool;
  cv_send_icon : SendIcon
}.

(** The render of lines 114-240 for [uploadedFiles.length = nfiles]. *)
Definition chat_view (nfiles : nat) (st : ChatState) : ChatView :=
  mkChatView (header_subtitle nfiles) (List.map message_view (messages st))
    (if shows_suggestions st then take 3 suggestedQuestions else [])
    (inputValue st) (input_disabled st) (send_disabled st)
    (if isLoading st then LoaderIcon else SendArrow).

Definition is_thinking (mv : MessageView) : bool :=
  match mv_body mv with Thinking => true | Text _ => false end.

(** ** Invariants of the message list *)

(** Placeholders are the AI's. *)
Definition typing_ai (st : ChatState) : Prop :=
  Forall (fun m => isTyping m = true -> sender m = ai) (messages st).

(** The greeting stays first. *)
Definition greeting_first (now : N) (st : ChatState) : Prop :=
  exists rest, messages st = greetingMsg now :: rest.

Lemma handleSendMessage_messages t1 t2 st :
  messages (handleSendMessage t1 t2 st) = messages st \/
  messages (handleSendMessage t1 t2 st) =
    messages st ++ [mkMessage (pretty t1) (inputValue st) user t1 false; mkMessage (pretty t2) "" ai t2 true].
Proof.
  destruct (is_blank (inputValue st) || isLoading st)%bool eqn:Hg.
  - left. by rewrite handleSendMessage_blocked by (by apply orb_true_iff).
  - apply orb_false_iff in Hg as [Hb Hl]. right. by rewrite handleSendMessage_sends.
Qed.

(** Every step keeps the old messages in order, except that a reply drops
    the placeholders, and appends new ones. *)
Lemma chat_step_messages st st' :
  chat_step st st' ->
  messages st' = messages st \/
  (exists t1 t2, messages st' =
     messages st ++ [mkMessage (pretty t1) (inputValue st) user t1 false; mkMessage (pretty t2) "" ai t2 true]) \/
  (exists now k, messages st' = real_messages (messages st) ++ [mkMessage (pretty now) (pick_response k) ai now false]).
Proof.
  intros [e He]. destruct e as [v|key shift t1 t2|t1 t2|q|now k]; simpl in He.
  - destruct (input_disabled st); [done|]. injection He as <-. by left.
  - destruct (input_disabled st); [done|]. injection He as <-. unfold handleKeyPress.
    destruct (_ && _)%bool; [|by left].
    destruct (handleSendMessage_messages t1 t2 st) as [H|H]; [by left|right; left; eauto].
  - destruct (send_disabled st); [done|]. injection He as <-.
    destruct (handleSendMessage_messages t1 t2 st) as [H|H]; [by left|right; left; eauto].
  - destruct (_ && _)%bool; [|done]. injection He as <-. by left.
  - destruct (_ || _)%bool; [done|]. injection He as <-. right; right. by exists now, k.
Qed.

Lemma typing_ai_step st st' : chat_step st st' -> typing_ai st -> typing_ai st'.
Proof.
  unfold typing_ai. intros Hs Ht.
  destruct (chat_step_messages st st' Hs) as [H|[(t1 & t2 & H)|(now & k & H)]]; rewrite H; [done| |].
  - apply Forall_app. split; [done|]. repeat constructor; done.
  - apply Forall_app. split; [by apply Forall_list_filter|]. repeat constructor; done.
Qed.

Lemma greeting_first_step now st st' : chat_step st st' -> greeting_first now st -> greeting_first now st'.
Proof.
  intros Hs [rest Hr]. unfold greeting_first.
  destruct (chat_step_messages st st' Hs) as [H|[(t1 & t2 & H)|(n & k & H)]]; rewrite H, Hr.
  - by exists rest.
  - by eexists.
  - unfold real_messages. simpl. by eexists.
Qed.

Lemma chat_view_inv now st :
  chat_reachable now st -> chat_inv st /\ typing_ai st /\ greeting_first now st.
Proof.
  intros Hr. apply (rtc_invariant chat_step (fun s => chat_inv s /\ typing_ai s /\ greeting_first now s)
                      (chat_init now) st); [|split_and!|done].
  - intros a b Hs (H1 & H2 & H3). split_and!;
      [exact (chat_step_inv a b Hs H1)|exact (typing_ai_step a b Hs H2)|exact (greeting_first_step now a b Hs H3)].
  - apply chat_init_inv.
  - repeat constructor.
  - by exists [].
Qed.

Lemma is_thinking_view m : is_thinking (message_view m) = isTyping m.
Proof. unfold is_thinking, message_view. by destruct (isTyping m). Qed.

Lemma thinking_count ms :
  List.length (List.filter is_thinking (List.map message_view ms)) = List.length (List.filter isTyping ms).
Proof.
  induction ms as [|m ms IH]; [done|]. cbn [List.map List.filter]. rewrite is_thinking_view.
  destruct (isTyping m); simpl; lia.
Qed.

(** ** Theorems *)

(** C18: the pending reply as rendered.  In every reachable state there is
    one "Thinking" bubble while a reply is pending and none otherwise; it
    is the last bubble and has the spinning avatar; the send button shows
    the spinner exactly while a reply is pending, and then the input and
    the send button are disabled. *)
Theorem chat_view_loading now n st :
  chat_reachable now st ->
  List.length (List.filter is_thinking (cv_messages (chat_view n st))) = (if isLoading st then 1 else 0)%nat /\
  (isLoading st = true -> exists mv, last (cv_messages (chat_view n st)) = Some mv /\
                                     mv_body mv = Thinking /\ mv_left mv = Some LoaderAvatar) /\
  (cv_send_icon (chat_view n st) = LoaderIcon <-> isLoading st = true) /\
  (isLoading st = true -> cv_input_disabled (chat_view n st) = true /\ cv_send_disabled (chat_view n st) = true).
Proof.
  intros Hr. destruct (chat_view_inv now st Hr) as (Hi & Ht & _).
  pose proof (chat_inv_placeholders st Hi) as (Hc & _ & _).
  simpl. rewrite thinking_count. split_and!; [done| | |].
  - intros Hl. destruct Hi as [(Hl' & _)|(_ & _ & real & m & Hms & Hm & _)]; [congruence|].
    unfold typing_ai in Ht. rewrite Hms in Ht |- *. apply Forall_app in Ht as [_ Ht].
    apply Forall_inv in Ht. rewrite List.map_app. simpl. rewrite last_snoc.
    eexists. split_and!; [done|unfold message_view; by rewrite Hm|unfold message_view; simpl; by rewrite (Ht Hm), Hm].
  - destruct (isLoading st); split; done.
  - intros Hl. unfold input_disabled, send_disabled. rewrite Hl, orb_true_r. done.
Qed.

(** C33: the suggested questions are offered exactly until the first
    message is sent: they are shown when the greeting is the only
    message, and then they are the first three of [suggestedQuestions]. *)
Theorem suggestions_until_first_send now n st :
  chat_reachable now st ->
  (cv_suggestions (chat_view n st) <> [] <-> messages st = [greetingMsg now]) /\
  (cv_suggestions (chat_view n st) <> [] -> cv_suggestions (chat_view n st) = take 3 suggestedQuestions).
Proof.
  intros Hr. destruct (chat_view_inv now st Hr) as (_ & _ & [rest Hg]).
  simpl. unfold shows_suggestions. rewrite Hg.
  destruct rest as [|x xs]; simpl; split; try done; split; done.
Qed.

(** ** Witnesses *)

Lemma chat_view_loading_witness :
  chat_reachable 0 chat_sent /\
  (List.length (List.filter is_thinking (cv_messages (chat_view 1 chat_sent))) = (if isLoading chat_sent then 1 else 0)%nat /\
   (isLoading chat_sent = true -> exists mv, last (cv_messages (chat_view 1 chat_sent)) = Some mv /\
                                             mv_body mv = Thinking /\ mv_left mv = Some LoaderAvatar) /\
   (cv_send_icon (chat_view 1 chat_sent) = LoaderIcon <-> isLoading chat_sent = true) /\
   (isLoading chat_sent = true -> cv_input_disabled (chat_view 1 chat_sent) = true /\
                                  cv_send_disabled (chat_view 1 chat_sent) = true)).
Proof. split; [apply chat_sent_reachable|]. apply (chat_view_loading 0), chat_sent_reachable. Defined.

Lemma suggestions_until_first_send_witness :
  chat_reachable 0 chat_sent /\
  ((cv_suggestions (chat_view 1 chat_sent) <> [] <-> messages chat_sent = [greetingMsg 0]) /\
   (cv_suggestions (chat_view 1 chat_sent) <> [] -> cv_suggestions (chat_view 1 chat_sent) = take 3 suggestedQuestions)).
Proof. split; [apply chat_sent_reachable|]. apply (suggestions_until_first_send 0), chat_sent_reachable. Defined.
