(* ===== verification/Page.v ===== *)
(** * Page: the StudyMate page coordinator (pages/StudyMate.tsx)

    The page state is [showMainApp], [uploadedFiles] and [activeTab]
    (lines 11-13).  It never unmounts.  Its handlers are
    [handleGetStarted] (the hero's one callback, HeroSection.tsx line 92),
    the back button (line 44), [handleFilesProcessed] (the uploader's
    [onFilesProcessed]), the tab triggers (line 76) and the "Upload
    Documents" button of the empty chat tab (line 144).  [render] is the
    rendering decision of lines 26-157.  The [Tabs] of components/ui
    (Radix) shows the content whose value is the active tab, and only
    that content is mounted.

    Theorems: the tab is always "upload" or "chat"; [handleFilesProcessed]
    switches to the chat exactly when files are reported and always
    replaces the list; the chat interface is rendered only when the list is
    not empty. *)

From S2P Require Import Prelude JsString JsNumber Upload Chat.
From stdpp Require Import pretty.
From Stdlib Require Import String.

Record PageState := mkPage {
  showMainApp : bool;
  pageFiles : list UploadedFile;   (** [uploadedFiles] of the page *)
  activeTab : string
}.

Definition page_init : PageState := mkPage false [] "upload".

(** [handleGetStarted] (lines 15-17), the hero's [onGetStarted]. *)
Definition handleGetStarted (st : PageState) : PageState :=
  mkPage true (pageFiles st) (activeTab st).

(** The back button: [setShowMainApp(false)] (line 44). *)
Definition handleBack (st : PageState) : PageState :=
  mkPage false (pageFiles st) (activeTab st).

(** [handleFilesProcessed] (lines 19-24). *)
Definition handleFilesProcessed (files : list UploadedFile) (st : PageState) : PageState :=
  mkPage (showMainApp st) files (if Nat.ltb 0 (List.length files) then "chat" else activeTab st).

(** [onValueChange={setActiveTab}] (line 76) and the button at line 144. *)
Definition setActiveTab (v : string) (st : PageState) : PageState :=
  mkPage (showMainApp st) (pageFiles st) v.

(** The tab triggers (lines 78 and 87). *)
Definition tab_values : list string := ["upload"; "chat"].

(** What the page shows inside the active tab. *)
Inductive TabContent :=
| UploadContent                  (** [PDFUploader] (lines 94-112) *)
| ChatContent (subtitle : string) (** [ChatInterface] (lines 123-134) *)
| ChatEmpty                      (** "No documents uploaded yet" (lines 135-148) *)
| NoContent.                     (** no trigger has this value *)

Inductive PageView :=
| HeroView                                             (** line 27 *)
| MainView (tab : string) (badge : option nat) (content : TabContent).

Definition render (st : PageState) : PageView :=
  if negb (showMainApp st) then HeroView
  else
    let n := List.length (pageFiles st) in
    let badge := if Nat.ltb 0 n then Some n else None in
    let content :=
      if String.eqb (activeTab st) "upload" then UploadContent
      else if String.eqb (activeTab st) "chat" then
        (if Nat.ltb 0 n then ChatContent (header_subtitle n) else ChatEmpty)
      else NoContent in
    MainView (activeTab st) badge content.

(** Whether the uploader and the chat interface are mounted. *)
Definition uploader_mounted (st : PageState) : bool :=
  match render st with MainView _ _ UploadContent => true | _ => false end.

Definition chat_mounted (st : PageState) : bool :=
  match render st with MainView _ _ (ChatContent _) => true | _ => false end.

Lemma uploader_mounted_spec st :
  uploader_mounted st = (showMainApp st && String.eqb (activeTab st) "upload")%bool.
Proof.
  unfold uploader_mounted, render. destruct (showMainApp st); [|done]. simpl.
  destruct (String.eqb (activeTab st) "upload"); [done|].
  destruct (String.eqb (activeTab st) "chat"); [by destruct (Nat.ltb _ _)|done].
Qed.

(** ** The page as a step relation *)

Inductive PageEvent :=
| PgGetStarted                         (** the hero's button *)
| PgBack                               (** the back button *)
| PgSelectTab (v : string)             (** a tab trigger *)
| PgUploadButton                       (** "Upload Documents" in the empty chat tab *)
| PgFilesProcessed (files : list UploadedFile).  (** the uploader's callback *)

Definition page_handle (e : PageEvent) (st : PageState) : option PageState :=
  match e, render st with
  | PgGetStarted, HeroView => Some (handleGetStarted st)
  | PgBack, MainView _ _ _ => Some (handleBack st)
  | PgSelectTab v, MainView _ _ _ => if bool_decide (v ∈ tab_values) then Some (setActiveTab v st) else None
  | PgUploadButton, MainView _ _ ChatEmpty => Some (setActiveTab "upload" st)
  | PgFilesProcessed files, _ => Some (handleFilesProcessed files st)
  | _, _ => None
  end.

Definition page_step (st st' : PageState) : Prop := exists e, page_handle e st = Some st'.

(** ** Theorems *)

Lemma page_step_tab st st' :
  page_step st st' -> activeTab st ∈ tab_values -> activeTab st' ∈ tab_values.
Proof.
  intros [e He] Ht. destruct e; simpl in He; destruct (render st) as [|tab b c] eqn:Hr;
    try discriminate; try (injection He as <-; done).
  - case_bool_decide; [|done]. by injection He as <-.
  - destruct c; try discriminate. injection He as <-. simpl. by left.
  - injection He as <-. simpl. destruct (Nat.ltb 0 _); [right; left|done].
  - injection He as <-. simpl. destruct (Nat.ltb 0 _); [right; left|done].
Qed.

(** C28: the active tab is always "upload" or "chat", so the page always
    shows the uploader, the chat interface or the empty-chat message. *)
Theorem page_tab_valid st :
  rtc page_step page_init st -> activeTab st ∈ tab_values /\ (showMainApp st = true -> exists b c, render st = MainView (activeTab st) b c /\ c <> NoContent).
Proof.
  intros Hr. assert (Ht : activeTab st ∈ tab_values).
  { apply (rtc_invariant page_step (fun s => activeTab s ∈ tab_values) page_init st page_step_tab); [by left|done]. }
  split; [done|]. intros Hs. unfold render. rewrite Hs. simpl.
  eexists _, _. split; [reflexivity|].
  apply elem_of_cons in Ht as [->|Ht]; [done|]. apply list_elem_of_singleton in Ht as ->.
  simpl. by destruct (Nat.ltb 0 _).
Qed.

(** C29: a report of [n > 0] processed files, on the main app, shows the
    chat tab with the chat interface headed "Analyzing n document(s)" and
    the count on the upload tab.  An empty report replaces the list by the
    empty one and leaves the tab unchanged; on the chat tab this unmounts
    the chat interface in favour of the empty-chat message. *)
Theorem handleFilesProcessed_render files st :
  showMainApp st = true ->
  (files <> [] ->
   render (handleFilesProcessed files st) =
   MainView "chat" (Some (List.length files)) (ChatContent (header_subtitle (List.length files)))) /\
  (files = [] -> activeTab st = "chat" ->
   render (handleFilesProcessed files st) = MainView "chat" None ChatEmpty).
Proof.
  intros Hs. split.
  - intros Hne. destruct files as [|g gs]; [done|]. unfold render, handleFilesProcessed. simpl.
    by rewrite Hs.
  - intros -> Ht. unfold render, handleFilesProcessed. simpl. by rewrite Hs, Ht.
Qed.

(** C31: the chat interface is rendered only with a non-empty file list,
    and its header counts those files. *)
Theorem chat_rendered_with_files st tab b subtitle :
  render st = MainView tab b (ChatContent subtitle) ->
  pageFiles st <> [] /\ subtitle = header_subtitle (List.length (pageFiles st)).
Proof.
  unfold render. destruct (showMainApp st); simpl; [|discriminate].
  destruct (String.eqb (activeTab st) "upload"); [discriminate|].
  destruct (String.eqb (activeTab st) "chat"); [|discriminate].
  destruct (pageFiles st) as [|g gs]; simpl; [discriminate|]. by intros [= _ _ <-].
Qed.

(** ** Witnesses *)

Definition page_main : PageState := handleGetStarted page_init.

Lemma page_main_reachable : rtc page_step page_init page_main.
Proof. apply rtc_once. exists PgGetStarted. reflexivity. Qed.

Lemma page_tab_valid_witness :
  rtc page_step page_init page_main /\
  (activeTab page_main ∈ tab_values /\
   (showMainApp page_main = true -> exists b c, render page_main = MainView (activeTab page_main) b c /\ c <> NoContent)).
Proof. split; [apply page_main_reachable|]. apply page_tab_valid, page_main_reachable. Defined.

Lemma handleFilesProcessed_render_witness :
  showMainApp (setActiveTab "chat" page_main) = true /\
  ([set_status completed 100 (newFile "f1" notes_pdf)] <> [] ->
   render (handleFilesProcessed [set_status completed 100 (newFile "f1" notes_pdf)] (setActiveTab "chat" page_main)) =
   MainView "chat" (Some 1%nat) (ChatContent (header_subtitle 1))) /\
  ([set_status completed 100 (newFile "f1" notes_pdf)] = [] -> activeTab (setActiveTab "chat" page_main) = "chat" ->
   render (handleFilesProcessed [set_status completed 100 (newFile "f1" notes_pdf)] (setActiveTab "chat" page_main)) =
   MainView "chat" None ChatEmpty).
Proof. split; [reflexivity|]. apply handleFilesProcessed_render. reflexivity. Defined.

Lemma chat_rendered_with_files_witness :
  let st := handleFilesProcessed [set_status completed 100 (newFile "f1" notes_pdf)] page_main in
  render st = MainView "chat" (Some 1%nat) (ChatContent (header_subtitle 1)) /\
  pageFiles st <> [] /\ header_subtitle 1 = header_subtitle (List.length (pageFiles st)).
Proof.
  simpl. assert (H : render (handleFilesProcessed [set_status completed 100 (newFile "f1" notes_pdf)] page_main)
                     = MainView "chat" (Some 1%nat) (ChatContent (header_subtitle 1))) by reflexivity.
  split; [exact H|]. exact (chat_rendered_with_files _ _ _ _ H).
Defined.
