(* ===== verification/Hero.v ===== *)
(** * Hero: the landing view (components/StudyMate/HeroSection.tsx)

    The hero is static markup with one callback, [onGetStarted].  What it
    decides is the list of feature pills (lines 68-81) and statistics
    (lines 118-127), each keyed by its text, and its two buttons (lines
    91-108): "Start Learning Now" calls [onGetStarted], "See Demo" has no
    handler.  The page renders the hero while [showMainApp] is false
    ([Page.render]); the button's event is the page's [PgGetStarted].

    The lemma [hero_behaviour] records what the markup decides: the pills
    and statistics have distinct React keys, and the only button with an
    effect leads from the hero to the main app on the upload tab.  It is
    a computation on constant data, not a property of the program's
    logic. *)

From S2P Require Import Prelude JsString Upload Chat Page.
From Stdlib Require Import String.

(** A feature pill: its lucide icon and its text, the key (line 75). *)
Record Pill := mkPill { pill_icon : string; pill_text : string }.

Definition features : list Pill :=
  [mkPill "BookOpen" "PDF Analysis"; mkPill "Brain" "Smart Q&A";
   mkPill "Zap" "Instant Answers"; mkPill "Sparkles" "AI-Powered"].

(** A statistic: its number and its label, the key (line 123). *)
Record Stat := mkStat { stat_number : string; stat_label : string }.

Definition stats : list Stat :=
  [mkStat "10K+" "Students Helped"; mkStat "500K+" "Questions Answered"; mkStat "99%" "Accuracy Rate"].

Inductive HeroButton := StartLearningNow | SeeDemo.

(** The [onClick] of each button as a page event. *)
Definition hero_onClick (b : HeroButton) : option PageEvent :=
  match b with
  | StartLearningNow => Some PgGetStarted      (** [onClick={onGetStarted}] *)
  | SeeDemo => None                            (** no handler *)
  end.

(** A click on a hero button, on the page state [st]. *)
Definition hero_click (b : HeroButton) (st : PageState) : PageState :=
  match hero_onClick b with
  | Some e => match page_handle e st with Some st' => st' | None => st end
  | None => st
  end.

(** The landing view.  Its pills and statistics have distinct keys;
    on the hero, "Start Learning Now" shows the main app with the page's
    files and tab unchanged, and "See Demo" does nothing. *)
Lemma hero_behaviour st :
  render st = HeroView ->
  NoDup (List.map pill_text features) /\ NoDup (List.map stat_label stats) /\
  hero_click StartLearningNow st = mkPage true (pageFiles st) (activeTab st) /\
  render (hero_click StartLearningNow st) <> HeroView /\
  hero_click SeeDemo st = st.
Proof.
  intros Hr. unfold hero_click. simpl. rewrite Hr.
  split_and!; [apply NoDup_ListNoDup; repeat constructor; simpl; intuition discriminate
              |apply NoDup_ListNoDup; repeat constructor; simpl; intuition discriminate
              |done| |done].
  unfold render, handleGetStarted. simpl. by destruct (String.eqb _ _); [|destruct (String.eqb _ _)].
Qed.
