(* ===== verification/UploadLive.v ===== *)
(** * UploadLive: every upload completes, and the timers run out

    PDFUploader.tsx gives a dropped file no way to fail: [processFile]
    always ends with [{ ...f, status: 'completed', progress: 100 }]
    (line 70).  This file proves what that means for the running
    component, whatever the interleaving of drops, removals and timers:

    - termination: a drop of n PDFs adds exactly 17 n pending sleeps and
      every timer firing uses up one, so a state has at most
      [total_sleeps] firings left ([drop_timers_terminate]);
    - liveness: firing the oldest task's timer [total_sleeps] times runs
      every task to its end, and then every listed file is [completed] at
      100 ([uploads_complete]); a state with no timer left has only
      completed files ([quiescent_all_done]).

    The liveness invariant is per file id: each listed file is completed,
    or some suspended task still writes its id.  The [Section Liveness]
    proves it for any [onDrop] whose tasks end their writes to an id with
    the completing one ([Upload.task_done]); the theorems instantiate it
    with [Upload.onDrop_done]. *)

From S2P Require Import Prelude JsString JsNumber Upload.
From Stdlib Require Import String.

Local Open Scope Z_scope.

Definition file_done (g : UploadedFile) : Prop := status g = completed /\ progress g = 100.

(** A task waiting on its timer. *)
Definition suspended (t : list Instr) : Prop :=
  match t with ISleep _ :: _ => True | _ => False end.

(** The sleeps the tasks still have to go through. *)
Fixpoint total_sleeps (ts : list (list Instr)) : nat :=
  match ts with
  | [] => O
  | t :: ts' => (sleeps t + total_sleeps ts')%nat
  end.

(** ** Suffixes of a finished task *)

Lemma task_done_cons i r : task_done (i :: r) -> task_done r.
Proof.
  intros [H C]. split.
  - intros x j Hj. apply (H x). simpl. by rewrite Hj.
  - by destruct i; [apply C|..].
Qed.

Lemma task_done_suffix pre t : task_done (pre ++ t) -> task_done t.
Proof. induction pre as [|i pre IH]; [done|]. intros H. apply IH, (task_done_cons i), H. Qed.

(** ** One segment of a task, seen from one file id *)

Lemma run_segment_suffix prog files out :
  let '(_, _, rest) := run_segment prog files out in exists pre, prog = pre ++ rest.
Proof.
  revert files out. induction prog as [|i r IH]; intros files out; [by exists []|].
  destruct i; cbn [run_segment]; try by exists [].
  all: match goal with |- context [run_segment _ ?f ?o] => specialize (IH f o) end;
    destruct (run_segment r _ _) as [[f' o'] rest]; destruct IH as [pre ->]; by eexists (_ :: pre).
Qed.

(** A write aimed at another id leaves the files with id [x] as they are. *)
Lemma map_where_other y x h files g' :
  (forall g, id (h g) = id g) -> y <> x ->
  In g' (map_where (has_id y) h files) -> id g' = x -> In g' files.
Proof.
  intros Hh Hne Hin Hx. apply elem_of_map_where in Hin as (g & Hg & ->).
  unfold has_id in *. destruct (String.eqb_spec (id g) y); [|done].
  rewrite Hh in Hx. congruence.
Qed.

(** A write aimed at [x] has updated every file with id [x]. *)
Lemma map_where_hit x h files g' :
  (forall g, id (h g) = id g) ->
  In g' (map_where (has_id x) h files) -> id g' = x -> exists g, g' = h g.
Proof.
  intros Hh Hin Hx. apply elem_of_map_where in Hin as (g & Hg & ->).
  unfold has_id in *. destruct (String.eqb_spec (id g) x); [by eexists|congruence].
Qed.

Definition x_files_done (x : string) (files : list UploadedFile) : Prop :=
  forall g, In g files -> id g = x -> file_done g.

Definition x_files_sub (x : string) (files' files : list UploadedFile) : Prop :=
  forall g, In g files' -> id g = x -> In g files.

(** The last write to [x] before [r] when [r] has none. *)
Lemma last_write_head x i r :
  existsb (writes x) r = false -> writes x i = true -> last_write x (i :: r) = Some i.
Proof. intros Hr Hi. simpl. by rewrite (proj2 (last_write_none x r) Hr), Hi. Qed.

(** After a segment of a well-formed task, the files with id [x] are all
    completed, or the rest of the task still writes [x], or the segment
    neither wrote nor appended such a file. *)
Lemma run_segment_obl prog files out x :
  task_done prog ->
  let '(files', _, rest) := run_segment prog files out in
  existsb (writes x) rest = true \/ x_files_done x files' \/
  (existsb (writes x) prog = false /\ x_files_sub x files' files).
Proof.
  revert files out. induction prog as [|i r IH]; intros files out Hd; [simpl; right; right; split; [done|by intros ? ? ?]|].
  pose proof (task_done_cons _ _ Hd) as Hr. destruct Hd as [Hlast Hcov].
  destruct i as [g|ms|y p|y st p|fs]; cbn [run_segment];
    [| destruct (existsb (writes x) (ISleep ms :: r)) eqn:E; [by left|right; right; split; [done|by intros ? ? ?]] | | |];
    match goal with |- context [run_segment _ ?f ?o] => specialize (IH f o Hr) end;
    destruct (run_segment r _ _) as [[f' o'] rest];
    destruct IH as [?|[?|[Hno Hsub]]]; try (by left); try (by right; left).
  - right; right. split; [done|]. intros g' Hg' Hx. specialize (Hsub g' Hg' Hx).
    apply in_app_or in Hsub as [?|[<-|[]]]; [done|]. destruct Hcov as [Hcov _]. congruence.
  - destruct (String.eqb_spec y x) as [->|Hne].
    + exfalso. pose proof (Hlast x _ (last_write_head x (ISetProgress x p) r Hno (String.eqb_refl x))). discriminate.
    + right; right. split; [simpl; by rewrite (proj2 (String.eqb_neq _ _) Hne)|].
      intros g' Hg' Hx. exact (map_where_other y x (set_progress p) files g' (fun _ => eq_refl) Hne (Hsub g' Hg' Hx) Hx).
  - destruct (String.eqb_spec y x) as [->|Hne].
    + pose proof (Hlast x _ (last_write_head x (ISetStatus x st p) r Hno (String.eqb_refl x))) as Hc.
      injection Hc as -> ->. right; left. intros g' Hg' Hx.
      destruct (map_where_hit x (set_status completed 100) files g' (fun _ => eq_refl) (Hsub g' Hg' Hx) Hx) as [g ->].
      by split.
    + right; right. split; [simpl; by rewrite (proj2 (String.eqb_neq _ _) Hne)|].
      intros g' Hg' Hx. exact (map_where_other y x (set_status st p) files g' (fun _ => eq_refl) Hne (Hsub g' Hg' Hx) Hx).
  - right; right. by split.
Qed.

(** ** The liveness invariant of the uploader *)

(** File id [x] is settled: a suspended task still writes it, or every
    listed file with that id is completed. *)
Definition obligation (u : Uploader) (x : string) : Prop :=
  existsb (existsb (writes x)) (tasks u) = true \/ x_files_done x (uploadedFiles u).

Definition live_inv (u : Uploader) : Prop :=
  Forall task_done (tasks u) /\ Forall suspended (tasks u) /\ forall x, obligation u x.

Lemma keep_task_done rest : task_done rest -> Forall task_done (keep_task rest).
Proof. intros H. destruct rest; simpl; [constructor|by constructor]. Qed.

Lemma keep_task_suspended rest : suspended_or_done rest -> Forall suspended (keep_task rest).
Proof. destruct rest as [|[] r]; simpl; try done; by repeat constructor. Qed.

Lemma existsb_keep_task x rest :
  existsb (writes x) rest = true -> existsb (existsb (writes x)) (keep_task rest) = true.
Proof. destruct rest; simpl; [done|]. intros ->. done. Qed.

(** A task other than the resumed one still writes [x]. *)
Lemma existsb_replace {A} (f : A -> bool) ts k t mid :
  ts !! k = Some t -> existsb f ts = true -> f t = false ->
  existsb f (take k ts ++ mid ++ drop (S k) ts) = true.
Proof.
  intros Hk Hts Ht. rewrite <- (take_drop_middle ts k t Hk), !existsb_app in Hts. simpl in Hts.
  rewrite Ht in Hts. rewrite !existsb_app. apply orb_true_iff in Hts as [H|H]; [by rewrite H|].
  simpl in H. by rewrite H, !orb_true_r.
Qed.

(** The obligation of [x] after a segment, from the segment's outcome. *)
Lemma obligation_after x (ts ts' : list (list Instr)) files files' prog rest :
  (existsb (existsb (writes x)) ts = true -> existsb (writes x) prog = false ->
   existsb (existsb (writes x)) ts' = true) ->
  (existsb (writes x) rest = true -> existsb (existsb (writes x)) ts' = true) ->
  existsb (existsb (writes x)) ts = true \/ x_files_done x files ->
  existsb (writes x) rest = true \/ x_files_done x files' \/
  (existsb (writes x) prog = false /\ x_files_sub x files' files) ->
  existsb (existsb (writes x)) ts' = true \/ x_files_done x files'.
Proof.
  intros Hkeep Hrest Hold [Hr|[Hd|[Hno Hsub]]]; [left; auto|by right|].
  destruct Hold as [Ht|Hd]; [left; auto|right]. intros g Hg Hx. apply Hd; [apply Hsub|]; done.
Qed.

Lemma fire_suspended k u u' :
  fire k u = Some u' -> Forall suspended (tasks u) -> Forall suspended (tasks u').
Proof.
  unfold fire. destruct (tasks u !! k) as [[|[] rest]|]; try done.
  pose proof (run_segment_spec rest (uploadedFiles u) (outbox u)) as Hs.
  destruct (run_segment _ _ _) as [[f' o'] rest']. intros [= <-] Ht. simpl.
  apply Forall_replace_task; [done|]. apply keep_task_suspended, Hs.
Qed.

(** The invariant holds for tasks spawned by any [onDrop] whose programs
    end their writes with the completing one; [Upload.onDrop_done] is
    that fact for the code. *)
Section Liveness.
Hypothesis drop_done : forall files batch, task_done (onDrop files batch).

Lemma live_step u u' : ustep u u' -> live_inv u -> live_inv u'.
Proof.
  intros Hs (Hd & Hsus & Hobl). destruct Hs as [u dropped _|u fid|u k u' Hfire].
  - unfold drop_files, spawn.
    set (prog := onDrop (uploadedFiles u) (List.filter (fun '(_, f) => isPdfAccepted f) dropped)).
    pose proof (fun x => run_segment_obl prog (uploadedFiles u) (outbox u) x (drop_done _ _)) as Hx.
    pose proof (run_segment_spec prog (uploadedFiles u) (outbox u)) as Hsp.
    pose proof (run_segment_suffix prog (uploadedFiles u) (outbox u)) as Hsf.
    destruct (run_segment _ _ _) as [[f' o'] rest]. simpl. simpl in Hsp, Hsf.
    destruct Hsf as [pre Hpre]. destruct Hsp as [Hsp _].
    assert (Hrest : task_done rest) by (apply (task_done_suffix pre); rewrite <- Hpre; apply drop_done).
    split_and!; [apply Forall_app; split; [done|by apply keep_task_done]
                |apply Forall_app; split; [done|apply keep_task_suspended, Hsp]|].
    intros x. apply (obligation_after x (tasks u) _ (uploadedFiles u) f' prog rest); [| |apply Hobl|apply Hx].
    + intros H _. simpl. rewrite existsb_app, H. done.
    + intros H. simpl. rewrite existsb_app, existsb_keep_task by done. apply orb_true_r.
  - split_and!; [done|done|]. intros x. destruct (Hobl x) as [H|H]; [by left|right].
    intros g Hg. apply H. by apply List.filter_In in Hg as [? _].
  - unfold fire in Hfire. destruct (tasks u !! k) as [[|[] r]|] eqn:Hk; try done.
    pose proof (Forall_lookup_1 _ _ _ _ Hd Hk) as Hdk.
    pose proof (task_done_cons _ _ Hdk) as Hr.
    pose proof (fun x => run_segment_obl r (uploadedFiles u) (outbox u) x Hr) as Hx.
    pose proof (run_segment_spec r (uploadedFiles u) (outbox u)) as Hsp.
    pose proof (run_segment_suffix r (uploadedFiles u) (outbox u)) as Hsf.
    destruct (run_segment _ _ _) as [[f' o'] rest]. injection Hfire as <-. simpl. simpl in Hsp, Hsf.
    destruct Hsf as [pre Hpre]. destruct Hsp as [Hsp _].
    assert (Hrest : task_done rest) by (apply (task_done_suffix pre); by rewrite <- Hpre).
    split_and!; [apply Forall_replace_task; [done|by apply keep_task_done]
                |apply Forall_replace_task; [done|apply keep_task_suspended, Hsp]|].
    intros x. apply (obligation_after x (tasks u) _ (uploadedFiles u) f' r rest); [| |apply Hobl|apply Hx].
    + intros H Hno. simpl. by apply (existsb_replace _ _ _ _ _ Hk H).
    + intros H. simpl. rewrite !existsb_app, existsb_keep_task by done. by rewrite orb_true_r.
Qed.

Lemma live_inv_reachable u : ureachable u -> live_inv u.
Proof.
  intros Hr. apply (rtc_invariant ustep live_inv uploader_init u live_step); [|done].
  split_and!; [constructor|constructor|]. intros x. right. by intros g [].
Qed.

End Liveness.

(** ** Termination: each firing uses up one sleep *)

Lemma total_sleeps_app ts1 ts2 : total_sleeps (ts1 ++ ts2) = (total_sleeps ts1 + total_sleeps ts2)%nat.
Proof. induction ts1 as [|t ts1 IH]; simpl; lia. Qed.

Lemma total_sleeps_keep rest : total_sleeps (keep_task rest) = sleeps rest.
Proof. destruct rest; simpl; lia. Qed.

Lemma fire_total k u u' : fire k u = Some u' -> S (total_sleeps (tasks u')) = total_sleeps (tasks u).
Proof.
  unfold fire. destruct (tasks u !! k) as [[|[?|ms|? ?|? ? ?|?] rest]|] eqn:Hk; try done.
  pose proof (run_segment_spec rest (uploadedFiles u) (outbox u)) as Hs.
  destruct (run_segment _ _ _) as [[f' o'] rest']. intros [= <-]. simpl.
  destruct Hs as (_ & _ & _ & Hsl).
  assert (E : total_sleeps (tasks u) =
              total_sleeps (take k (tasks u) ++ (ISleep ms :: rest) :: drop (S k) (tasks u)))
    by (by rewrite take_drop_middle).
  rewrite E, !total_sleeps_app, total_sleeps_keep, Hsl. simpl. lia.
Qed.

(** Fire the timers of the tasks [ks], in this order. *)
Fixpoint fire_seq (ks : list nat) (u : Uploader) : option Uploader :=
  match ks with
  | [] => Some u
  | k :: ks' => match fire k u with Some u1 => fire_seq ks' u1 | None => None end
  end.

Lemma fire_some u ms r ts :
  tasks u = (ISleep ms :: r) :: ts -> exists u', fire 0 u = Some u'.
Proof.
  intros Ht. unfold fire. rewrite Ht. simpl. destruct (run_segment r _ _) as [[f' o'] rest]. by eexists.
Qed.

(** Firing the oldest task's timer once per pending sleep runs every task
    to its end; each firing is a step of the uploader. *)
Lemma fire_all u :
  Forall suspended (tasks u) ->
  exists u', fire_n (total_sleeps (tasks u)) 0 u = Some u' /\ tasks u' = [] /\ rtc ustep u u'.
Proof.
  remember (total_sleeps (tasks u)) as n eqn:Hn. revert u Hn.
  induction n as [|n IH]; intros u Hn Hs;
    destruct (tasks u) as [|t ts] eqn:Ht; inversion Hs as [|? ? Ht0 Hts]; subst;
    try (destruct t as [|[] r]; simpl in Ht0; try done).
  - exists u. split_and!; [done|done|apply rtc_refl].
  - simpl in Hn. lia.
  - destruct (fire_some u ms r ts Ht) as [u1 Hf].
    assert (Hn1 : n = total_sleeps (tasks u1)) by (pose proof (fire_total _ _ _ Hf); rewrite Ht in *; simpl in *; lia).
    assert (Hs1 : Forall suspended (tasks u1)) by (apply (fire_suspended _ _ _ Hf); rewrite Ht; by constructor).
    destruct (IH u1 Hn1 Hs1) as (u' & H1 & H2 & H3).
    exists u'. split_and!; [simpl; by rewrite Hf|done|].
    apply rtc_l with u1; [by apply ustep_timer with 0%nat|done].
Qed.

Lemma fire_n_ids n k u u' :
  fire_n n k u = Some u' -> exists l, List.map id (uploadedFiles u') = List.map id (uploadedFiles u) ++ l.
Proof.
  revert u. induction n as [|n IH]; intros u; simpl; [intros [= <-]; exists []; by rewrite app_nil_r|].
  destruct (fire k u) as [u1|] eqn:Hf; [|done]. intros Hn.
  destruct (fire_ids_prefix _ _ _ Hf) as [l1 H1]. destruct (IH u1 Hn) as [l2 H2].
  exists (l1 ++ l2). by rewrite H2, H1, app_assoc.
Qed.

(** With no task left, the invariant says every file is completed. *)
Lemma live_inv_idle u : live_inv u -> tasks u = [] -> Forall file_done (uploadedFiles u).
Proof.
  intros (_ & _ & Hobl) Ht. apply Forall_forall. intros g Hg.
  destruct (Hobl (id g)) as [H|H]; [by rewrite Ht in H|]. apply H; [by apply list_elem_of_In|done].
Qed.

Lemma fire_n_reach n k u u' : fire_n n k u = Some u' -> rtc ustep u u'.
Proof.
  revert u. induction n as [|n IH]; intros u; simpl; [intros [= <-]; apply rtc_refl|].
  destruct (fire k u) as [u1|] eqn:Hf; [|done]. intros Hn.
  apply rtc_l with u1; [by apply ustep_timer with k|by apply IH].
Qed.

(** ** The timers a drop adds *)

Lemma processFile_sleeps fid f : sleeps (processFile fid f) = 17%nat.
Proof. reflexivity. Qed.

Lemma onDrop_sleeps files batch : sleeps (onDrop files batch) = (17 * List.length batch)%nat.
Proof.
  unfold onDrop. rewrite sleeps_app. simpl. rewrite Nat.add_0_r.
  induction batch as [|[fid f] batch IH]; [done|]. cbn [List.flat_map].
  rewrite sleeps_app, processFile_sleeps, IH. simpl. lia.
Qed.

Lemma drop_total_sleeps u dropped :
  total_sleeps (tasks (drop_files dropped u)) =
  (total_sleeps (tasks u) + 17 * List.length (List.filter (fun '(_, f) => isPdfAccepted f) dropped))%nat.
Proof.
  unfold drop_files, spawn. set (batch := List.filter _ dropped).
  pose proof (run_segment_spec (onDrop (uploadedFiles u) batch) (uploadedFiles u) (outbox u)) as Hs.
  destruct (run_segment _ _ _) as [[f' o'] rest]. destruct Hs as (_ & _ & _ & Hsl). simpl.
  by rewrite total_sleeps_app, total_sleeps_keep, Hsl, onDrop_sleeps.
Qed.

(** ** Theorems *)

(** C4: every upload completes.  From any state reachable by drops,
    removals and timer firings in any order, firing the oldest task's
    timer once per pending sleep runs every task to its end; then every
    listed file is [completed] at progress 100, and every file listed
    before is still listed. *)
Theorem uploads_complete u :
  ureachable u ->
  exists u', fire_n (total_sleeps (tasks u)) 0 u = Some u' /\ tasks u' = [] /\
    Forall file_done (uploadedFiles u') /\
    exists l, List.map id (uploadedFiles u') = List.map id (uploadedFiles u) ++ l.
Proof.
  intros Hr. pose proof (live_inv_reachable onDrop_done u Hr) as Hi.
  destruct (fire_all u (proj1 (proj2 Hi))) as (u' & H1 & H2 & H3).
  exists u'. split_and!; [done|done| |exact (fire_n_ids _ _ _ _ H1)].
  apply live_inv_idle; [|done]. exact (rtc_invariant ustep live_inv u u' (live_step onDrop_done) Hi H3).
Qed.

(** C16: a reachable state in which no timer can fire shows only completed
    files: no upload is left half done. *)
Theorem quiescent_all_done u :
  ureachable u -> (forall k, fire k u = None) -> Forall file_done (uploadedFiles u).
Proof.
  intros Hr Hn. pose proof (live_inv_reachable onDrop_done u Hr) as Hi. apply live_inv_idle; [done|].
  destruct Hi as (_ & Hs & _). destruct (tasks u) as [|t ts] eqn:Ht; [done|]. exfalso.
  inversion Hs as [|? ? Ht0]; subst. destruct t as [|[?|ms|? ?|? ? ?|?] r]; try done.
  destruct (fire_some u ms r ts Ht) as [u1 Hf]. by rewrite Hn in Hf.
Qed.

(** Every timer firing, of any task, uses up one pending sleep. *)
Lemma fire_seq_sleeps ks u u' :
  fire_seq ks u = Some u' -> (List.length ks + total_sleeps (tasks u'))%nat = total_sleeps (tasks u).
Proof.
  revert u. induction ks as [|k ks IH]; intros u; simpl; [intros [= <-]; lia|].
  destruct (fire k u) as [u1|] eqn:Hf; [|done]. intros H.
  pose proof (IH u1 H). pose proof (fire_total _ _ _ Hf). lia.
Qed.

(** C15: timers terminate.  A drop of [n] accepted PDFs adds exactly
    [17 n] pending timers to those already running (11 of the upload loop
    and 6 of the processing loop per file), and every timer firing, of
    any task and in any order, uses one of them up: after [ks] firings
    [length ks] fewer are pending, so no more than that many firings can
    follow the drop. *)
Theorem drop_timers_terminate u dropped ks u' :
  fire_seq ks (drop_files dropped u) = Some u' ->
  (List.length ks + total_sleeps (tasks u') =
   total_sleeps (tasks u) + 17 * List.length (List.filter (fun '(_, f) => isPdfAccepted f) dropped))%nat.
Proof. intros H. rewrite <- drop_total_sleeps. exact (fire_seq_sleeps _ _ _ H). Qed.

(** ** Witnesses *)

(** The demo upload run to its end. *)
Definition upload_done : Uploader :=
  match fire_n 17 0 upload_demo with Some v => v | None => upload_demo end.

Lemma upload_done_reachable : ureachable upload_done.
Proof.
  assert (H : fire_n 17 0 upload_demo = Some upload_done) by (vm_compute; reflexivity).
  unfold ureachable. eapply rtc_trans; [apply upload_demo_reachable|exact (fire_n_reach _ _ _ _ H)].
Qed.

Lemma uploads_complete_witness :
  ureachable upload_demo /\
  exists u', fire_n (total_sleeps (tasks upload_demo)) 0 upload_demo = Some u' /\ tasks u' = [] /\
    Forall file_done (uploadedFiles u') /\
    exists l, List.map id (uploadedFiles u') = List.map id (uploadedFiles upload_demo) ++ l.
Proof. split; [apply upload_demo_reachable|]. apply uploads_complete, upload_demo_reachable. Defined.

Lemma quiescent_all_done_witness :
  (ureachable upload_done /\ forall k, fire k upload_done = None) /\ Forall file_done (uploadedFiles upload_done).
Proof.
  assert (Ht : tasks upload_done = []) by (vm_compute; reflexivity).
  assert (Hn : forall k, fire k upload_done = None) by (intros k; unfold fire; rewrite Ht; by destruct k).
  split; [split; [apply upload_done_reachable|exact Hn]|].
  exact (quiescent_all_done _ upload_done_reachable Hn).
Defined.

Lemma drop_timers_terminate_witness :
  fire_seq [0; 0; 0]%nat upload_demo = Some (match fire_seq [0; 0; 0]%nat upload_demo with Some v => v | None => upload_demo end) /\
  (3 + total_sleeps (tasks (match fire_seq [0; 0; 0]%nat upload_demo with Some v => v | None => upload_demo end)))%nat =
  (total_sleeps (tasks uploader_init) +
   17 * List.length (List.filter (fun '(_, f) => isPdfAccepted f) [("f1"%string, notes_pdf)]))%nat.
Proof.
  assert (H : fire_seq [0; 0; 0]%nat (drop_files [("f1"%string, notes_pdf)] uploader_init) =
              Some (match fire_seq [0; 0; 0]%nat upload_demo with Some v => v | None => upload_demo end))
    by (vm_compute; reflexivity).
  split; [exact H|exact (drop_timers_terminate _ _ _ _ H)].
Defined.

