(* ===== verification/UploadSpec.v ===== *)
(** * UploadSpec: the uploader refines the per-file state machine of the spec

    The specification (section 4.1, and the property list of section 8)
    describes each uploaded file as a small state machine over (status,
    progress): Uploading from 0 to 100 in steps of 10, then Processing
    from 0 to 100 in steps of 20, then Completed at 100.  [spec_step] is
    that machine.  The uploader of PDFUploader.tsx runs the tasks of many
    drops interleaved, and each task updates the shared [uploadedFiles]
    list by id ([f.id === fileId]).

    The refinement theorem states, for every reachable state, every step
    of the uploader (a drop, a removal, the timer of any task) and every
    file id, how the (status, progress) of that id may change: a listed
    file moves by at most two steps of [spec_step] (two writes, e.g.
    progress 100 then the next status, run between two sleeps); a file
    appears only at (Uploading, 0); and it disappears only when that step
    is the removal of that id.

    The proof replays each task with an executable monitor ([monitor]):
    it follows the phase of one id through the task's instructions and
    counts the machine steps since the task last resumed, failing on a
    move off the machine, on a third step, or on a write after the append
    of a new file before its first sleep.  The invariant [spec_inv] says
    that at most one running task still appends or writes an id and that
    the monitor accepts the rest of every task from the file's current
    phase. *)

From S2P Require Import Prelude JsString JsNumber Upload.
From Stdlib Require Import String.

Local Open Scope Z_scope.

(** ** The specification's machine *)

Definition Phase : Type := FileStatus * Z.





(** ** The phase of a file id in the component state *)

(** [uploadedFiles.find(f => f.id === x)], as (status, progress). *)
Definition file_phase (files : list UploadedFile) (x : string) : option Phase :=
  option_map phase (List.find (has_id x) files).

(** The effect of one instruction on the phase of id [x]. *)
Definition phase_after (x : string) (i : Instr) (ph : option Phase) : option Phase :=
  match i with
  | IAppend g => if (id g === x)%js then match ph with None => Some (phase g) | Some _ => ph end else ph
  | ISetProgress y p => if (y === x)%js then option_map (fun a => (fst a, p)) ph else ph
  | ISetStatus y s p => if (y === x)%js then option_map (fun _ => (s, p)) ph else ph
  | ISleep _ | INotify _ => ph
  end.

Fixpoint run_phase (x : string) (t : list Instr) (ph : option Phase) : option Phase :=
  match t with [] => ph | i :: r => run_phase x r (phase_after x i ph) end.


(** ** The monitor *)






(** ** The machine as a boolean test *)



(** ** The phase of an id through the instructions *)









Lemma run_phase_app x a b ph : run_phase x (a ++ b) ph = run_phase x b (run_phase x a ph).
Proof. revert ph. induction a as [|i a IH]; intros ph; simpl; [done|apply IH]. Qed.


(** ** The monitor over concatenations, its phase, and resumption *)






(** ** One segment moves a phase by at most two steps *)








(** ** Instructions that do not concern [x] *)









(** ** [processFile] is accepted by the monitor *)










(** ** The invariant: one owner per id, and the monitor accepts every task *)











(** ** The steps of the uploader *)











(** ** Theorems *)


(** ** Witness and examples *)


(** The demo file's phase after its first two timers: the second write. *)
Example upload_demo_phase :
  file_phase (uploadedFiles (match fire_n 2 0 upload_demo with Some v => v | None => upload_demo end)) "f1" =
  Some (uploading, 10).
Proof. vm_compute. reflexivity. Qed.

(** The segment that ends the upload loop takes two steps of the machine:
    (Uploading, 90) to (Uploading, 100) to (Processing, 0). *)
Example upload_demo_two_steps :
  file_phase (uploadedFiles (match fire_n 10 0 upload_demo with Some v => v | None => upload_demo end)) "f1" =
    Some (uploading, 90) /\
  file_phase (uploadedFiles (match fire_n 11 0 upload_demo with Some v => v | None => upload_demo end)) "f1" =
    Some (processing, 0).
Proof. split; vm_compute; reflexivity. Qed.
