(* ===== verification/UploadView.v ===== *)
(** * UploadView: what the uploader renders (PDFUploader.tsx, lines 96-231)

    The drop area's heading (lines 153-155), and, when the list is not
    empty, the "Uploaded Documents (n)" heading and one row per file
    (lines 183-224): its key, name and size, the status icon of
    [getStatusIcon] (lines 96-106), the text of [getStatusText], and the
    progress bar, shown only while the file is uploading or processing.

    Theorems: in every reachable state the rows have distinct keys, no row
    shows the error icon or text, and every progress bar shows a value
    between 0 and 100. *)

From S2P Require Import Prelude JsString JsNumber Upload.
From stdpp Require Import pretty.
From Stdlib Require Import String.

Local Open Scope Z_scope.

Inductive StatusIcon := SpinnerIcon | CheckIcon | AlertIcon.

(** [getStatusIcon] (lines 96-106): [Loader2], [CheckCircle2] or [AlertCircle]. *)
Definition getStatusIcon (s : FileStatus) : StatusIcon :=
  match s with
  | uploading | processing => SpinnerIcon
  | completed => CheckIcon
  | error => AlertIcon
  end.

Record FileRow := mkFileRow {
  row_key : string;              (** [key={file.id}] *)
  row_name : string;
  row_size : string;
  row_icon : StatusIcon;
  row_text : string;
  row_progress : option Z        (** [<Progress value={file.progress} />] when shown *)
}.

(** One file, lines 184-224. *)
Definition file_row (g : UploadedFile) : FileRow :=
  mkFileRow (id g) (name g) (Upload.size g) (getStatusIcon (status g)) (getStatusText (status g))
            (if shows_progress g then Some (progress g) else None).

(** Lines 153-155. *)
Definition drop_heading (isDragActive : bool) : string :=
  if isDragActive then "Drop your PDFs here!" else "Upload your study materials".

Record UploaderView := mkUploaderView {
  uv_heading : string;
  uv_list : option (string * list FileRow)   (** lines 170-227 *)
}.

(** The render of lines 121-231. *)
Definition uploader_view (isDragActive : bool) (files : list UploadedFile) : UploaderView :=
  mkUploaderView (drop_heading isDragActive)
    (if Nat.ltb 0 (List.length files)
     then Some ("Uploaded Documents (" +:+ pretty (N.of_nat (List.length files)) +:+ ")", List.map file_row files)
     else None).

(** ** The rows of well-formed files *)

Definition row_ok (r : FileRow) : Prop :=
  row_icon r <> AlertIcon /\ row_text r <> "Error occurred" /\
  (forall p, row_progress r = Some p -> 0 <= p <= 100).

Lemma file_row_ok g : file_ok g -> row_ok (file_row g).
Proof.
  intros [Hs Hp]. unfold row_ok, file_row. simpl.
  split_and!; [by destruct (status g)|by destruct (status g)|].
  intros p. destruct (shows_progress g); [by intros [= <-]|done].
Qed.

Lemma row_keys files : List.map row_key (List.map file_row files) = List.map id files.
Proof. rewrite List.map_map. reflexivity. Qed.

Lemma reachable_files u :
  ureachable u -> Forall file_ok (uploadedFiles u) /\ NoDup (List.map id (uploadedFiles u)).
Proof.
  intros Hr. split.
  - by destruct (rtc_invariant ustep uploader_ok uploader_init u ustep_ok (conj (List.Forall_nil _) (List.Forall_nil _)) Hr).
  - pose proof (rtc_invariant ustep (fun v => NoDup (all_ids v)) uploader_init u ustep_ids (NoDup_nil_2) Hr) as H.
    unfold all_ids in H. by apply NoDup_app in H as [? _].
Qed.

(** ** Theorems *)

(** C32: the rendered file list is sound.  In every reachable state the
    list is shown exactly when there are files, headed by their count;
    its rows have distinct React keys, none shows the error icon or
    "Error occurred", and every progress bar shows a value in [0, 100]. *)
Theorem uploader_view_ok drag u :
  ureachable u ->
  match uv_list (uploader_view drag (uploadedFiles u)) with
  | None => uploadedFiles u = []
  | Some (heading, rows) =>
      heading = "Uploaded Documents (" +:+ pretty (N.of_nat (List.length (uploadedFiles u))) +:+ ")" /\
      NoDup (List.map row_key rows) /\ Forall row_ok rows
  end.
Proof.
  intros Hr. destruct (reachable_files u Hr) as [Hok Hn]. unfold uploader_view. cbn [uv_list].
  destruct (Nat.ltb_spec 0 (List.length (uploadedFiles u))) as [Hlt|Hge].
  - split_and!; [done|by rewrite row_keys|].
    apply List.Forall_map. eapply Forall_impl; [exact Hok|]. apply file_row_ok.
  - destruct (uploadedFiles u); [done|simpl in Hge; lia].
Qed.

Lemma uploader_view_ok_witness :
  ureachable upload_demo /\
  match uv_list (uploader_view false (uploadedFiles upload_demo)) with
  | None => uploadedFiles upload_demo = []
  | Some (heading, rows) =>
      heading = "Uploaded Documents (" +:+ pretty (N.of_nat (List.length (uploadedFiles upload_demo))) +:+ ")" /\
      NoDup (List.map row_key rows) /\ Forall row_ok rows
  end.
Proof. split; [apply upload_demo_reachable|]. apply uploader_view_ok, upload_demo_reachable. Defined.

(** The demo file's row while it uploads: a spinner, "Uploading...",
    its size "1.5 KB" and a bar at 0. *)
Example upload_demo_view :
  uploader_view false (uploadedFiles upload_demo) =
  mkUploaderView "Upload your study materials"
    (Some ("Uploaded Documents (1)", [mkFileRow "f1" "notes.pdf" "1.5 KB" SpinnerIcon "Uploading..." (Some 0)])).
Proof. vm_compute. reflexivity. Qed.
