(* ===== verification/System.v ===== *)
(** * System: the page with the uploader and the chat it mounts

    pages/StudyMate.tsx renders [PDFUploader] in the "upload" tab and
    [ChatInterface] in the "chat" tab when it has files.  The Tabs of
    components/ui mount only the active content, so leaving the upload tab
    unmounts the uploader and loses its file list.  Coming back mounts a
    fresh one.  The chat is likewise mounted anew each time it appears.  A
    task of an unmounted uploader keeps running: React ignores its
    [setUploadedFiles] calls, but its final [onFilesProcessed] still calls
    the page.  A reply timer of an unmounted chat fires with no effect.

    [System] holds the page, the mounted uploader (an [Upload.Uploader],
    reset to [uploader_init] when unmounted), the tasks of unmounted
    uploaders, the mounted chat (if any) and the count of reply timers of
    unmounted chats.  After every step, the notifications the uploader
    produced are delivered to [handleFilesProcessed] in order, and the
    children are mounted or unmounted to match the page's rendering.

    Theorems: the mounted children are exactly those the page renders, a
    child that stays mounted is not reset, and every step moves the
    mounted uploader by an [Upload.ustep] and the mounted chat by a
    [Chat.chat_step], so the component invariants hold in every reachable
    system state; the first drop of a session never makes the chat
    available; opening the chat tab unmounts the uploader and loses its
    list; on the upload tab, a drop on an uploader with no completed file
    erases the page's documents, whatever they were (the example
    [erase_cascade] runs a three-drop session that ends this way).
    [sys_run] runs a list of events and [run_ok] checks that each can
    happen with fresh ids, which gives reachability by computation. *)

From S2P Require Import Prelude JsString JsNumber Upload Chat Page.

Record System := mkSys {
  page : PageState;
  up : Uploader;                       (** the mounted uploader *)
  dead_tasks : list (list Instr);      (** tasks of unmounted uploaders *)
  chat : option ChatState;             (** the mounted chat *)
  dead_replies : nat                   (** reply timers of unmounted chats *)
}.

Definition sys_init : System := mkSys page_init uploader_init [] None 0.

Definition set_page (p : PageState) (s : System) : System :=
  mkSys p (up s) (dead_tasks s) (chat s) (dead_replies s).

Definition set_up (u : Uploader) (s : System) : System :=
  mkSys (page s) u (dead_tasks s) (chat s) (dead_replies s).

(** Mount and unmount the children after the page went from [old] to
    [page s]; [now] is the [new Date()] of a freshly mounted chat. *)
Definition sync (now : N) (old : PageState) (s : System) : System :=
  let s1 :=
    if (uploader_mounted old && negb (uploader_mounted (page s)))%bool
    then mkSys (page s) uploader_init (dead_tasks s ++ tasks (up s)) (chat s) (dead_replies s)
    else s in
  match chat s1, chat_mounted (page s1) with
  | Some c, false => mkSys (page s1) (up s1) (dead_tasks s1) None (dead_replies s1 + pending c)
  | None, true => mkSys (page s1) (up s1) (dead_tasks s1) (Some (chat_init now)) (dead_replies s1)
  | _, _ => s1
  end.

(** A page update followed by the mounting it causes. *)
Definition page_update (now : N) (p : PageState) (s : System) : System :=
  sync now (page s) (set_page p s).

(** One [onFilesProcessed(files)] call: the page's [handleFilesProcessed]. *)
Definition deliver_one (now : N) (s : System) (fs : list UploadedFile) : System :=
  page_update now (handleFilesProcessed fs (page s)) s.

(** Deliver [onFilesProcessed] calls to the page, in order. *)
Definition deliver (now : N) (notes : list (list UploadedFile)) (s : System) : System :=
  List.fold_left (deliver_one now) notes s.

(** After an uploader step: keep its state, deliver what it sent. *)
Definition after_upload (now : N) (u : Uploader) (s : System) : System :=
  deliver now (outbox u) (set_up (clear_outbox u) s).

(** A timer of an unmounted uploader: only its notifications matter. *)
Definition fire_dead (now : N) (k : nat) (s : System) : option System :=
  match dead_tasks s !! k with
  | Some (ISleep _ :: rest) =>
      let '(_, out, rest') := run_segment rest [] [] in
      Some (deliver now out
              (mkSys (page s) (up s) (take k (dead_tasks s) ++ keep_task rest' ++ drop (S k) (dead_tasks s))
                     (chat s) (dead_replies s)))
  | _ => None
  end.

Inductive SysEvent :=
| SPage (now : N) (e : PageEvent)                        (** a page control *)
| SDrop (now : N) (dropped : list (string * JsFile))     (** files dropped on the uploader *)
| SRemove (fid : string)                                 (** a file's remove button *)
| SUploadTimer (now : N) (k : nat)                       (** a timer of the mounted uploader *)
| SDeadUploadTimer (now : N) (k : nat)                   (** a timer of an unmounted uploader *)
| SChat (e : ChatEvent)                                  (** an event of the mounted chat *)
| SDeadReply.                                            (** a reply timer of an unmounted chat *)

Definition sys_handle (e : SysEvent) (s : System) : option System :=
  match e with
  | SPage now (PgFilesProcessed _) => None
  | SPage now pe =>
      match page_handle pe (page s) with
      | Some p => Some (page_update now p s)
      | None => None
      end
  | SDrop now dropped =>
      if uploader_mounted (page s) then Some (after_upload now (drop_files dropped (up s)) s) else None
  | SRemove fid =>
      if (uploader_mounted (page s) && bool_decide (fid ∈ List.map id (uploadedFiles (up s))))%bool
      then Some (set_up (remove fid (up s)) s) else None
  | SUploadTimer now k =>
      match fire k (up s) with
      | Some u => Some (after_upload now u s)
      | None => None
      end
  | SDeadUploadTimer now k => fire_dead now k s
  | SChat ce =>
      match chat s with
      | Some c => match chat_handle ce c with
                  | Some c' => Some (mkSys (page s) (up s) (dead_tasks s) (Some c') (dead_replies s))
                  | None => None
                  end
      | None => None
      end
  | SDeadReply =>
      match dead_replies s with
      | S n => Some (mkSys (page s) (up s) (dead_tasks s) (chat s) n)
      | O => None
      end
  end.

(** A drop draws fresh ids ([Date.now() + Math.random()]). *)
Definition step_ok (e : SysEvent) (s : System) : Prop :=
  match e with SDrop _ dropped => fresh_ids (up s) (List.map fst dropped) | _ => True end.

#[export] Instance step_ok_dec e s : Decision (step_ok e s).
Proof. destruct e; unfold step_ok, fresh_ids; apply _. Defined.

Definition sys_step (s s' : System) : Prop := exists e, sys_handle e s = Some s' /\ step_ok e s.

Definition sys_reachable (s : System) : Prop := rtc sys_step sys_init s.

(** ** The system refines its components *)

(** How the mounted uploader may change in one system step. *)
Definition up_moves (u u' : Uploader) : Prop :=
  u' = u \/ u' = uploader_init \/ exists v, ustep u v /\ (u' = v \/ u' = clear_outbox v).

(** How the mounted chat may change in one system step. *)
Definition chat_moves (c c' : option ChatState) : Prop :=
  c' = c \/ c' = None \/ (exists now, c' = Some (chat_init now)) \/
  exists x x', c = Some x /\ c' = Some x' /\ chat_step x x'.

Lemma sync_up now old s : up (sync now old s) = up s \/ up (sync now old s) = uploader_init.
Proof.
  unfold sync. destruct (_ && _)%bool; simpl;
    [destruct (chat _) as [c|], (chat_mounted _); simpl; auto|].
  destruct (chat s) as [c|], (chat_mounted _); simpl; auto.
Qed.

Lemma sync_chat now old s :
  chat (sync now old s) = chat s \/ chat (sync now old s) = None \/ chat (sync now old s) = Some (chat_init now).
Proof.
  unfold sync. destruct (_ && _)%bool; simpl;
    destruct (chat s) as [c|] eqn:Ec; simpl; destruct (chat_mounted _); simpl; rewrite ?Ec; auto.
Qed.

Lemma deliver_up now notes s : up (deliver now notes s) = up s \/ up (deliver now notes s) = uploader_init.
Proof.
  revert s. induction notes as [|fs notes IH]; intros s; simpl; [by left|].
  destruct (IH (deliver_one now s fs)) as [H|H]; rewrite H; [|by right].
  unfold deliver_one, page_update.
  match goal with |- context [sync now (page s) ?x] => destruct (sync_up now (page s) x) as [H'|H'] end;
    rewrite H'; auto.
Qed.

Lemma deliver_chat now notes s :
  chat (deliver now notes s) = chat s \/ chat (deliver now notes s) = None \/
  chat (deliver now notes s) = Some (chat_init now).
Proof.
  revert s. induction notes as [|fs notes IH]; intros s; simpl; [by left|].
  destruct (IH (deliver_one now s fs)) as [H|[H|H]]; rewrite H; auto.
  unfold deliver_one, page_update. exact (sync_chat now (page s) (set_page _ s)).
Qed.

Lemma page_update_moves now p s :
  up_moves (up s) (up (page_update now p s)) /\ chat_moves (chat s) (chat (page_update now p s)).
Proof.
  unfold page_update, up_moves, chat_moves.
  destruct (sync_up now (page s) (set_page p s)) as [H|H], (sync_chat now (page s) (set_page p s)) as [H'|[H'|H']];
    simpl in H, H'; rewrite H, H'; eauto 10.
Qed.

Lemma after_upload_moves now u s :
  ustep (up s) u ->
  up_moves (up s) (up (after_upload now u s)) /\ chat_moves (chat s) (chat (after_upload now u s)).
Proof.
  intros Hs. unfold after_upload, up_moves, chat_moves. split.
  - destruct (deliver_up now (outbox u) (set_up (clear_outbox u) s)) as [H|H]; rewrite H; [|by auto].
    right; right. exists u. split; [done|by right].
  - destruct (deliver_chat now (outbox u) (set_up (clear_outbox u) s)) as [H|[H|H]]; rewrite H; eauto.
Qed.

Lemma fire_dead_moves now k s s' :
  fire_dead now k s = Some s' -> up_moves (up s) (up s') /\ chat_moves (chat s) (chat s').
Proof.
  unfold fire_dead, up_moves, chat_moves. destruct (dead_tasks s !! k) as [[|[] rest]|]; try discriminate.
  destruct (run_segment rest [] []) as [[f o] r]. intros [= <-].
  destruct (deliver_up now o (mkSys (page s) (up s) (take k (dead_tasks s) ++ keep_task r ++ drop (S k) (dead_tasks s)) (chat s) (dead_replies s))) as [H|H],
    (deliver_chat now o (mkSys (page s) (up s) (take k (dead_tasks s) ++ keep_task r ++ drop (S k) (dead_tasks s)) (chat s) (dead_replies s))) as [H'|[H'|H']];
    simpl in H, H'; rewrite H, H'; eauto 10.
Qed.

Lemma sys_step_moves s s' :
  sys_step s s' -> up_moves (up s) (up s') /\ chat_moves (chat s) (chat s').
Proof.
  intros [e [He Hf]]. destruct e as [now pe|now dropped|fid|now k|now k|ce|]; simpl in He.
  - destruct pe; [..|discriminate]; destruct (page_handle _ _); try discriminate;
      injection He as <-; apply page_update_moves.
  - destruct (uploader_mounted _); [|discriminate]. injection He as <-.
    apply after_upload_moves. by constructor.
  - destruct (_ && _)%bool; [|discriminate]. injection He as <-. unfold up_moves, chat_moves. simpl.
    split; [|by left]. right; right. exists (remove fid (up s)). split; [constructor|by left].
  - destruct (fire k (up s)) eqn:Hk; [|discriminate]. injection He as <-.
    apply after_upload_moves. by econstructor.
  - by apply (fire_dead_moves now k).
  - destruct (chat s) as [c|] eqn:Hc; [|discriminate]. destruct (chat_handle ce c) as [c'|] eqn:Hce; [|discriminate].
    injection He as <-. unfold up_moves, chat_moves. simpl. split; [by left|].
    right; right; right. exists c, c'. split_and!; [done|done|by exists ce].
  - destruct (dead_replies s); [discriminate|]. injection He as <-. unfold up_moves, chat_moves. simpl. auto.
Qed.

(** ** The component invariants hold in every reachable state *)

Definition sys_inv (s : System) : Prop :=
  uploader_ok (up s) /\ NoDup (all_ids (up s)) /\ (forall c, chat s = Some c -> chat_inv c).

Lemma up_moves_inv u u' :
  up_moves u u' -> uploader_ok u /\ NoDup (all_ids u) -> uploader_ok u' /\ NoDup (all_ids u').
Proof.
  intros [->|[->|(v & Hs & [->| ->])]] [Hok Hn]; [done| |..].
  - split; [split|]; constructor.
  - split; [exact (ustep_ok _ _ Hs Hok)|exact (ustep_ids _ _ Hs Hn)].
  - split; [exact (ustep_ok _ _ Hs Hok)|exact (ustep_ids _ _ Hs Hn)].
Qed.

Lemma chat_moves_inv c c' :
  chat_moves c c' -> (forall x, c = Some x -> chat_inv x) -> forall x, c' = Some x -> chat_inv x.
Proof.
  intros [->|[->|[[now ->]|(x & x' & -> & -> & Hs)]]] Hi y Hy; simplify_eq; auto.
  - apply chat_init_inv.
  - eapply chat_step_inv; [exact Hs|by apply Hi].
Qed.

Lemma sys_step_inv s s' : sys_step s s' -> sys_inv s -> sys_inv s'.
Proof.
  intros Hs (Hok & Hn & Hc). destruct (sys_step_moves s s' Hs) as [Hu Hch].
  destruct (up_moves_inv _ _ Hu (conj Hok Hn)). split_and!; [done|done|].
  exact (chat_moves_inv _ _ Hch Hc).
Qed.

(** C12: the uploader and chat invariants hold in the composed page, across
    every interleaving of page controls, drops, removals, timers of
    mounted and unmounted children, chat events and remounts: the listed
    files are well formed and have distinct ids, and a mounted chat shows
    a placeholder exactly while it waits for a reply, as its last
    message. *)
Theorem sys_components_ok s :
  sys_reachable s ->
  Forall file_ok (uploadedFiles (up s)) /\ NoDup (List.map id (uploadedFiles (up s))) /\
  (forall c, chat s = Some c ->
   List.length (List.filter isTyping (messages c)) = (if isLoading c then 1 else 0)%nat /\
   (forall m, In m (messages c) -> isTyping m = true -> last (messages c) = Some m)).
Proof.
  intros Hr. destruct (rtc_invariant sys_step sys_inv sys_init s sys_step_inv) as ([Hf _] & Hn & Hc); [|done|].
  - split_and!; [split; constructor|constructor|done].
  - split_and!; [done|unfold all_ids in Hn; by apply NoDup_app in Hn as [? _]|].
    intros c Hsc. destruct (chat_inv_placeholders c (Hc c Hsc)) as (? & _ & ?). done.
Qed.

(** ** The mounted children are those the page renders *)

(** A chat is mounted exactly when the page renders [ChatInterface], and
    an uploader the page does not render holds no state. *)
Definition mount_ok (s : System) : Prop :=
  (is_Some (chat s) <-> chat_mounted (page s) = true) /\
  (uploader_mounted (page s) = false -> up s = uploader_init).

Lemma sync_mount_ok now old s :
  (uploader_mounted old = false -> up s = uploader_init) -> mount_ok (sync now old s).
Proof.
  intros Hu. unfold sync, mount_ok.
  destruct (uploader_mounted old && negb (uploader_mounted (page s)))%bool eqn:E; cbn [chat page up];
    destruct (chat s) as [c|] eqn:Hc, (chat_mounted (page s)) eqn:Ec; cbn [chat page up]; rewrite ?Hc, ?Ec;
    (split; [split; intros H; try done; try (by destruct H); by eexists|]); intros Hp; try done;
    apply Hu; apply andb_false_iff in E as [E|E]; try done; by rewrite Hp in E.
Qed.

Lemma page_update_mount_ok now p s : mount_ok s -> mount_ok (page_update now p s).
Proof. intros [_ Hu]. by apply sync_mount_ok. Qed.

Lemma deliver_mount_ok now notes s : mount_ok s -> mount_ok (deliver now notes s).
Proof.
  revert s. induction notes as [|fs notes IH]; intros s Hs; [done|]. apply IH. by apply page_update_mount_ok.
Qed.

Lemma set_up_mount_ok u s : uploader_mounted (page s) = true -> mount_ok s -> mount_ok (set_up u s).
Proof. intros Hm [Hc _]. split; [done|]. simpl. by rewrite Hm. Qed.

Lemma fire_uploader_init k : fire k uploader_init = None.
Proof. unfold fire. simpl. by destruct k. Qed.

(** A timer of the mounted uploader needs an uploader with tasks. *)
Lemma fire_mounted s k u : mount_ok s -> fire k (up s) = Some u -> uploader_mounted (page s) = true.
Proof.
  intros [_ Hu] Hf. destruct (uploader_mounted (page s)) eqn:E; [done|].
  by rewrite (Hu eq_refl), fire_uploader_init in Hf.
Qed.

Lemma sys_handle_mount_ok e s s' : sys_handle e s = Some s' -> mount_ok s -> mount_ok s'.
Proof.
  intros He Hs. destruct e as [now pe|now dropped|fid|now k|now k|ce|]; simpl in He.
  - destruct pe; [..|discriminate]; destruct (page_handle _ _); try discriminate;
      injection He as <-; by apply page_update_mount_ok.
  - destruct (uploader_mounted _) eqn:Hm; [|discriminate]. injection He as <-.
    by apply deliver_mount_ok, set_up_mount_ok.
  - destruct (_ && _)%bool eqn:Hm; [|discriminate]. injection He as <-.
    apply andb_true_iff in Hm as [Hm _]. by apply set_up_mount_ok.
  - destruct (fire k (up s)) eqn:Hk; [|discriminate]. injection He as <-.
    by apply deliver_mount_ok, set_up_mount_ok; [apply (fire_mounted s k u)|].
  - unfold fire_dead in He. destruct (dead_tasks s !! k) as [[|[] rest]|]; try discriminate.
    destruct (run_segment rest [] []) as [[f o] r]. injection He as <-. by apply deliver_mount_ok.
  - destruct (chat s) as [c|] eqn:Hc; [|discriminate]. destruct (chat_handle ce c); [|discriminate].
    injection He as <-. destruct Hs as [Hc' Hu]. rewrite Hc in Hc'. split; [|done]. simpl. rewrite <- Hc'. done.
  - destruct (dead_replies s); [discriminate|]. injection He as <-. done.
Qed.

Lemma sys_reachable_mount_ok s : sys_reachable s -> mount_ok s.
Proof.
  apply (rtc_invariant sys_step mount_ok sys_init s); [|split; [split; [by intros []|done]|done]].
  intros a b [e [He _]]. exact (sys_handle_mount_ok e a b He).
Qed.

(** ** A child that stays mounted is not reset *)

Lemma page_update_page now p s : page (page_update now p s) = p.
Proof. unfold page_update, sync. by repeat case_match. Qed.

Lemma page_update_up now p s : uploader_mounted p = true -> up (page_update now p s) = up s.
Proof.
  intros Hp. unfold page_update, sync. cbn [page set_page]. rewrite Hp, andb_false_r.
  by destruct (chat _), (chat_mounted _).
Qed.

Lemma page_update_chat now p s c :
  chat s = Some c -> chat_mounted p = true -> chat (page_update now p s) = Some c.
Proof.
  intros Hc Hp. unfold page_update, sync. cbn [page set_page].
  destruct (_ && _)%bool; simpl; rewrite ?Hc; simpl; by rewrite ?Hp.
Qed.

(** [handleFilesProcessed] never opens the upload tab. *)
Lemma handleFilesProcessed_uploader fs p :
  uploader_mounted (handleFilesProcessed fs p) = true -> uploader_mounted p = true.
Proof.
  rewrite !uploader_mounted_spec. unfold handleFilesProcessed. cbn [showMainApp activeTab].
  by destruct (Nat.ltb _ _); [rewrite andb_false_r|].
Qed.

Lemma deliver_cons now fs notes s : deliver now (fs :: notes) s = deliver now notes (deliver_one now s fs).
Proof. reflexivity. Qed.

Lemma deliver_up_mounted now notes s :
  uploader_mounted (page (deliver now notes s)) = true ->
  up (deliver now notes s) = up s /\ uploader_mounted (page s) = true.
Proof.
  revert s. induction notes as [|fs notes IH]; intros s H; [done|]. rewrite deliver_cons in H |- *.
  destruct (IH _ H) as [H1 H2]. unfold deliver_one in H1, H2 |- *. rewrite page_update_page in H2.
  rewrite H1, page_update_up by done. split; [done|]. by apply (handleFilesProcessed_uploader fs).
Qed.

Lemma chat_mounted_not_uploader p : chat_mounted p = true -> uploader_mounted p = false.
Proof. unfold chat_mounted, uploader_mounted. by destruct (render p) as [|? ? []]. Qed.

Lemma sys_handle_up e s s' :
  mount_ok s -> step_ok e s -> sys_handle e s = Some s' -> uploader_mounted (page s') = true ->
  up s' = up s \/ exists v, ustep (up s) v /\ (up s' = v \/ up s' = clear_outbox v).
Proof.
  intros Hs Hok He Hm. destruct e as [now pe|now dropped|fid|now k|now k|ce|]; simpl in He.
  - destruct pe; [..|discriminate]; destruct (page_handle _ _) as [p|]; try discriminate;
      injection He as <-; rewrite page_update_page in Hm; left; by apply page_update_up.
  - destruct (uploader_mounted _); [|discriminate]. injection He as <-. unfold after_upload in *.
    rewrite (proj1 (deliver_up_mounted _ _ _ Hm)). right. eexists. split; [by constructor|by right].
  - destruct (_ && _)%bool; [|discriminate]. injection He as <-. right. eexists. split; [constructor|by left].
  - destruct (fire k (up s)) eqn:Hk; [|discriminate]. injection He as <-. unfold after_upload in *.
    rewrite (proj1 (deliver_up_mounted _ _ _ Hm)). right. eexists. split; [by econstructor|by right].
  - unfold fire_dead in He. destruct (dead_tasks s !! k) as [[|[] rest]|]; try discriminate.
    destruct (run_segment rest [] []) as [[f o] r]. injection He as <-. left.
    exact (proj1 (deliver_up_mounted _ _ _ Hm)).
  - destruct (chat s); [|discriminate]. destruct (chat_handle _ _); [|discriminate]. injection He as <-. by left.
  - destruct (dead_replies s); [discriminate|]. injection He as <-. by left.
Qed.

Lemma sys_handle_chat e s s' c :
  mount_ok s -> sys_handle e s = Some s' -> chat s = Some c -> chat_mounted (page s') = true ->
  (forall now k, e <> SDeadUploadTimer now k) ->
  chat s' = Some c \/ exists c', chat s' = Some c' /\ chat_step c c'.
Proof.
  intros Hs He Hc Hm Hd. pose proof (chat_mounted_not_uploader (page s) (proj1 (proj1 Hs) ltac:(by rewrite Hc))) as Hu.
  destruct e as [now pe|now dropped|fid|now k|now k|ce|]; simpl in He.
  - destruct pe; [..|discriminate]; destruct (page_handle _ _) as [p|]; try discriminate;
      injection He as <-; rewrite page_update_page in Hm; left; by apply page_update_chat.
  - by rewrite Hu in He.
  - rewrite Hu in He. discriminate.
  - destruct (fire k (up s)) eqn:Hk; [|discriminate]. by rewrite (fire_mounted s k u Hs Hk) in Hu.
  - by destruct (Hd now k).
  - rewrite Hc in He. destruct (chat_handle ce c) as [c'|] eqn:Hce; [|discriminate]. injection He as <-.
    right. exists c'. split; [done|by exists ce].
  - destruct (dead_replies s); [discriminate|]. injection He as <-. by left.
Qed.

(** ** The first drop of a session *)

(** Run events in order; [None] when one of them cannot happen. *)
Fixpoint sys_run (es : list SysEvent) (s : System) : option System :=
  match es with
  | [] => Some s
  | e :: es' => match sys_handle e s with Some s' => sys_run es' s' | None => None end
  end.

Definition is_drop (e : SysEvent) : bool := match e with SDrop _ _ => true | _ => false end.

Lemma sys_run_reach es s s' :
  Forall (fun e => is_drop e = false) es -> sys_run es s = Some s' -> rtc sys_step s s'.
Proof.
  intros Hd. revert s. induction Hd as [|e es He _ IH]; intros s Hr; simpl in Hr.
  - injection Hr as <-. apply rtc_refl.
  - destruct (sys_handle e s) as [s1|] eqn:Hs; [|discriminate].
    apply rtc_l with s1; [|by apply IH]. exists e. split; [done|by destruct e].
Qed.

(** The main app on the upload tab with no document reported. *)
Definition page_upload : PageState := mkPage true [] "upload".

(** Delivering empty reports to the main app on the upload tab: the
    first one empties the page's document list, which is all they do. *)
Lemma deliver_empty now notes s P :
  Forall (fun fs => fs = []) notes -> page s = mkPage true P "upload" -> chat s = None ->
  deliver now notes s = match notes with [] => s | _ => set_page page_upload s end.
Proof.
  intros Hn. revert s P. induction Hn as [|fs notes -> Hn IH]; intros s P Hp Hc; [done|].
  rewrite deliver_cons.
  assert (Hq : deliver_one now s [] = set_page page_upload s)
    by (destruct s as [p u dt c dr]; simpl in Hp, Hc; subst; reflexivity).
  rewrite Hq, (IH (set_page page_upload s) [] eq_refl Hc). destruct notes; [done|]. by destruct s.
Qed.

(** Timers of the mounted uploader on that page that report only empty
    lists change the uploader, and the page as the reports do. *)
Lemma sys_timers_empty now k n s v P :
  page s = mkPage true P "upload" -> chat s = None -> outbox (up s) = [] ->
  fire_n n k (up s) = Some v -> Forall (fun fs => fs = []) (outbox v) ->
  sys_run (repeat (SUploadTimer now k) n) s =
  Some (set_up (clear_outbox v) (match outbox v with [] => s | _ => set_page page_upload s end)).
Proof.
  revert s v P. induction n as [|n IH]; intros s v P Hp Hc Ho Hf Hv.
  - injection Hf as <-. destruct s as [p [f t o] dt c dr]; simpl in *; subst. reflexivity.
  - cbn [fire_n] in Hf. destruct (fire k (up s)) as [[f1 t1 o1]|] eqn:Hk; [|discriminate].
    pose proof (fire_n_out n k f1 t1 o1) as Hn. rewrite Hf in Hn.
    destruct (fire_n n k (mkUploader f1 t1 [])) as [w|] eqn:Hw; [|discriminate].
    injection Hn as ->. simpl in Hv. apply Forall_app in Hv as [Hv1 Hv2].
    cbn [repeat sys_run sys_handle]. rewrite Hk. cbv beta iota. unfold after_upload at 1. cbn [outbox].
    set (s2 := set_up (clear_outbox (mkUploader f1 t1 o1)) s).
    rewrite (deliver_empty now o1 s2 P Hv1 Hp Hc).
    destruct o1 as [|fs o1].
    + rewrite (IH s2 w P Hp Hc eq_refl Hw Hv2). destruct s as [p u dt c dr]; simpl. by destruct (outbox w).
    + rewrite (IH (set_page page_upload s2) w [] eq_refl Hc eq_refl Hw Hv2).
      destruct s as [p u dt c dr]; simpl. by destruct (outbox w).
Qed.

(** One PDF dropped on an idle uploader mounted on the upload tab, whose
    files include none completed, and its 17 timers: the page's document
    list is replaced by the empty report, the uploader lists the new file
    completed, and nothing else changes. *)
Lemma drop_one_file_sys now fid f s P :
  page s = mkPage true P "upload" -> chat s = None -> tasks (up s) = [] -> outbox (up s) = [] ->
  completedFiles (uploadedFiles (up s)) = [] -> isPdfAccepted f = true ->
  fid ∉ List.map id (uploadedFiles (up s)) ->
  sys_run (SDrop now [(fid, f)] :: repeat (SUploadTimer now 0) 17) s =
  Some (mkSys page_upload (mkUploader (uploadedFiles (up s) ++ [set_status completed 100 (newFile fid f)]) [] [])
              (dead_tasks s) None (dead_replies s)).
Proof.
  intros Hp Hc Ht Ho Hcomp Hacc Hn.
  pose proof (drop_one_file_run (up s) fid f Ht Hacc Hn) as Hd. rewrite Ho, Hcomp in Hd.
  remember (drop_files [(fid, f)] (up s)) as d eqn:Ed. destruct d as [df dt do].
  pose proof (fire_n_out 17 0 df dt do) as Hfo. rewrite Hd in Hfo.
  destruct (fire_n 17 0 (mkUploader df dt [])) as [w|] eqn:Hw; [|discriminate].
  injection Hfo as Hwf Hwt Hwo.
  assert (Hq : Forall (fun fs : list UploadedFile => fs = []) (do ++ outbox w))
    by (rewrite <- Hwo; repeat constructor).
  apply Forall_app in Hq as [Hq1 Hq2].
  assert (Hm : uploader_mounted (page s) = true) by (rewrite Hp; reflexivity).
  cbn [sys_run sys_handle]. rewrite Hm, <- Ed. cbv beta iota. unfold after_upload at 1. cbn [outbox].
  set (s2 := set_up (clear_outbox (mkUploader df dt do)) s).
  rewrite (deliver_empty now do s2 P Hq1 Hp Hc).
  destruct w as [wf wt wo]. simpl in Hwf, Hwt, Hw. subst wf wt. destruct do as [|fs do].
  - rewrite (sys_timers_empty now 0 17 s2 _ P Hp Hc eq_refl Hw Hq2). simpl in Hwo |- *. subst wo.
    destruct s as [p u dts c dr]; simpl in *; subst. reflexivity.
  - rewrite (sys_timers_empty now 0 17 (set_page page_upload s2) _ [] eq_refl Hc eq_refl Hw Hq2).
    simpl in Hwo. injection Hwo as _ Hwo. symmetry in Hwo. apply app_eq_nil in Hwo as [-> ->].
    destruct s as [p u dts c dr]; simpl in *; subst. reflexivity.
Qed.

Definition first_drop_events (now : N) (fid : string) (f : JsFile) : list SysEvent :=
  [SPage now PgGetStarted; SDrop now [(fid, f)]] ++ repeat (SUploadTimer now 0) 17.

Definition first_drop_state (fid : string) (f : JsFile) : System :=
  mkSys page_upload (mkUploader [set_status completed 100 (newFile fid f)] [] []) [] None 0.

Lemma first_drop_run now fid f :
  isPdfAccepted f = true -> sys_run (first_drop_events now fid f) sys_init = Some (first_drop_state fid f).
Proof.
  intros Hacc. unfold first_drop_events. cbn [sys_run app].
  assert (H1 : sys_handle (SPage now PgGetStarted) sys_init = Some (mkSys page_upload uploader_init [] None 0))
    by reflexivity.
  rewrite H1. exact (drop_one_file_sys now fid f (mkSys page_upload uploader_init [] None 0) [] eq_refl eq_refl eq_refl eq_refl eq_refl Hacc (not_elem_of_nil _)).
Qed.

Lemma first_drop_reachable fid f : isPdfAccepted f = true -> sys_reachable (first_drop_state fid f).
Proof.
  intros Hacc. pose proof (first_drop_run 0 fid f Hacc) as Hr. unfold first_drop_events in Hr.
  cbn [sys_run app] in Hr.
  destruct (sys_handle (SPage 0 PgGetStarted) sys_init) as [s1|] eqn:H1; [|discriminate].
  destruct (sys_handle (SDrop 0 [(fid, f)]) s1) as [s2|] eqn:H2; [|discriminate].
  apply rtc_l with s1; [by exists (SPage 0 PgGetStarted)|].
  apply rtc_l with s2.
  - exists (SDrop 0 [(fid, f)]). split; [done|]. injection H1 as <-. simpl.
    split; [apply NoDup_singleton|]. repeat constructor; set_solver.
  - refine (sys_run_reach _ _ _ _ Hr).
    apply List.Forall_forall. intros e He. apply repeat_spec in He. by subst.
Qed.

(** Whether every drop of an event sequence draws fresh ids and every
    event can happen. *)
Fixpoint run_ok (es : list SysEvent) (s : System) : bool :=
  match es with
  | [] => true
  | e :: es' => (bool_decide (step_ok e s) &&
                 match sys_handle e s with Some s' => run_ok es' s' | None => false end)%bool
  end.

Lemma run_ok_reach es s s' : run_ok es s = true -> sys_run es s = Some s' -> rtc sys_step s s'.
Proof.
  revert s. induction es as [|e es IH]; intros s Hok Hr; simpl in *.
  - injection Hr as <-. apply rtc_refl.
  - apply andb_true_iff in Hok as [He Hok]. apply bool_decide_eq_true in He.
    destruct (sys_handle e s) as [s1|] eqn:Hs; [|discriminate].
    apply rtc_l with s1; [by exists e|]. by apply IH.
Qed.

(** ** Theorems on the composed page *)

(** C10: the first drop of a session never enables the chat.  From the
    hero, "Get Started" and one accepted PDF dropped, whatever its id and
    file: after the 17 timer firings the file is listed as completed, but
    the one [onFilesProcessed] call reported the empty list captured at
    drop time, so the page still has no document, stays on the upload
    tab without a count, and its chat tab says "No documents uploaded
    yet". *)
Theorem first_drop_no_chat now fid f :
  isPdfAccepted f = true ->
  sys_run (first_drop_events now fid f) sys_init = Some (first_drop_state fid f) /\
  sys_reachable (first_drop_state fid f) /\
  uploadedFiles (up (first_drop_state fid f)) = [set_status completed 100 (newFile fid f)] /\
  render (page (first_drop_state fid f)) = MainView "upload" None UploadContent /\
  render (setActiveTab "chat" (page (first_drop_state fid f))) = MainView "chat" None ChatEmpty.
Proof.
  intros Hacc. split; [by apply first_drop_run|]. split; [by apply first_drop_reachable|]. done.
Qed.

(** C14: leaving the upload tab loses the uploader's state.  When the
    mounted uploader's page switches to another tab, the uploader is
    unmounted: a later return mounts an empty one, and its running tasks
    continue unmounted. *)
Theorem tab_switch_unmounts_uploader now v s s' :
  sys_handle (SPage now (PgSelectTab v)) s = Some s' ->
  uploader_mounted (page s) = true -> v <> "upload" ->
  up s' = uploader_init /\ dead_tasks s' = dead_tasks s ++ tasks (up s).
Proof.
  intros H Hm Hv. rewrite uploader_mounted_spec in Hm. apply andb_true_iff in Hm as [Hs Ht].
  cbn [sys_handle page_handle] in H.
  assert (Hr : exists b c, render (page s) = MainView (activeTab (page s)) b c)
    by (unfold render; rewrite Hs; simpl; eauto).
  destruct Hr as (b & c & Hr). rewrite Hr in H. case_bool_decide as Hin; [|discriminate].
  injection H as <-.
  assert (v = "chat") as ->
    by (apply elem_of_cons in Hin as [->|Hin]; [done|by apply list_elem_of_singleton in Hin]).
  unfold page_update, sync. rewrite !uploader_mounted_spec. simpl. rewrite Hs, Ht. simpl.
  destruct (chat s), (chat_mounted _); simpl; auto.
Qed.

(** C11: the mounted children follow the page's rendering.  After every
    step from a reachable state, a chat is mounted exactly when the page
    renders [ChatInterface], and an uploader the page does not render
    holds no files and no tasks.  A mounted uploader is never reset: it
    has taken one [Upload.ustep] or stayed as it was.  A chat mounted
    before and after a step that is not the timer of an unmounted
    uploader is not remounted: it has taken one [Chat.chat_step] or
    stayed as it was. *)
Theorem sys_step_mounts e s s' :
  sys_reachable s -> step_ok e s -> sys_handle e s = Some s' ->
  (is_Some (chat s') <-> chat_mounted (page s') = true) /\
  (uploader_mounted (page s') = false -> up s' = uploader_init) /\
  (uploader_mounted (page s') = true ->
   up s' = up s \/ exists v, ustep (up s) v /\ (up s' = v \/ up s' = clear_outbox v)) /\
  (forall c, chat s = Some c -> chat_mounted (page s') = true -> (forall now k, e <> SDeadUploadTimer now k) ->
   chat s' = Some c \/ exists c', chat s' = Some c' /\ chat_step c c').
Proof.
  intros Hr Hok He. pose proof (sys_reachable_mount_ok s Hr) as Hs.
  destruct (sys_handle_mount_ok e s s' He Hs) as [Hc Hu]. split_and!; [done|done| |].
  - by apply (sys_handle_up e s s').
  - intros c. by apply (sys_handle_chat e s s' c).
Qed.

(** C13: a drop erases the page's documents.  On the upload tab, one PDF
    dropped on a mounted uploader that is idle and has no completed file
    (as after every remount), followed by its 17 timers: the uploader
    then lists the new file completed, but its one report is the empty
    list captured at drop time, and [handleFilesProcessed] replaces the
    page's documents [P], whatever they were, by that empty list; the chat
    tab then says "No documents uploaded yet". *)
Theorem drop_erases_documents now fid f s P :
  page s = mkPage true P "upload" -> chat s = None -> tasks (up s) = [] -> outbox (up s) = [] ->
  completedFiles (uploadedFiles (up s)) = [] -> isPdfAccepted f = true ->
  fid ∉ List.map id (uploadedFiles (up s)) ->
  sys_run (SDrop now [(fid, f)] :: repeat (SUploadTimer now 0) 17) s =
  Some (mkSys (mkPage true [] "upload")
              (mkUploader (uploadedFiles (up s) ++ [set_status completed 100 (newFile fid f)]) [] [])
              (dead_tasks s) None (dead_replies s)) /\
  render (setActiveTab "chat" (mkPage true [] "upload")) = MainView "chat" None ChatEmpty.
Proof. intros. split; [by apply (drop_one_file_sys now fid f s P)|reflexivity]. Qed.

(** Three drops of one PDF each, as a user makes them: the second one
    enables the chat, the user goes back to the upload tab and drops a
    third file. *)
Definition timers_17 : list SysEvent := repeat (SUploadTimer 0 0) 17.

Definition cascade_to_chat : list SysEvent :=
  [SPage 0 PgGetStarted; SDrop 0 [("f1", notes_pdf)]] ++ timers_17 ++
  [SDrop 0 [("f2", notes_pdf)]] ++ timers_17.

Definition cascade_back : list SysEvent :=
  [SPage 0 (PgSelectTab "upload"); SDrop 0 [("f3", notes_pdf)]] ++ timers_17 ++
  [SPage 0 (PgSelectTab "chat")].

Definition cascade_mid : System :=
  mkSys (mkPage true [set_status completed 100 (newFile "f1" notes_pdf)] "chat") uploader_init []
        (Some (chat_init 0)) 0.

Definition cascade_end : System := mkSys (mkPage true [] "chat") uploader_init [] None 0.

(** Documents disappear from the chat.  In a session of three drops,
    the second drop's stale report enables the chat with one document
    (the first file); after the user returns to the upload tab and drops
    a third file, that upload's report is the empty list captured from
    the fresh uploader, which replaces the page's list: the chat tab then
    says "No documents uploaded yet" although three files were
    processed. *)
Example erase_cascade :
  sys_run cascade_to_chat sys_init = Some cascade_mid /\
  render (page cascade_mid) = MainView "chat" (Some 1%nat) (ChatContent (header_subtitle 1)) /\
  sys_run cascade_back cascade_mid = Some cascade_end /\
  render (page cascade_end) = MainView "chat" None ChatEmpty /\
  sys_reachable cascade_end.
Proof.
  split_and!; [vm_compute; reflexivity|reflexivity|vm_compute; reflexivity|reflexivity|].
  apply (run_ok_reach (cascade_to_chat ++ cascade_back)); vm_compute; reflexivity.
Qed.

(** ** Witnesses *)

Definition after_get_started : System := mkSys page_upload uploader_init [] None 0.

Definition mid_upload : System :=
  match sys_run [SPage 0 PgGetStarted; SDrop 0 [("f1", notes_pdf)]] sys_init with
  | Some s => s
  | None => sys_init
  end.

Definition mid_upload_chat : System :=
  match sys_handle (SPage 0 (PgSelectTab "chat")) mid_upload with Some s => s | None => sys_init end.

Lemma sys_step_mounts_witness :
  (sys_reachable mid_upload /\ step_ok (SPage 0 (PgSelectTab "chat")) mid_upload /\
   sys_handle (SPage 0 (PgSelectTab "chat")) mid_upload = Some mid_upload_chat) /\
  ((is_Some (chat mid_upload_chat) <-> chat_mounted (page mid_upload_chat) = true) /\
   (uploader_mounted (page mid_upload_chat) = false -> up mid_upload_chat = uploader_init) /\
   (uploader_mounted (page mid_upload_chat) = true ->
    up mid_upload_chat = up mid_upload \/
    exists v, ustep (up mid_upload) v /\ (up mid_upload_chat = v \/ up mid_upload_chat = clear_outbox v)) /\
   (forall c, chat mid_upload = Some c -> chat_mounted (page mid_upload_chat) = true ->
    (forall now k, SPage 0 (PgSelectTab "chat") <> SDeadUploadTimer now k) ->
    chat mid_upload_chat = Some c \/ exists c', chat mid_upload_chat = Some c' /\ chat_step c c')).
Proof.
  assert (H1 : sys_reachable mid_upload)
    by (apply (run_ok_reach [SPage 0 PgGetStarted; SDrop 0 [("f1", notes_pdf)]]); vm_compute; reflexivity).
  assert (H2 : sys_handle (SPage 0 (PgSelectTab "chat")) mid_upload = Some mid_upload_chat)
    by (vm_compute; reflexivity).
  assert (H3 : step_ok (SPage 0 (PgSelectTab "chat")) mid_upload) by exact I.
  split; [split_and!; [exact H1|exact H3|exact H2]|].
  exact (sys_step_mounts _ _ _ H1 H3 H2).
Defined.

(** The page after the user returned from the chat with one document. *)
Definition back_to_upload : System :=
  mkSys (mkPage true [set_status completed 100 (newFile "f1" notes_pdf)] "upload") uploader_init [] None 0.

Lemma drop_erases_documents_witness :
  (page back_to_upload = mkPage true [set_status completed 100 (newFile "f1" notes_pdf)] "upload" /\
   chat back_to_upload = None /\ tasks (up back_to_upload) = [] /\ outbox (up back_to_upload) = [] /\
   completedFiles (uploadedFiles (up back_to_upload)) = [] /\ isPdfAccepted notes_pdf = true /\
   "f3" ∉ List.map id (uploadedFiles (up back_to_upload))) /\
  (sys_run (SDrop 0 [("f3", notes_pdf)] :: repeat (SUploadTimer 0 0) 17) back_to_upload =
   Some (mkSys (mkPage true [] "upload")
               (mkUploader (uploadedFiles (up back_to_upload) ++ [set_status completed 100 (newFile "f3" notes_pdf)]) [] [])
               (dead_tasks back_to_upload) None (dead_replies back_to_upload)) /\
   render (setActiveTab "chat" (mkPage true [] "upload")) = MainView "chat" None ChatEmpty).
Proof.
  assert (Hn : "f3" ∉ List.map id (uploadedFiles (up back_to_upload))) by apply not_elem_of_nil.
  split; [split_and!; try reflexivity; exact Hn|].
  exact (drop_erases_documents 0 "f3" notes_pdf back_to_upload _ eq_refl eq_refl eq_refl eq_refl eq_refl eq_refl Hn).
Defined.

Lemma sys_components_ok_witness :
  sys_reachable cascade_end /\
  (Forall file_ok (uploadedFiles (up cascade_end)) /\ NoDup (List.map id (uploadedFiles (up cascade_end))) /\
   (forall c, chat cascade_end = Some c ->
    List.length (List.filter isTyping (messages c)) = (if isLoading c then 1 else 0)%nat /\
    (forall m, In m (messages c) -> isTyping m = true -> last (messages c) = Some m))).
Proof.
  assert (H : sys_reachable cascade_end)
    by (apply (run_ok_reach (cascade_to_chat ++ cascade_back)); vm_compute; reflexivity).
  split; [exact H|exact (sys_components_ok _ H)].
Defined.

Lemma first_drop_no_chat_witness :
  isPdfAccepted notes_pdf = true /\
  (sys_run (first_drop_events 0 "f1" notes_pdf) sys_init = Some (first_drop_state "f1" notes_pdf) /\
   sys_reachable (first_drop_state "f1" notes_pdf) /\
   uploadedFiles (up (first_drop_state "f1" notes_pdf)) = [set_status completed 100 (newFile "f1" notes_pdf)] /\
   render (page (first_drop_state "f1" notes_pdf)) = MainView "upload" None UploadContent /\
   render (setActiveTab "chat" (page (first_drop_state "f1" notes_pdf))) = MainView "chat" None ChatEmpty).
Proof. split; [reflexivity|]. apply first_drop_no_chat. reflexivity. Defined.

Lemma tab_switch_unmounts_uploader_witness :
  (sys_handle (SPage 0 (PgSelectTab "chat")) mid_upload = Some mid_upload_chat /\
   uploader_mounted (page mid_upload) = true /\ "chat" <> "upload") /\
  (up mid_upload_chat = uploader_init /\ dead_tasks mid_upload_chat = dead_tasks mid_upload ++ tasks (up mid_upload)).
Proof.
  assert (H1 : sys_handle (SPage 0 (PgSelectTab "chat")) mid_upload = Some mid_upload_chat)
    by (vm_compute; reflexivity).
  assert (H2 : uploader_mounted (page mid_upload) = true) by (vm_compute; reflexivity).
  split; [split_and!; [exact H1|exact H2|done]|].
  exact (tab_switch_unmounts_uploader 0 "chat" mid_upload mid_upload_chat H1 H2 ltac:(done)).
Defined.
